(** * aita-threat-analyzer: the correlation and risk-fusion pipeline

    A shallow embedding of
      - [backend/app/correlation/log_correlator.py]  (class [LogCorrelator]),
      - [backend/app/ml/risk_scorer.py]              (class [RiskScorer]),
      - [backend/app/nlp/entity_extractor.py]        (class [EntityExtractor]),
    followed by the definitions that word the specification and by the
    properties of these programs.

    Python's [float] is IEEE 754 binary64; it is embedded as Rocq's primitive
    [float], so every sum, product, quotient and comparison below rounds
    exactly as the interpreter does.  Dict-shaped records become records of
    optional fields ([None] = the key is absent), insertion-ordered dicts
    become association lists, raised exceptions become the [Raise] branch of
    [result], and the calls with an effect on the outside world (logger,
    database write-back, alert sink) are recorded in a trace. *)

From Stdlib Require Import ZArith List String Ascii Bool Lia Floats DecimalString.
Import ListNotations.

Set Warnings "-inexact-float".

Open Scope string_scope.
Open Scope Z_scope.

(* ================================================================== *)
(** * Python values and control flow *)
(* ================================================================== *)

Module Py.

(** Exceptions that the modelled code can meet. *)
Inductive exn : Type :=
| KeyError (key : string)
| TypeError (what : string)
| AttributeError (what : string)
| OSError (what : string)
| RuntimeError (what : string).

Inductive result (A : Type) : Type :=
| Ok (a : A)
| Raise (e : exn).

Arguments Ok {A} a.
Arguments Raise {A} e.

(** What a run leaves behind: logger records and the two outward calls of
    the correlator. *)
Inductive level : Type := INFO | WARNING | ERROR.

Inductive event : Type :=
| Logged (lvl : level) (what : string)
| UpdateLogCorrelation (log_entry_id threat_id : Z) (score : float)
| GenerateAlert (log_entry_id threat_id : Z) (score : float).

Definition trace := list event.

(** A computation reads the trace so far and returns its outcome with the
    extended trace; the trace survives a raised exception. *)
Definition M (A : Type) : Type := trace -> result A * trace.

Definition ret {A} (a : A) : M A := fun tr => (Ok a, tr).

Definition raise {A} (e : exn) : M A := fun tr => (Raise e, tr).

Definition bind {A B} (m : M A) (k : A -> M B) : M B :=
  fun tr =>
    match m tr with
    | (Ok a, tr') => k a tr'
    | (Raise e, tr') => (Raise e, tr')
    end.

Definition emit (ev : event) : M unit := fun tr => (Ok tt, (tr ++ [ev])%list).

(** A pure fallible value entering the monad. *)
Definition lift {A} (r : result A) : M A := fun tr => (r, tr).

(** [try: body / except Exception as e: handler(e); raise]. *)
Definition try_reraise {A} (body : M A) (handler : exn -> M unit) : M A :=
  fun tr =>
    match body tr with
    | (Ok a, tr') => (Ok a, tr')
    | (Raise e, tr') =>
        match handler e tr' with
        | (Ok _, tr'') => (Raise e, tr'')
        | (Raise e', tr'') => (Raise e', tr'')
        end
    end.

(** Sequencing of pure fallible values. *)
Definition and_then {A B} (r : result A) (k : A -> result B) : result B :=
  match r with
  | Ok a => k a
  | Raise e => Raise e
  end.

(** [d[key]] on a dict-shaped record: a missing key raises. *)
Definition subscript {A} (key : string) (field : option A) : result A :=
  match field with
  | Some a => Ok a
  | None => Raise (KeyError key)
  end.

(** A key of a dict whose value may be [None]: the key is missing, or it
    is there with [None], or it is there with a value. *)
Inductive field (A : Type) : Type :=
| Missing
| Null
| Val (a : A).

Arguments Missing {A}.
Arguments Null {A}.
Arguments Val {A} a.

(** [d.get(key)]: [None] for a missing key. *)
Definition get {A} (f : field A) : option A :=
  match f with
  | Val a => Some a
  | Missing | Null => None
  end.

(** [d.get(key, default)]: the default replaces a missing key only. *)
Definition get_or {A} (f : field A) (default : A) : option A :=
  match f with
  | Val a => Some a
  | Missing => Some default
  | Null => None
  end.

(** Truth value of a string, a list and a dict. *)
Definition truthy_str (s : string) : bool :=
  match s with EmptyString => false | _ => true end.

Definition truthy_list {A} (l : list A) : bool :=
  match l with [] => false | _ => true end.

(** [d.get(key)] followed by a truth test. *)
Definition get_truthy_str (field : option string) : bool :=
  match field with Some s => truthy_str s | None => false end.

Definition get_truthy_list {A} (field : option (list A)) : bool :=
  match field with Some l => truthy_list l | None => false end.

(** The elements of a list that passed a truth test. *)
Definition items {A} (field : option (list A)) : list A :=
  match field with Some l => l | None => [] end.

(** [x in l] for a list of strings. *)
Definition str_in (x : string) (l : list string) : bool :=
  existsb (String.eqb x) l.

(** [d.get(key) in l]: a missing key gives [None], which no string equals. *)
Definition get_in (field : option string) (l : list string) : bool :=
  match field with Some x => str_in x l | None => false end.

(** [needle in hay] for two strings (substring test). *)
Fixpoint contains (needle hay : string) : bool :=
  String.prefix needle hay ||
  match hay with
  | EmptyString => false
  | String _ rest => contains needle rest
  end.

(** [s.startswith(p)]. *)
Definition startswith (s p : string) : bool := String.prefix p s.

(** [s.lower()] on ASCII text. *)
Definition lower_ascii (c : ascii) : ascii :=
  let n := nat_of_ascii c in
  if (65 <=? n)%nat && (n <=? 90)%nat then ascii_of_nat (n + 32) else c.

Fixpoint lower (s : string) : string :=
  match s with
  | EmptyString => EmptyString
  | String c rest => String (lower_ascii c) (lower rest)
  end.

(** The builtins [min(a, b)] and [max(a, b)] on floats: the first argument
    is kept unless the second compares strictly below (above) it. *)
Definition min (a b : float) : float := if (b <? a)%float then b else a.

Definition max (a b : float) : float := if (a <? b)%float then b else a.

(** [x > y] and [x >= y]. *)
Definition gt (x y : float) : bool := (y <? x)%float.

Definition ge (x y : float) : bool := (y <=? x)%float.

(** [a / b] on non-negative ints: the exact quotient rounded once to the
    nearest binary64, ties to even.  The pipeline divides by 5 and by 3
    only, and the dividends are sums of list lengths, so neither the
    ZeroDivisionError of a zero divisor (NaN here) nor the OverflowError of
    a quotient beyond the binary64 range (infinity here) can arise. *)
Definition truediv (a b : N) : float :=
  match a, b with
  | N0, _ => 0%float
  | Npos p, Npos q =>
      SF2Prim (SFdiv prec emax (S754_finite false p 0) (S754_finite false q 0))
  | Npos _, N0 => nan
  end.

(** [sum(len(v) for v in d.values())] on an insertion-ordered dict. *)
Definition sum_len {K A} (d : list (K * list A)) : N :=
  fold_left (fun acc kv => (acc + N.of_nat (List.length (snd kv)))%N) d 0%N.

(** [d[k] = v]: replace in place, or append a new key. *)
Fixpoint dict_set {A} (d : list (string * A)) (k : string) (v : A)
  : list (string * A) :=
  match d with
  | [] => [(k, v)]
  | (k', v') :: rest =>
      if String.eqb k k' then (k, v) :: rest else (k', v') :: dict_set rest k v
  end.

(** [{**a, **b}]. *)
Definition dict_merge {A} (a b : list (string * A)) : list (string * A) :=
  fold_left (fun d kv => dict_set d (fst kv) (snd kv)) b a.

(** [d.get(k, default)] on a dict with string keys. *)
Fixpoint dict_get {A} (d : list (string * A)) (k : string) (default : A) : A :=
  match d with
  | [] => default
  | (k', v) :: rest => if String.eqb k k' then v else dict_get rest k default
  end.

(** The same when the key looked up may be [None], which is no key of [d]. *)
Definition dict_get_opt {A} (d : list (string * A)) (k : option string)
  (default : A) : A :=
  match k with
  | Some k => dict_get d k default
  | None => default
  end.

(** [x in container] where the container may be [None]. *)
Definition in_container (x : option string) (container : option (list string))
  : result bool :=
  match container with
  | Some l => Ok (get_in x l)
  | None => Raise (TypeError "argument of type 'NoneType' is not iterable")
  end.

End Py.

Notation "x <- m ;; k" := (Py.bind m (fun x => k))
  (at level 61, m at next level, right associativity).
Notation "m ;;; k" := (Py.bind m (fun _ => k))
  (at level 61, right associativity).

(* ================================================================== *)
(** * backend/app/correlation/log_correlator.py *)
(* ================================================================== *)

(** A log event as the correlator reads it (a dict; every key optional). *)
Module LogEntry.
Record t : Type := mk {
  id : option Z;
  source_ip : option string;
  destination_ip : option string;
  domain : option string;
  url : option string;
  file_hash : option string;
  message : option string;
  timestamp : option Z
}.

Definition empty : t := mk None None None None None None None None.

(** [not log_entry] holds of the empty dict only. *)
Definition truthy (l : t) : bool :=
  match id l, source_ip l, destination_ip l, domain l,
        url l, file_hash l, message l, timestamp l with
  | None, None, None, None, None, None, None, None => false
  | _, _, _, _, _, _, _, _ => true
  end.
End LogEntry.

(** A threat record as the correlator reads it.  The fields that the
    schemas declare optional may hold [None].  Times are microseconds since
    the epoch; [file_hashes] maps an algorithm name to a digest. *)
Module Threat.
Record t : Type := mk {
  id : option Z;
  title : option string;
  ip_addresses : Py.field (list string);
  domains : Py.field (list string);
  urls : Py.field (list string);
  file_hashes : Py.field (list (string * string));
  severity : Py.field string;
  discovered_date : Py.field Z
}.

Definition empty : t :=
  mk None None Py.Missing Py.Missing Py.Missing Py.Missing Py.Missing Py.Missing.
End Threat.

(** The dict built for the best candidate. *)
Module Correlation.
Record t : Type := mk {
  threat_id : Z;
  threat_title : string;
  score : float;
  matched_indicators : list string;
  correlation_type : string
}.
End Correlation.

(** The dict returned by a batch run. *)
Module BatchResult.
Record t : Type := mk {
  status : string;
  logs_processed : nat;
  correlations_found : nat;
  alerts_generated : nat
}.
End BatchResult.

Module LogCorrelator.
Import Py.

Definition correlation_threshold : float := 0.7%float.

Definition time_window_hours : Z := 24.

Definition microseconds_per_day : Z := 86400 * 1000000.

(** [(now - discovered).days]: whole days, rounded towards minus infinity. *)
Definition days_between (now discovered : Z) : Z :=
  (now - discovered) / microseconds_per_day.

(** [d.values()] of the hash dict. *)
Definition values (d : list (string * string)) : list string := map snd d.

(** ** The conditions tested by [_calculate_correlation_score] *)

Definition ip_scores (l : LogEntry.t) (t : Threat.t) : bool :=
  get_truthy_str (LogEntry.source_ip l)
  && get_truthy_list (get (Threat.ip_addresses t))
  && get_in (LogEntry.source_ip l) (items (get (Threat.ip_addresses t))).

Definition domain_scores (l : LogEntry.t) (t : Threat.t) : bool :=
  get_truthy_str (LogEntry.domain l)
  && get_truthy_list (get (Threat.domains t))
  && get_in (LogEntry.domain l) (items (get (Threat.domains t))).

(** The [for threat_url in threat['urls']] loop with its [break]. *)
Fixpoint url_loop (log_url : string) (threat_urls : list string) (score : float)
  : float :=
  match threat_urls with
  | [] => score
  | threat_url :: rest =>
      if contains threat_url log_url then (score + 0.3)%float
      else url_loop log_url rest score
  end.

Definition url_scores (l : LogEntry.t) (t : Threat.t) : bool :=
  get_truthy_str (LogEntry.url l) && get_truthy_list (get (Threat.urls t))
  && match LogEntry.url l with
     | Some u => existsb (fun threat_url => contains threat_url u)
                   (items (get (Threat.urls t)))
     | None => false
     end.

Definition hash_scores (l : LogEntry.t) (t : Threat.t) : bool :=
  get_truthy_str (LogEntry.file_hash l)
  && get_truthy_list (get (Threat.file_hashes t))
  && get_in (LogEntry.file_hash l) (values (items (get (Threat.file_hashes t)))).

Definition severity_boost : list (string * float) :=
  [ ("critical", 0.2%float); ("high", 0.15%float);
    ("medium", 0.1%float); ("low", 0.05%float) ].

Definition _calculate_correlation_score (now : Z) (l : LogEntry.t) (t : Threat.t)
  : float :=
  let score := 0%float in
  (* IP address matching *)
  let score :=
    if get_truthy_str (LogEntry.source_ip l)
       && get_truthy_list (get (Threat.ip_addresses t))
    then if get_in (LogEntry.source_ip l) (items (get (Threat.ip_addresses t)))
         then (score + 0.4)%float else score
    else score in
  (* Domain matching *)
  let score :=
    if get_truthy_str (LogEntry.domain l)
       && get_truthy_list (get (Threat.domains t))
    then if get_in (LogEntry.domain l) (items (get (Threat.domains t)))
         then (score + 0.3)%float else score
    else score in
  (* URL matching *)
  let score :=
    if get_truthy_str (LogEntry.url l) && get_truthy_list (get (Threat.urls t))
    then match LogEntry.url l with
         | Some u => url_loop u (items (get (Threat.urls t))) score
         | None => score
         end
    else score in
  (* File hash matching *)
  let score :=
    if get_truthy_str (LogEntry.file_hash l)
       && get_truthy_list (get (Threat.file_hashes t))
    then if get_in (LogEntry.file_hash l)
              (values (items (get (Threat.file_hashes t))))
         then (score + 0.5)%float else score
    else score in
  (* Temporal correlation *)
  let score :=
    match get (Threat.discovered_date t) with
    | Some discovered =>
        let days_old := days_between now discovered in
        if days_old <=? 7 then (score + 0.1)%float
        else if days_old <=? 30 then (score + 0.05)%float
        else score
    | None => score
    end in
  (* Severity boost *)
  let score :=
    (score + dict_get_opt severity_boost (get_or (Threat.severity t) "low")
               0%float)%float in
  Py.min 1%float score.

(** ** The conditions tested by [_get_matched_indicators] and
       [_get_correlation_type] *)

Definition ip_listed (l : LogEntry.t) (t : Threat.t) : result bool :=
  in_container (LogEntry.source_ip l) (get_or (Threat.ip_addresses t) []).

Definition domain_listed (l : LogEntry.t) (t : Threat.t) : result bool :=
  in_container (LogEntry.domain l) (get_or (Threat.domains t) []).

(** [threat.get('file_hashes', {}).values()] fails on [None]. *)
Definition hash_listed (l : LogEntry.t) (t : Threat.t) : result bool :=
  match get_or (Threat.file_hashes t) [] with
  | Some d => Ok (get_in (LogEntry.file_hash l) (values d))
  | None => Raise (AttributeError "'NoneType' object has no attribute 'values'")
  end.

(** [indicators.append(f"IP: {log_entry['source_ip']}")] and its siblings. *)
Definition append_descriptor (indicators : list string) (label key : string)
  (value : option string) : result (list string) :=
  and_then (subscript key value)
    (fun v => Ok (indicators ++ [(label ++ ": " ++ v)%string])%list).

Definition _get_matched_indicators (l : LogEntry.t) (t : Threat.t)
  : result (list string) :=
  let indicators := [] in
  and_then (ip_listed l t) (fun ip =>
  and_then (if ip
            then append_descriptor indicators "IP" "source_ip"
                   (LogEntry.source_ip l)
            else Ok indicators) (fun indicators =>
  and_then (domain_listed l t) (fun dom =>
  and_then (if dom
            then append_descriptor indicators "Domain" "domain"
                   (LogEntry.domain l)
            else Ok indicators) (fun indicators =>
  and_then (hash_listed l t) (fun h =>
  if h
  then append_descriptor indicators "Hash" "file_hash" (LogEntry.file_hash l)
  else Ok indicators))))).

Definition _get_correlation_type (l : LogEntry.t) (t : Threat.t)
  : result string :=
  and_then (ip_listed l t) (fun ip =>
  if ip then Ok "ip_match"
  else and_then (domain_listed l t) (fun dom =>
  if dom then Ok "domain_match"
  else and_then (hash_listed l t) (fun h =>
  if h then Ok "hash_match"
  else Ok "pattern_match"))).

(** ** The persistence collaborator

    [_get_pending_logs], [_get_log_entry] and [_get_relevant_threats] are
    database queries (stubbed in the source with fixed rows); the correlator
    is parametric in them, and a query may raise. *)
Record Database : Type := {
  _get_pending_logs : result (list LogEntry.t);
  _get_log_entry : Z -> result (option LogEntry.t);
  _get_relevant_threats : LogEntry.t -> result (list Threat.t)
}.

Definition _update_log_correlation (log_entry_id : Z) (c : Correlation.t)
  : M unit :=
  emit (UpdateLogCorrelation log_entry_id (Correlation.threat_id c)
          (Correlation.score c)).

Definition _generate_alert (l : LogEntry.t) (c : Correlation.t) : M unit :=
  log_id <- lift (subscript "id" (LogEntry.id l)) ;;
  emit (GenerateAlert log_id (Correlation.threat_id c) (Correlation.score c)).

(** The dict literal assigned to [best_correlation]. *)
Definition correlation_of (l : LogEntry.t) (t : Threat.t) (score : float)
  : result Correlation.t :=
  and_then (subscript "id" (Threat.id t)) (fun threat_id =>
  and_then (subscript "title" (Threat.title t)) (fun threat_title =>
  and_then (_get_matched_indicators l t) (fun matched_indicators =>
  and_then (_get_correlation_type l t) (fun correlation_type =>
  Ok (Correlation.mk threat_id threat_title score matched_indicators
        correlation_type))))).

(** The body of the [for threat in threats] loop of [correlate_log]: the
    pair carries [best_correlation] and [best_score]. *)
Definition consider (now : Z) (l : LogEntry.t)
  (best : option Correlation.t * float) (t : Threat.t)
  : result (option Correlation.t * float) :=
  let score := _calculate_correlation_score now l t in
  if gt score (snd best)
  then and_then (correlation_of l t score) (fun c => Ok (Some c, score))
  else Ok best.

Fixpoint best_of (now : Z) (l : LogEntry.t) (threats : list Threat.t)
  (best : option Correlation.t * float)
  : result (option Correlation.t * float) :=
  match threats with
  | [] => Ok best
  | t :: rest =>
      and_then (consider now l best t) (best_of now l rest)
  end.

Definition correlate_log (db : Database) (now : Z) (log_entry_id : Z)
  : M (option Correlation.t) :=
  try_reraise
    (log_entry <- lift (_get_log_entry db log_entry_id) ;;
     match log_entry with
     | None => ret None
     | Some log_entry =>
         if negb (LogEntry.truthy log_entry) then ret None
         else
           threats <- lift (_get_relevant_threats db log_entry) ;;
           best <- lift (best_of now log_entry threats (None, 0%float)) ;;
           match fst best with
           | Some best_correlation =>
               (if gt (snd best) correlation_threshold
                then _update_log_correlation log_entry_id best_correlation
                else ret tt) ;;;
               ret (Some best_correlation)
           | None => ret None
           end
     end)
    (fun _ => emit (Logged ERROR "Error correlating log")).

(** The body of the [for log_entry in pending_logs] loop: the pair carries
    [correlations_found] and [alerts_generated]. *)
Definition process_one (db : Database) (now : Z) (counts : nat * nat)
  (log_entry : LogEntry.t) : M (nat * nat) :=
  log_id <- lift (subscript "id" (LogEntry.id log_entry)) ;;
  correlation <- correlate_log db now log_id ;;
  match correlation with
  | Some c =>
      if gt (Correlation.score c) correlation_threshold then
        let correlations_found := S (fst counts) in
        if gt (Correlation.score c) 0.8%float then
          _generate_alert log_entry c ;;;
          ret (correlations_found, S (snd counts))
        else ret (correlations_found, snd counts)
      else ret counts
  | None => ret counts
  end.

Fixpoint process_loop (db : Database) (now : Z) (pending : list LogEntry.t)
  (counts : nat * nat) : M (nat * nat) :=
  match pending with
  | [] => ret counts
  | log_entry :: rest =>
      counts' <- process_one db now counts log_entry ;;
      process_loop db now rest counts'
  end.

Definition process_pending_logs (db : Database) (now : Z) : M BatchResult.t :=
  try_reraise
    (pending_logs <- lift (_get_pending_logs db) ;;
     counts <- process_loop db now pending_logs (0%nat, 0%nat) ;;
     emit (Logged INFO "Log correlation completed") ;;;
     ret (BatchResult.mk "completed" (List.length pending_logs)
            (fst counts) (snd counts)))
    (fun _ => emit (Logged ERROR "Error in log correlation")).

(** The fixed rows that the source returns until the queries exist. *)
Definition two_days : Z := 2 * microseconds_per_day.

Definition stub_database (now : Z) : Database := {|
  _get_pending_logs :=
    Ok [ LogEntry.mk (Some 1) (Some "203.0.113.42") (Some "192.168.1.100")
           None None None (Some "Suspicious connection attempt") (Some now);
         LogEntry.mk (Some 2) (Some "198.51.100.15") None
           (Some "malicious-site.com") None None
           (Some "DNS query to suspicious domain") (Some now) ];
  _get_log_entry := fun log_entry_id =>
    Ok (Some (LogEntry.mk (Some log_entry_id) (Some "203.0.113.42") None None
                None None (Some "Suspicious activity detected") (Some now)));
  _get_relevant_threats := fun _ =>
    Ok [ Threat.mk (Some 1) (Some "Malicious IP Campaign")
           (Val ["203.0.113.42"; "198.51.100.15"]) (Val ["evil-site.com"])
           Missing Missing (Val "high") (Val (now - two_days)) ]
|}.

End LogCorrelator.

(* ================================================================== *)
(** * backend/app/ml/risk_scorer.py *)
(* ================================================================== *)

Module ScoreResult.
Record t : Type := mk {
  threat_id : Z;
  risk_score : float;
  risk_level : string;
  features_used : list (string * float)
}.
End ScoreResult.

Module RiskScorer.
Import Py.

Section Scorer.

(** The persisted regression pipeline belongs to scikit-learn and joblib:
    [Model] is the unpickled pipeline, [predict m features] stands for
    [m.predict([features])[0]] and [joblib_load path] for
    [joblib.load(path)], which raises when no model has been persisted. *)
Variable Model : Type.
Variable predict : Model -> list float -> float.
Variable joblib_load : string -> result Model.

Definition model_path : string := "models/risk_scorer.joblib".

Definition feature_names : list string :=
  [ "cvss_score"; "source_reliability"; "threat_age_days"; "ioc_count";
    "external_references"; "exploit_availability"; "target_prevalence" ].

Definition _extract_features (threat_id : Z) : list float :=
  [ 7.5%float; 0.8%float; 5.0%float; 12.0%float; 3.0%float; 0.6%float;
    0.7%float ].

Definition _get_risk_level (risk_score : float) : string :=
  if ge risk_score 8.0%float then "critical"
  else if ge risk_score 6.0%float then "high"
  else if ge risk_score 4.0%float then "medium"
  else if ge risk_score 2.0%float then "low"
  else "minimal".

(** [max(0.0, min(10.0, risk_score))]. *)
Definition clamp_score (raw : float) : float :=
  Py.max 0.0%float (Py.min 10.0%float raw).

(** [self.model] is threaded through: the method returns it next to the
    result dict. *)
Definition score_threat (self_model : option Model) (threat_id : Z)
  : M (ScoreResult.t * option Model) :=
  try_reraise
    (model <- match self_model with
              | Some m => ret m
              | None => lift (joblib_load model_path)
              end ;;
     let features := _extract_features threat_id in
     let risk_score := predict model features in
     let risk_score := clamp_score risk_score in
     let risk_level := _get_risk_level risk_score in
     emit (Logged INFO "Risk score calculated") ;;;
     ret (ScoreResult.mk threat_id risk_score risk_level
            (combine feature_names features), Some model))
    (fun _ => emit (Logged ERROR "Error scoring threat")).

(** [load_model]: [self.model] is assigned only when the load succeeds; the
    method returns whether it did, next to the model it leaves. *)
Definition load_model (self_model : option Model) : M (bool * option Model) :=
  match joblib_load model_path with
  | Ok m => ret (true, Some m)
  | Raise _ =>
      emit (Logged ERROR "Error loading model") ;;;
      ret (false, self_model)
  end.

End Scorer.
End RiskScorer.

(* ================================================================== *)
(** * backend/app/nlp/entity_extractor.py *)
(* ================================================================== *)

Module ExtractionResult.
Record t : Type := mk {
  threat_id : Z;
  entities : list (string * list string);
  iocs : list (string * list string);
  attack_patterns : list (string * list string);
  confidence : float;
  total_entities : option N
}.
End ExtractionResult.

Module EntityExtractor.
Import Py.

(** The double-quote character of the [url] pattern. *)
Definition dquote : string := String (ascii_of_nat 34) EmptyString.

Definition ioc_patterns : list (string * string) :=
  [ ("ip", "\b(?:[0-9]{1,3}\.){3}[0-9]{1,3}\b");
    ("domain",
     "\b(?:[a-zA-Z0-9](?:[a-zA-Z0-9\-]{0,61}[a-zA-Z0-9])?\.)+[a-zA-Z]{2,}\b");
    ("url", "https?://[^\s<>" ++ dquote ++ "{}|\\^`\[\]]+");
    ("email", "\b[A-Za-z0-9._%+-]+@[A-Za-z0-9.-]+\.[A-Z|a-z]{2,}\b");
    ("md5", "\b[a-fA-F0-9]{32}\b");
    ("sha1", "\b[a-fA-F0-9]{40}\b");
    ("sha256", "\b[a-fA-F0-9]{64}\b");
    ("cve", "CVE-\d{4}-\d{4,7}");
    ("cpe", "cpe:2\.3:[aho\*\-]") ].

Definition attack_patterns : list (string * list string) :=
  [ ("malware_families",
     [ "wannacry"; "petya"; "notpetya"; "ryuk"; "maze"; "revil"; "conti";
       "emotet"; "trickbot"; "qakbot"; "dridex"; "zeus"; "carbanak" ]);
    ("attack_techniques",
     [ "sql injection"; "xss"; "csrf"; "lfi"; "rfi"; "xxe"; "ssrf";
       "privilege escalation"; "lateral movement"; "data exfiltration";
       "command injection"; "buffer overflow"; "heap overflow" ]);
    ("attack_vectors",
     [ "phishing"; "spear phishing"; "watering hole"; "drive by download";
       "supply chain"; "insider threat"; "social engineering" ]) ].

Definition entity_types : list string :=
  [ "PERSON"; "ORG"; "GPE"; "PRODUCT"; "EVENT" ].

(** The [for match in matches] loop of [_filter_false_positives]. *)
Fixpoint _filter_false_positives (ioc_type : string) (matches : list string)
  : list string :=
  match matches with
  | [] => []
  | m :: rest =>
      let filtered := _filter_false_positives ioc_type rest in
      if String.eqb ioc_type "ip" then
        if negb (startswith m "192.168." || startswith m "10."
                 || startswith m "127." || startswith m "172.")
        then m :: filtered else filtered
      else if String.eqb ioc_type "domain" then
        if negb (existsb (fun fp => contains fp (lower m))
                   [ "example.com"; "test.com"; "localhost" ])
        then m :: filtered else filtered
      else m :: filtered
  end.

(** [_extract_attack_patterns]: the vocabulary entries found in the
    lower-cased text, per category, categories without a hit left out. *)
Definition found_patterns (text_lower : string) (pattern_list : list string)
  : list string :=
  filter (fun pattern => contains (lower pattern) text_lower) pattern_list.

Definition _extract_attack_patterns (text : string)
  : list (string * list string) :=
  let text_lower := lower text in
  fold_left
    (fun patterns entry =>
       let found := found_patterns text_lower (snd entry) in
       if truthy_list found then dict_set patterns (fst entry) found
       else patterns)
    attack_patterns [].

Definition _calculate_confidence
  (iocs entities patterns : list (string * list string)) : float :=
  let total_entities := sum_len (dict_merge (dict_merge iocs entities) patterns) in
  if (total_entities =? 0)%N then 0.0%float
  else
    let ioc_weight := 0.4%float in
    let entity_weight := 0.3%float in
    let pattern_weight := 0.3%float in
    let ioc_score :=
      (Py.min 1.0 (truediv (sum_len iocs) 5) * ioc_weight)%float in
    let entity_score :=
      (Py.min 1.0 (truediv (sum_len entities) 5) * entity_weight)%float in
    let pattern_score :=
      (Py.min 1.0 (truediv (sum_len patterns) 3) * pattern_weight)%float in
    (ioc_score + entity_score + pattern_score)%float.

Section Extractor.

(** What the extractor takes from outside the repository:
    - [re_findall pattern text] is [re.findall(pattern, text, re.IGNORECASE)]
      (no pattern has a capturing group, so it yields whole matches);
    - [set_list l] is [list(set(l))]: the distinct elements of [l] in the
      iteration order of the interpreter's set;
    - [Language] is a loaded spaCy pipeline, [spacy_load] and [spacy_blank]
      are [spacy.load] and [spacy.blank], and [doc_ents nlp text] is
      [nlp(text).ents] as pairs (entity text, label);
    - [_get_threat_text] is the database read of the threat description. *)
Variable re_findall : string -> string -> list string.
Variable set_list : list string -> list string.
Variable Language : Type.
Variable spacy_load : string -> result Language.
Variable spacy_blank : string -> result Language.
Variable doc_ents : Language -> string -> result (list (string * string)).
Variable _get_threat_text : Z -> string.

(** [self.nlp] is threaded through. *)
Definition _initialize_nlp (self_nlp : option Language) : M (option Language) :=
  match self_nlp with
  | Some nlp => ret (Some nlp)
  | None =>
      match spacy_load "en_core_web_sm" with
      | Ok nlp =>
          emit (Logged INFO "NLP model loaded successfully") ;;;
          ret (Some nlp)
      | Raise (OSError _) =>
          emit (Logged WARNING "spaCy model not found, using blank model") ;;;
          match spacy_blank "en" with
          | Ok nlp =>
              emit (Logged INFO "NLP model loaded successfully") ;;;
              ret (Some nlp)
          | Raise _ =>
              emit (Logged ERROR "Error loading NLP model") ;;;
              ret None
          end
      | Raise _ =>
          emit (Logged ERROR "Error loading NLP model") ;;;
          ret None
      end
  end.

Definition _extract_iocs (text : string) : list (string * list string) :=
  fold_left
    (fun iocs entry =>
       let matches := re_findall (snd entry) text in
       if truthy_list matches then
         let unique_matches := set_list matches in
         let filtered_matches :=
           _filter_false_positives (fst entry) unique_matches in
         if truthy_list filtered_matches
         then dict_set iocs (fst entry) filtered_matches
         else iocs
       else iocs)
    ioc_patterns [].

(** The [for ent_type in entity_types] loop over the entities of one
    document. *)
Definition entities_by_type (ents : list (string * string))
  : list (string * list string) :=
  fold_left
    (fun entities ent_type =>
       let texts :=
         map fst (filter (fun ent => String.eqb (snd ent) ent_type) ents) in
       if truthy_list texts
       then dict_set entities (lower ent_type) (set_list texts)
       else entities)
    entity_types [].

Definition _extract_named_entities (self_nlp : option Language) (text : string)
  : M (list (string * list string) * option Language) :=
  self_nlp <- _initialize_nlp self_nlp ;;
  match self_nlp with
  | None => ret ([], None)
  | Some nlp =>
      match doc_ents nlp text with
      | Ok ents => ret (entities_by_type ents, Some nlp)
      | Raise _ =>
          emit (Logged ERROR "Error in named entity extraction") ;;;
          ret ([], Some nlp)
      end
  end.

Definition extract_from_threat (self_nlp : option Language) (threat_id : Z)
  : M (ExtractionResult.t * option Language) :=
  try_reraise
    (let threat_text := _get_threat_text threat_id in
     if negb (truthy_str threat_text) then
       ret (ExtractionResult.mk threat_id [] [] [] 0.0%float None, self_nlp)
     else
       let iocs := _extract_iocs threat_text in
       r <- _extract_named_entities self_nlp threat_text ;;
       let entities := fst r in
       let attack_patterns := _extract_attack_patterns threat_text in
       let confidence := _calculate_confidence iocs entities attack_patterns in
       let total :=
         sum_len (dict_merge (dict_merge entities iocs) attack_patterns) in
       emit (Logged INFO "Entities extracted") ;;;
       ret (ExtractionResult.mk threat_id entities iocs attack_patterns
              confidence (Some total), snd r))
    (fun _ => emit (Logged ERROR "Error extracting entities")).

End Extractor.

(** The description that the source returns for every threat until the
    database read exists. *)
Definition stub_threat_text : string :=
  "
        A new malware campaign has been discovered targeting financial institutions.
        The attack uses the domain malicious-bank.com to host phishing pages that 
        steal credentials. The malware communicates with C2 server at IP 203.0.113.42
        and downloads additional payloads from https://evil-site.net/payload.exe.
        The campaign uses CVE-2021-44228 for initial exploitation and employs
        SQL injection techniques to extract sensitive data. The malware family
        appears to be related to Emotet and uses spear phishing as the initial
        attack vector. Hash of the main payload: a1b2c3d4e5f6789012345678901234567890123456789012345678901234.
        ".

End EntityExtractor.

(* ================================================================== *)
(** * backend/app/tasks *)
(* ================================================================== *)

Module Tasks.
Import Py.

(** What a call of an [async def] gives when it is not awaited: a coroutine
    object that holds the body, none of which has run. *)
Inductive coroutine (A : Type) : Type :=
| Coroutine (body : M A).

Arguments Coroutine {A} body.

(** [c[key]] on a coroutine object, which has no [__getitem__]. *)
Definition coroutine_getitem {A} (c : coroutine A) (key : string) : M string :=
  raise (TypeError "'coroutine' object is not subscriptable").

(** [try: body / except Exception as exc: handler(exc); raise other(exc)]. *)
Definition try_raise {A} (body : M A) (handler : exn -> M unit)
  (other : exn -> exn) : M A :=
  fun tr =>
    match body tr with
    | (Ok a, tr') => (Ok a, tr')
    | (Raise e, tr') =>
        match handler e tr' with
        | (Ok _, tr'') => (Raise (other e), tr'')
        | (Raise e', tr'') => (Raise e', tr'')
        end
    end.

(** ** tasks/correlation.py *)

Section Correlation.

(** [retry exc] is what [self.retry(exc=exc, countdown=60, max_retries=3)]
    of Celery leaves the task with. *)
Variable retry : exn -> exn.

Definition process_correlations (db : LogCorrelator.Database) (now : Z)
  : M (coroutine BatchResult.t) :=
  try_raise
    (let result := Coroutine (LogCorrelator.process_pending_logs db now) in
     found <- coroutine_getitem result "correlations_found" ;;
     emit (Logged INFO "Log correlation completed") ;;;
     ret result)
    (fun _ => emit (Logged ERROR "Log correlation failed"))
    retry.

Definition correlate_log_entry (db : LogCorrelator.Database) (now : Z)
  (log_entry_id : Z) : M (coroutine (option Correlation.t)) :=
  try_reraise
    (let result := Coroutine (LogCorrelator.correlate_log db now log_entry_id) in
     emit (Logged INFO "Log entry correlated") ;;;
     ret result)
    (fun _ => emit (Logged ERROR "Log correlation failed for")).

End Correlation.

(** ** tasks/ml_processing.py *)

Section MLProcessing.

Variable Model : Type.
Variable predict : Model -> list float -> float.
Variable joblib_load : string -> result Model.

(** [RiskScorer()] is built anew by every call: its model is [None]. *)
Definition calculate_risk_score (threat_id : Z) : M ScoreResult.t :=
  try_reraise
    (let risk_scorer : option Model := None in
     result <- RiskScorer.score_threat Model predict joblib_load risk_scorer
                 threat_id ;;
     emit (Logged INFO "Risk score calculated for threat") ;;;
     ret (fst result))
    (fun _ => emit (Logged ERROR "Risk scoring failed for")).

End MLProcessing.

(** ** tasks/nlp_processing.py *)

Section NLPProcessing.

Variable re_findall : string -> string -> list string.
Variable set_list : list string -> list string.
Variable Language : Type.
Variable spacy_load : string -> result Language.
Variable spacy_blank : string -> result Language.
Variable doc_ents : Language -> string -> result (list (string * string)).
Variable _get_threat_text : Z -> string.

(** [EntityExtractor()] is built anew by every call: its [nlp] is [None]. *)
Definition extract_entities (threat_id : Z) : M ExtractionResult.t :=
  try_reraise
    (let extractor : option Language := None in
     result <- EntityExtractor.extract_from_threat re_findall set_list Language
                 spacy_load spacy_blank doc_ents _get_threat_text extractor
                 threat_id ;;
     emit (Logged INFO "Entities extracted for threat") ;;;
     ret (fst result))
    (fun _ => emit (Logged ERROR "Entity extraction failed for")).

End NLPProcessing.

End Tasks.

(* ================================================================== *)
(** * Specification-side definitions *)
(* ================================================================== *)

(** The comparisons of the interpreter are those of IEEE 754: a total
    preorder on the values that are not NaN.  [key] sends such a value to a
    triple of integers ordered lexicographically the same way. *)
Module FloatOrder.

Definition key (x : spec_float) : Z * Z * Z :=
  match x with
  | S754_nan => (0, 0, 0)
  | S754_zero _ => (0, 0, 0)
  | S754_infinity s => (if s then -2 else 2, 0, 0)
  | S754_finite s m e => if s then (-1, - e, Z.neg m) else (1, e, Z.pos m)
  end.

Definition lex_lt (a b : Z * Z * Z) : Prop :=
  fst (fst a) < fst (fst b) \/
  (fst (fst a) = fst (fst b) /\
   (snd (fst a) < snd (fst b) \/ (snd (fst a) = snd (fst b) /\ snd a < snd b))).

Definition lex_le (a b : Z * Z * Z) : Prop :=
  fst (fst a) < fst (fst b) \/
  (fst (fst a) = fst (fst b) /\
   (snd (fst a) < snd (fst b) \/ (snd (fst a) = snd (fst b) /\ snd a <= snd b))).

(** A float that is not NaN. *)
Definition number (x : float) : Prop := Prim2SF x <> S754_nan.

Definition fkey (x : float) : Z * Z * Z := key (Prim2SF x).

End FloatOrder.

(** The band table as the specification words it: closed-open intervals
    with a label each, the top one unbounded above and the bottom one
    unbounded below. *)
Module RiskBands.




End RiskBands.

(** The scoring table as the specification words it: each signal is a
    condition with a weight, the score is the sum of the weights whose
    condition holds, clamped to 1.0. *)
Module ScoreTable.
Import Py LogCorrelator.

Inductive age : Type := Recent | Month | Older.

(** Whole days since discovery, against the 7-day and 30-day marks; a
    threat without a date gets no recency term. *)
Definition age_of (now : Z) (t : Threat.t) : age :=
  match get (Threat.discovered_date t) with
  | Some discovered =>
      if days_between now discovered <=? 7 then Recent
      else if days_between now discovered <=? 30 then Month
      else Older
  | None => Older
  end.

Definition recency_term (a : age) : float :=
  match a with
  | Recent => 0.1%float
  | Month => 0.05%float
  | Older => 0%float
  end.

(** The boost of a named level: the four of the table, nothing for any
    other name. *)
Definition level_boost (s : string) : float :=
  if String.eqb s "critical" then 0.2%float
  else if String.eqb s "high" then 0.15%float
  else if String.eqb s "medium" then 0.1%float
  else if String.eqb s "low" then 0.05%float
  else 0%float.

(** Severity boost as claimed: nothing for a threat whose severity is not
    specified, be the field [None] or not there at all. *)
Definition claimed_severity_term (t : Threat.t) : float :=
  match Threat.severity t with
  | Val s => level_boost s
  | Null | Missing => 0%float
  end.

(** Severity boost as coded: a threat without the field counts as low. *)
Definition severity_term (t : Threat.t) : float :=
  match Threat.severity t with
  | Val s => level_boost s
  | Null => 0%float
  | Missing => level_boost "low"
  end.

Definition signals (now : Z) (l : LogEntry.t) (t : Threat.t) (sev : float)
  : list (bool * float) :=
  [ (ip_scores l t, 0.4%float);
    (domain_scores l t, 0.3%float);
    (url_scores l t, 0.3%float);
    (hash_scores l t, 0.5%float);
    (true, recency_term (age_of now t));
    (true, sev) ].

Definition sum_applicable (terms : list (bool * float)) : float :=
  fold_left PrimFloat.add (map snd (filter fst terms)) 0%float.

Definition clamp_to_one (x : float) : float :=
  if (1 <? x)%float then 1%float else x.

Definition claimed_score (now : Z) (l : LogEntry.t) (t : Threat.t) : float :=
  clamp_to_one (sum_applicable (signals now l t (claimed_severity_term t))).

Definition table_score (now : Z) (l : LogEntry.t) (t : Threat.t) : float :=
  clamp_to_one (sum_applicable (signals now l t (severity_term t))).

(** At least one of the four indicator conditions holds. *)
Definition some_indicator (l : LogEntry.t) (t : Threat.t) : bool :=
  ip_scores l t || domain_scores l t || url_scores l t || hash_scores l t.

(** The straight-line shape of [_calculate_correlation_score]. *)
Definition score_of (ip dom url hash : bool) (a : age) (sev : float) : float :=
  let score := 0%float in
  let score := if ip then (score + 0.4)%float else score in
  let score := if dom then (score + 0.3)%float else score in
  let score := if url then (score + 0.3)%float else score in
  let score := if hash then (score + 0.5)%float else score in
  let score :=
    match a with
    | Recent => (score + 0.1)%float
    | Month => (score + 0.05)%float
    | Older => score
    end in
  Py.min 1%float (score + sev)%float.

End ScoreTable.

(** Scenario B of the specification: IP and domain match, two days old,
    high severity. *)
Definition scenario_b_log : LogEntry.t :=
  LogEntry.mk (Some 1) (Some "203.0.113.42") None (Some "evil.example.com")
    None None None None.

Definition scenario_b_threat (now : Z) : Threat.t :=
  Threat.mk (Some 1) (Some "Malicious IP Campaign")
    (Py.Val ["203.0.113.42"])
    (Py.Val ["evil.example.com"]) Py.Missing Py.Missing (Py.Val "high")
    (Py.Val (now - LogCorrelator.two_days)).

(** A log event whose URL contains a URL of the threat, and nothing else
    in common with it. *)
Definition url_only_log : LogEntry.t :=
  LogEntry.mk (Some 7) None None None
    (Some "http://evil-site.net/payload.exe") None None None.

Definition url_only_threat : Threat.t :=
  Threat.mk (Some 3) (Some "Payload host") Py.Missing Py.Missing
    (Py.Val ["evil-site.net"]) Py.Missing (Py.Val "high") Py.Missing.

(** What [correlate_log] is to return and to persist. *)
Module Candidates.
Import Py LogCorrelator.

(** A threat record from which the result dict can be built: it has an id
    and a title, and its indicator fields are not [None]. *)
Definition well_formed (t : Threat.t) : bool :=
  match Threat.id t, Threat.title t, Threat.ip_addresses t, Threat.domains t,
        Threat.file_hashes t with
  | None, _, _, _, _ | _, None, _, _, _ => false
  | _, _, Null, _, _ | _, _, _, Null, _ | _, _, _, _, Null => false
  | _, _, _, _, _ => true
  end.

(** The write-back that follows a returned correlation: only above the
    threshold. *)
Definition persisted (log_entry_id : Z) (res : option Correlation.t)
  : list event :=
  match res with
  | Some c =>
      if gt (Correlation.score c) correlation_threshold
      then [UpdateLogCorrelation log_entry_id (Correlation.threat_id c)
              (Correlation.score c)]
      else []
  | None => []
  end.

(** [c] is the entry built for [t], the first of the best-scoring
    candidates of [ts], and its score is above 0. *)
Definition first_best (now : Z) (l : LogEntry.t) (ts : list Threat.t)
  (c : Correlation.t) : Prop :=
  exists before t after,
    ts = (before ++ t :: after)%list
    /\ correlation_of l t (_calculate_correlation_score now l t) = Ok c
    /\ Correlation.score c = _calculate_correlation_score now l t
    /\ gt (Correlation.score c) 0%float = true
    /\ (Correlation.score c <=? 1)%float = true
    /\ Forall (fun t' => (_calculate_correlation_score now l t'
                          <? Correlation.score c)%float = true) before
    /\ Forall (fun t' => (_calculate_correlation_score now l t'
                          <=? Correlation.score c)%float = true) after.

End Candidates.

(** The batch loop in terms of the outcome of each pending event. *)
Module Batch.
Import Py LogCorrelator.

(** The outcome of correlating one pending event, apart from the trace. *)
Definition outcome (db : Database) (now : Z) (log_entry : LogEntry.t)
  : result (option Correlation.t) :=
  and_then (subscript "id" (LogEntry.id log_entry))
    (fun log_id => fst (correlate_log db now log_id [])).

Definition succeeds (db : Database) (now : Z) (log_entry : LogEntry.t) : bool :=
  match outcome db now log_entry with Ok _ => true | Raise _ => false end.

(** The outcome carries a correlation with a score above [bound]. *)
Definition above (bound : float) (db : Database) (now : Z)
  (log_entry : LogEntry.t) : bool :=
  match outcome db now log_entry with
  | Ok (Some c) => gt (Correlation.score c) correlation_threshold
                   && gt (Correlation.score c) bound
  | _ => false
  end.

Definition count (p : LogEntry.t -> bool) (pending : list LogEntry.t) : nat :=
  List.length (filter p pending).

(** The record that a failed correlation of one pending event leaves: the
    error record of [correlate_log], or nothing when the event has no id
    (the subscript fails in the loop, before the correlator is called). *)
Definition failure_record (log_entry : LogEntry.t) : list event :=
  match LogEntry.id log_entry with
  | Some _ => [Logged ERROR "Error correlating log"]
  | None => []
  end.

(** What one turn of the loop adds to the trace: the write-back of a
    correlation above the threshold, followed by the alert when it is above
    0.8 as well; the failure record when the correlation raises. *)
Definition effects (db : Database) (now : Z) (log_entry : LogEntry.t)
  : list event :=
  match LogEntry.id log_entry with
  | None => []
  | Some log_id =>
      match outcome db now log_entry with
      | Ok (Some c) =>
          if gt (Correlation.score c) correlation_threshold then
            UpdateLogCorrelation log_id (Correlation.threat_id c)
              (Correlation.score c)
            :: (if gt (Correlation.score c) 0.8%float
                then [GenerateAlert log_id (Correlation.threat_id c)
                        (Correlation.score c)]
                else [])
          else []
      | Ok None => []
      | Raise _ => [Logged ERROR "Error correlating log"]
      end
  end.

(** A computation whose outcome does not depend on the trace it starts
    from, and which only appends to it. *)
Definition uniform {A} (m : M A) : Prop :=
  exists (r : result A) (evs : list event), forall tr, m tr = (r, (tr ++ evs)%list).

End Batch.

(** A database with two pending events where the lookup of the first one
    fails. *)
Definition flaky_database (now : Z) : LogCorrelator.Database := {|
  LogCorrelator._get_pending_logs :=
    LogCorrelator._get_pending_logs (LogCorrelator.stub_database now);
  LogCorrelator._get_log_entry := fun log_entry_id =>
    if log_entry_id =? 1 then Py.Raise (Py.RuntimeError "lookup failed")
    else LogCorrelator._get_log_entry (LogCorrelator.stub_database now)
           log_entry_id;
  LogCorrelator._get_relevant_threats :=
    LogCorrelator._get_relevant_threats (LogCorrelator.stub_database now)
|}.

(** Dotted-quad addresses and the private or reserved ranges
    10.0.0.0/8, 172.16.0.0/12, 192.168.0.0/16 and 127.0.0.0/8. *)
Module IPv4.

Definition octet (n : N) : string := NilZero.string_of_uint (N.to_uint n).

Definition dotted (a b c d : N) : string :=
  octet a ++ "." ++ octet b ++ "." ++ octet c ++ "." ++ octet d.

Definition private_or_reserved (a b c d : N) : bool :=
  ((a =? 10) || ((a =? 172) && (16 <=? b) && (b <=? 31))
   || ((a =? 192) && (b =? 168)) || (a =? 127))%N.

End IPv4.

(** The confidence as the specification words it. *)
Module Confidence.

Definition claimed_confidence (ioc_count entity_count pattern_count : N)
  : float :=
  (0.4 * Py.min 1 (Py.truediv ioc_count 5)
   + 0.3 * Py.min 1 (Py.truediv entity_count 5)
   + 0.3 * Py.min 1 (Py.truediv pattern_count 3))%float.

(** The keys of an insertion-ordered dict. *)
Definition keys {A} (d : list (string * A)) : list string := map fst d.

(** No key of [b] is a key of [a]. *)
Definition apart (a b : list string) : bool :=
  forallb (fun k => negb (Py.str_in k a)) b.

Definition ioc_keys : list string := map fst EntityExtractor.ioc_patterns.

Definition entity_keys : list string := map Py.lower EntityExtractor.entity_types.

Definition pattern_keys : list string :=
  map fst EntityExtractor.attack_patterns.

(** The language model cannot be had: loading fails, and so does the blank
    fallback when the failure is the [OSError] that triggers it. *)
Definition model_unavailable {Language : Type}
  (spacy_load spacy_blank : string -> Py.result Language) : bool :=
  match spacy_load "en_core_web_sm" with
  | Py.Ok _ => false
  | Py.Raise (Py.OSError _) =>
      match spacy_blank "en" with
      | Py.Ok _ => false
      | Py.Raise _ => true
      end
  | Py.Raise _ => true
  end.

End Confidence.

(** A deployment without any language model, and a text in which none of
    the nine IOC patterns has a match (no digit, dot, colon or at sign), so
    that [re.findall] yields nothing for it. *)
Module NoModel.

Definition re_findall (pattern text : string) : list string := [].

Definition set_list (l : list string) : list string := nodup string_dec l.

Definition Language : Type := unit.

Definition spacy_load (name : string) : Py.result Language :=
  Py.Raise (Py.OSError "[E050] Can't find model 'en_core_web_sm'").

Definition spacy_blank (lang : string) : Py.result Language :=
  Py.Raise (Py.RuntimeError "spaCy is not usable").

Definition doc_ents (nlp : Language) (text : string)
  : Py.result (list (string * string)) := Py.Ok [].

Definition _get_threat_text (threat_id : Z) : string :=
  "Emotet spreads by phishing".

Definition extract :=
  EntityExtractor.extract_from_threat re_findall set_list Language spacy_load
    spacy_blank doc_ents _get_threat_text.

End NoModel.

(* ================================================================== *)
(** * Further definitions for the properties of the code *)
(* ================================================================== *)

(** How the descriptors and the correlation type show in one another. *)
Module Indicators.
Import Py LogCorrelator.

(** The descriptor of one kind of indicator, when its test holds. *)
Definition described (label : string) (value : option string) (listed : bool)
  : list string :=
  match value with
  | Some v => if listed then [(label ++ ": " ++ v)%string] else []
  | None => []
  end.

(** The tag that goes with the first descriptor of a list. *)
Definition tag_of (inds : list string) : string :=
  match inds with
  | [] => "pattern_match"
  | d :: _ =>
      if String.prefix "IP: " d then "ip_match"
      else if String.prefix "Domain: " d then "domain_match"
      else "hash_match"
  end.

(** The events of a trace that are write-backs, and those that are
    alerts. *)
Definition is_update (ev : event) : bool :=
  match ev with UpdateLogCorrelation _ _ _ => true | _ => false end.

Definition is_alert (ev : event) : bool :=
  match ev with GenerateAlert _ _ _ => true | _ => false end.

(** The score to beat after a run of the candidate loop. *)
Definition score_to_beat (res : option Correlation.t) : float :=
  match res with Some c => Correlation.score c | None => 0%float end.

(** A database that differs from [db] in the candidate list only. *)
Definition with_threats (db : Database) (threats : LogEntry.t -> result (list Threat.t))
  : Database :=
  {| _get_pending_logs := _get_pending_logs db;
     _get_log_entry := _get_log_entry db;
     _get_relevant_threats := threats |}.

(** A database without the log entry asked for. *)
Definition no_such_entry : Database :=
  {| _get_pending_logs := Ok [];
     _get_log_entry := fun _ => Ok None;
     _get_relevant_threats := fun _ => Raise (RuntimeError "not queried") |}.

(** The log entry asked for is not there: the query gives [None] or an
    empty dict. *)
Definition entry_absent (db : Database) (log_entry_id : Z) : bool :=
  match _get_log_entry db log_entry_id with
  | Ok None => true
  | Ok (Some l) => negb (LogEntry.truthy l)
  | Raise _ => false
  end.

(** The step of [correlate_log] at which [e] was raised. *)
Definition raised_by (db : Database) (now log_entry_id : Z) (e : exn) : Prop :=
  _get_log_entry db log_entry_id = Raise e
  \/ exists l,
       _get_log_entry db log_entry_id = Ok (Some l)
       /\ LogEntry.truthy l = true
       /\ (_get_relevant_threats db l = Raise e
           \/ exists ts,
                _get_relevant_threats db l = Ok ts
                /\ best_of now l ts (None, 0%float) = Raise e).

(** The store of scenario B of the specification: one pending event that
    matches a recent high-severity threat by IP and by domain. *)
Definition scenario_b_database (now : Z) : Database :=
  {| _get_pending_logs := Ok [scenario_b_log];
     _get_log_entry := fun _ => Ok (Some scenario_b_log);
     _get_relevant_threats := fun _ => Ok [scenario_b_threat now] |}.

End Indicators.

(** The risk levels from the lowest to the highest. *)
Module RiskRank.

Definition rank (level : string) : nat :=
  if String.eqb level "critical" then 4
  else if String.eqb level "high" then 3
  else if String.eqb level "medium" then 2
  else if String.eqb level "low" then 1
  else 0.

(** A persisted model that has been loaded, for the examples: it predicts
    the CVSS feature. *)
Definition Model : Type := unit.

Definition predict (m : Model) (features : list float) : float :=
  hd 0%float features.

Definition present (path : string) : Py.result Model := Py.Ok tt.

Definition missing (path : string) : Py.result Model :=
  Py.Raise (Py.OSError "No such file or directory").

End RiskRank.

(** What the false-positive filter keeps, match by match. *)
Module FalsePositives.
Import Py.

Definition denylist : list string := [ "example.com"; "test.com"; "localhost" ].

Definition keeps (ioc_type m : string) : bool :=
  if String.eqb ioc_type "ip" then
    negb (startswith m "192.168." || startswith m "10."
          || startswith m "127." || startswith m "172.")
  else if String.eqb ioc_type "domain" then
    negb (existsb (fun fp => contains fp (lower m)) denylist)
  else true.

End FalsePositives.

(** What one row of the IOC pattern table contributes for a text. *)
Module Reported.
Import Py EntityExtractor.

Section Row.
Variable re_findall : string -> string -> list string.
Variable set_list : list string -> list string.

Definition ioc_values (text : string) (entry : string * string) : list string :=
  _filter_false_positives (fst entry) (set_list (re_findall (snd entry) text)).

Definition ioc_kept (text : string) (entry : string * string) : bool :=
  truthy_list (re_findall (snd entry) text)
  && truthy_list (ioc_values text entry).

Definition entity_texts (ents : list (string * string)) (ent_type : string)
  : list string :=
  map fst (filter (fun ent => String.eqb (snd ent) ent_type) ents).

End Row.

Definition lowercase_vocabulary : bool :=
  forallb (fun e => forallb (fun p => String.eqb (lower p) p) (snd e))
    attack_patterns.

End Reported.

(** Two threat descriptions and the matches that the IOC patterns have in
    them: the first has none, the second has two addresses, one of them
    private, and a CVE identifier.  The language model loads and finds no
    entity. *)
Module Sample.
Import Py EntityExtractor.

Definition text_1 : string := "Emotet spreads by phishing".

Definition text_2 : string :=
  "Emotet c2 at 203.0.113.42 and 10.0.0.1, spear phishing, CVE-2021-44228".

Definition pattern_of (ioc_type : string) : string :=
  match find (fun e => String.eqb (fst e) ioc_type) ioc_patterns with
  | Some e => snd e
  | None => EmptyString
  end.

Definition re_findall (pattern text : string) : list string :=
  if String.eqb pattern (pattern_of "ip") then
    filter (fun m => contains m text) [ "203.0.113.42"; "10.0.0.1" ]
  else if String.eqb pattern (pattern_of "cve") then
    filter (fun m => contains m text) [ "CVE-2021-44228" ]
  else [].

Definition set_list (l : list string) : list string := nodup string_dec l.

Definition Language : Type := unit.

Definition spacy_load (name : string) : result Language := Ok tt.

Definition spacy_blank (lang : string) : result Language := Ok tt.

Definition doc_ents (nlp : Language) (text : string)
  : result (list (string * string)) := Ok [].

Definition _get_threat_text (threat_id : Z) : string :=
  if (threat_id =? 1)%Z then text_1 else text_2.

Definition extract :=
  extract_from_threat re_findall set_list Language spacy_load spacy_blank
    doc_ents _get_threat_text.

(** The result of a run (the runs of this deployment do not raise). *)
Definition result_of (run : result (ExtractionResult.t * option Language) * trace)
  : ExtractionResult.t :=
  match fst run with
  | Ok (r, _) => r
  | Raise _ => ExtractionResult.mk 0 [] [] [] 0%float None
  end.

Definition run_1 := extract None 1 [].
Definition run_2 := extract None 2 [].

End Sample.

(** The confidence formula on the counts that its caps leave apart:
    0 to 5 IOCs, 0 to 5 entities and 0 to 3 attack patterns. *)
Module ConfidenceTable.
Import Confidence.

Definition counts5 : list N := [ 0; 1; 2; 3; 4; 5 ]%N.
Definition counts3 : list N := [ 0; 1; 2; 3 ]%N.

Definition positive_on_table : bool :=
  forallb (fun i => forallb (fun e => forallb (fun p =>
    implb (negb (i + e + p =? 0)%N)
      (0 <? claimed_confidence i e p)%float)
    counts3) counts5) counts5.

Definition monotone_in_iocs : bool :=
  forallb (fun i => forallb (fun i' => forallb (fun e => forallb (fun p =>
    implb (i <=? i')%N
      (claimed_confidence i e p <=? claimed_confidence i' e p)%float)
    counts3) counts5) counts5) counts5.

Definition monotone_in_entities : bool :=
  forallb (fun i => forallb (fun e => forallb (fun e' => forallb (fun p =>
    implb (e <=? e')%N
      (claimed_confidence i e p <=? claimed_confidence i e' p)%float)
    counts3) counts5) counts5) counts5.

Definition monotone_in_patterns : bool :=
  forallb (fun i => forallb (fun e => forallb (fun p => forallb (fun p' =>
    implb (p <=? p')%N
      (claimed_confidence i e p <=? claimed_confidence i e p')%float)
    counts3) counts3) counts5) counts5.

End ConfidenceTable.

(** The rows that the stubbed queries of the correlator return: the log
    entry of any id and the one threat relevant to it. *)
Module Shipped.
Import Py LogCorrelator.

Definition shipped_log (now log_entry_id : Z) : LogEntry.t :=
  LogEntry.mk (Some log_entry_id) (Some "203.0.113.42") None None None None
    (Some "Suspicious activity detected") (Some now).

Definition shipped_threat (now : Z) : Threat.t :=
  Threat.mk (Some 1) (Some "Malicious IP Campaign")
    (Val ["203.0.113.42"; "198.51.100.15"]) (Val ["evil-site.com"])
    Missing Missing (Val "high") (Val (now - two_days)).

Definition shipped_correlation : Correlation.t :=
  Correlation.mk 1 "Malicious IP Campaign" (0.4 + 0.1 + 0.15)%float
    ["IP: 203.0.113.42"] "ip_match".

End Shipped.

(* ================================================================== *)
(** * The order of binary64 values *)
(* ================================================================== *)

(** The comparisons above are a total preorder on the values that are not
    NaN, because the keys are ordered lexicographically the same way. *)
Module FloatFacts.
Import FloatOrder.

Ltac split_compare :=
  repeat match goal with
  | |- context [Z.compare ?a ?b] => destruct (Z.compare_spec a b)
  | |- context [PosDef.Pos.compare_cont Eq ?a ?b] =>
      change (PosDef.Pos.compare_cont Eq a b) with (Pos.compare a b);
      destruct (Pos.compare_spec a b)
  end.

Ltac by_key :=
  intros x y;
  destruct x as [sx|sx| |sx mx ex], y as [sy|sy| |sy my ey];
  try destruct sx; try destruct sy; cbn; split_compare; cbn;
  (split;
   [ intros Hcmp; try discriminate Hcmp; repeat split; try discriminate; lia
   | intros (Hx & Hy & Hk); try reflexivity; try (exfalso; congruence);
     exfalso; lia ]).

Lemma SFltb_key :
  forall x y,
    SFltb x y = true <->
    x <> S754_nan /\ y <> S754_nan /\ lex_lt (key x) (key y).
Proof. unfold SFltb, SFcompare, lex_lt. by_key. Qed.

Lemma SFleb_key :
  forall x y,
    SFleb x y = true <->
    x <> S754_nan /\ y <> S754_nan /\ lex_le (key x) (key y).
Proof. unfold SFleb, SFcompare, lex_le. by_key. Qed.

Lemma ltb_key (x y : float) :
  (x <? y)%float = true <-> number x /\ number y /\ lex_lt (fkey x) (fkey y).
Proof. rewrite ltb_spec. apply SFltb_key. Qed.

Lemma leb_key (x y : float) :
  (x <=? y)%float = true <-> number x /\ number y /\ lex_le (fkey x) (fkey y).
Proof. rewrite leb_spec. apply SFleb_key. Qed.

Ltac keys :=
  unfold lex_lt, lex_le in *;
  repeat match goal with
  | |- context [fkey ?x] =>
      let a := fresh "a" in let b := fresh "b" in let c := fresh "c" in
      destruct (fkey x) as [[a b] c]
  | H : context [fkey ?x] |- _ =>
      let a := fresh "a" in let b := fresh "b" in let c := fresh "c" in
      destruct (fkey x) as [[a b] c]
  end;
  cbn [fst snd] in *.

Lemma ltb_leb (x y : float) :
  (x <? y)%float = true -> (x <=? y)%float = true.
Proof.
  rewrite ltb_key, leb_key. intros (Hx & Hy & H). repeat split; trivial.
  keys. lia.
Qed.

Lemma ltb_number_l (x y : float) : (x <? y)%float = true -> number x.
Proof. rewrite ltb_key. tauto. Qed.


Lemma leb_number_l (x y : float) : (x <=? y)%float = true -> number x.
Proof. rewrite leb_key. tauto. Qed.

Lemma leb_number_r (x y : float) : (x <=? y)%float = true -> number y.
Proof. rewrite leb_key. tauto. Qed.

Lemma leb_refl (x : float) : number x -> (x <=? x)%float = true.
Proof. intros Hx. apply leb_key. repeat split; trivial. keys. lia. Qed.

(** On numbers, [x < y] is the negation of [y <= x]. *)
Lemma ltb_negb_leb (x y : float) :
  number x -> number y -> (x <? y)%float = negb (y <=? x)%float.
Proof.
  intros Hx Hy.
  destruct (x <? y)%float eqn:Hlt, (y <=? x)%float eqn:Hle; trivial; exfalso.
  - apply ltb_key in Hlt. apply leb_key in Hle.
    destruct Hlt as (_ & _ & Hlt), Hle as (_ & _ & Hle). keys. lia.
  - assert (Hn : ~ lex_lt (fkey x) (fkey y)).
    { intros H. rewrite (proj2 (ltb_key x y)) in Hlt; [discriminate | tauto]. }
    assert (Hm : ~ lex_le (fkey y) (fkey x)).
    { intros H. rewrite (proj2 (leb_key y x)) in Hle; [discriminate | tauto]. }
    keys. lia.
Qed.

Lemma leb_trans (x y z : float) :
  (x <=? y)%float = true -> (y <=? z)%float = true -> (x <=? z)%float = true.
Proof.
  rewrite !leb_key. intros (Hx & Hy & H1) (_ & Hz & H2).
  repeat split; trivial. keys. lia.
Qed.

Lemma leb_ltb_trans (x y z : float) :
  (x <=? y)%float = true -> (y <? z)%float = true -> (x <? z)%float = true.
Proof.
  rewrite leb_key, !ltb_key. intros (Hx & Hy & H1) (_ & Hz & H2).
  repeat split; trivial. keys. lia.
Qed.

Lemma ltb_leb_trans (x y z : float) :
  (x <? y)%float = true -> (y <=? z)%float = true -> (x <? z)%float = true.
Proof.
  rewrite leb_key, !ltb_key. intros (Hx & Hy & H1) (_ & Hz & H2).
  repeat split; trivial. keys. lia.
Qed.

(** The builtins [min] and [max] never return NaN when their first
    argument is a number, and they stay on the right side of it. *)
Lemma min_number (a b : float) : number a -> number (Py.min a b).
Proof.
  intros Ha. unfold Py.min. destruct (b <? a)%float eqn:H; trivial.
  apply (ltb_number_l _ _ H).
Qed.

Lemma min_le_l (a b : float) : number a -> (Py.min a b <=? a)%float = true.
Proof.
  intros Ha. unfold Py.min. destruct (b <? a)%float eqn:H.
  - apply ltb_leb, H.
  - apply leb_refl, Ha.
Qed.




Lemma number_of_literal (x : float) : (x <=? x)%float = true -> number x.
Proof. apply leb_number_l. Qed.

End FloatFacts.

(* ================================================================== *)
(** * Risk scorer: range of the score and banding *)
(* ================================================================== *)





(* ================================================================== *)
(** * Correlation score *)
(* ================================================================== *)

Section ScoreFacts.
Import Py LogCorrelator ScoreTable.

Lemma url_loop_exists (u : string) (urls : list string) (score : float) :
  url_loop u urls score
  = if existsb (fun threat_url => contains threat_url u) urls
    then (score + 0.3)%float else score.
Proof.
  induction urls as [| threat_url rest IH]; cbn; trivial.
  destruct (contains threat_url u); cbn; trivial.
Qed.

Lemma guarded_if {A} (a b c : bool) (x y : A) :
  (if a && b then if c then x else y else y) = if a && b && c then x else y.
Proof. destruct a, b, c; reflexivity. Qed.

Lemma level_boost_lookup (s : string) :
  dict_get severity_boost s 0%float = level_boost s.
Proof. reflexivity. Qed.

Lemma severity_lookup (t : Threat.t) :
  dict_get_opt severity_boost (get_or (Threat.severity t) "low") 0%float
  = severity_term t.
Proof.
  unfold severity_term. destruct (Threat.severity t); reflexivity.
Qed.

Lemma score_shape (now : Z) (l : LogEntry.t) (t : Threat.t) :
  _calculate_correlation_score now l t
  = score_of (ip_scores l t) (domain_scores l t) (url_scores l t)
      (hash_scores l t) (age_of now t) (severity_term t).
Proof.
  unfold _calculate_correlation_score, score_of.
  rewrite !guarded_if, severity_lookup.
  fold (ip_scores l t) (domain_scores l t) (hash_scores l t).
  assert (Hurl : forall s : float,
    (if get_truthy_str (LogEntry.url l) && get_truthy_list (get (Threat.urls t))
     then match LogEntry.url l with
          | Some u => url_loop u (items (get (Threat.urls t))) s
          | None => s
          end
     else s)
    = if url_scores l t then (s + 0.3)%float else s).
  { intros s. unfold url_scores.
    destruct (LogEntry.url l) as [u |]; cbn.
    - rewrite url_loop_exists.
      destruct (truthy_str u), (get_truthy_list (get (Threat.urls t)));
        cbn; trivial; destruct (existsb _ _); trivial.
    - reflexivity. }
  rewrite Hurl.
  unfold age_of.
  destruct (get (Threat.discovered_date t)) as [d |]; trivial.
  destruct (days_between now d <=? 7); trivial.
  destruct (days_between now d <=? 30); trivial.
Qed.

(** The boost is one of five values. *)
Lemma boost_values (s : string) :
  let b := level_boost s in
  b = 0.2%float \/ b = 0.15%float \/ b = 0.1%float \/ b = 0.05%float
  \/ b = 0%float.
Proof.
  unfold level_boost.
  destruct (s =? "critical")%string; [tauto |].
  destruct (s =? "high")%string; [tauto |].
  destruct (s =? "medium")%string; [tauto |].
  destruct (s =? "low")%string; tauto.
Qed.

Lemma severity_term_values (t : Threat.t) :
  severity_term t = 0.2%float \/ severity_term t = 0.15%float
  \/ severity_term t = 0.1%float \/ severity_term t = 0.05%float
  \/ severity_term t = 0%float.
Proof.
  unfold severity_term. destruct (Threat.severity t) as [| | s].
  - cbn. tauto.
  - tauto.
  - apply boost_values.
Qed.

Ltac each_boost H :=
  destruct H as [H | [H | [H | [H | H]]]]; rewrite H.

Lemma score_of_is_sum (ip dom url hash : bool) (a : age) (sev : float) :
  sev = 0.2%float \/ sev = 0.15%float \/ sev = 0.1%float \/ sev = 0.05%float
  \/ sev = 0%float ->
  score_of ip dom url hash a sev
  = clamp_to_one
      (sum_applicable
         [ (ip, 0.4%float); (dom, 0.3%float); (url, 0.3%float);
           (hash, 0.5%float); (true, recency_term a); (true, sev) ]).
Proof.
  intros H. each_boost H; destruct ip, dom, url, hash, a; reflexivity.
Qed.

Lemma score_of_without_indicator (a : age) (sev : float) :
  sev = 0.2%float \/ sev = 0.15%float \/ sev = 0.1%float \/ sev = 0.05%float
  \/ sev = 0%float ->
  (score_of false false false false a sev <=? 0.1 + 0.2)%float = true.
Proof. intros H. each_boost H; destruct a; reflexivity. Qed.

Lemma score_of_positive (ip dom url hash : bool) (a : age) (sev : float) :
  sev = 0.2%float \/ sev = 0.15%float \/ sev = 0.1%float \/ sev = 0.05%float
  \/ sev = 0%float ->
  (0 <=? score_of ip dom url hash a sev)%float = true.
Proof.
  intros H. each_boost H; destruct ip, dom, url, hash, a; reflexivity.
Qed.

Lemma score_number (now : Z) (l : LogEntry.t) (t : Threat.t) :
  FloatOrder.number (_calculate_correlation_score now l t).
Proof.
  unfold _calculate_correlation_score. apply FloatFacts.min_number.
  apply FloatFacts.number_of_literal. reflexivity.
Qed.

Lemma score_at_most_one (now : Z) (l : LogEntry.t) (t : Threat.t) :
  (_calculate_correlation_score now l t <=? 1)%float = true.
Proof.
  unfold _calculate_correlation_score. apply FloatFacts.min_le_l.
  apply FloatFacts.number_of_literal. reflexivity.
Qed.

End ScoreFacts.

(** C3, as amended.  For every log event and threat record the score is the
    sum of the applicable terms (+0.4 source-IP match, +0.3 domain match,
    +0.3 URL-substring match, +0.5 file-hash match, +0.1 for an age of at
    most 7 whole days else +0.05 for at most 30, and the severity boost
    0.2 / 0.15 / 0.1 / 0.05 for critical / high / medium / low), clamped to
    1.0, where a threat without a severity field is boosted as low (+0.05)
    and a severity outside the four levels adds nothing. *)
Theorem correlation_score_is_clamped_sum :
  forall (now : Z) (l : LogEntry.t) (t : Threat.t),
    LogCorrelator._calculate_correlation_score now l t
    = ScoreTable.table_score now l t.
Proof.
  intros now l t. rewrite score_shape.
  unfold ScoreTable.table_score, ScoreTable.signals.
  apply score_of_is_sum, severity_term_values.
Qed.

(** C3, as claimed, fails on a threat that carries no severity: the code
    adds the boost of "low" where the claim adds nothing. *)
Lemma correlation_score_unspecified_severity :
  LogCorrelator._calculate_correlation_score 0 LogEntry.empty Threat.empty
  <> ScoreTable.claimed_score 0 LogEntry.empty Threat.empty.
Proof.
  intros H.
  assert (Hlt : (ScoreTable.claimed_score 0 LogEntry.empty Threat.empty
                 <? LogCorrelator._calculate_correlation_score 0
                      LogEntry.empty Threat.empty)%float = true)
    by reflexivity.
  rewrite H in Hlt. vm_compute in Hlt. discriminate Hlt.
Qed.

(** Recency and severity alone contribute at most 0.1 + 0.2. *)
Lemma score_without_indicator (now : Z) (l : LogEntry.t) (t : Threat.t) :
  ScoreTable.some_indicator l t = false ->
  (LogCorrelator._calculate_correlation_score now l t <=? 0.1 + 0.2)%float
  = true.
Proof.
  unfold ScoreTable.some_indicator. intros Hnone.
  apply orb_false_elim in Hnone. destruct Hnone as [Hnone Hhash].
  apply orb_false_elim in Hnone. destruct Hnone as [Hnone Hurl].
  apply orb_false_elim in Hnone. destruct Hnone as [Hip Hdom].
  rewrite score_shape, Hip, Hdom, Hurl, Hhash.
  apply score_of_without_indicator, severity_term_values.
Qed.

(** C10.  A score strictly above the 0.7 threshold needs an indicator:
    whenever [_calculate_correlation_score] exceeds 0.7, the source-IP,
    domain, URL-substring or file-hash condition holds. *)
Theorem qualifying_score_has_indicator :
  forall (now : Z) (l : LogEntry.t) (t : Threat.t),
    Py.gt (LogCorrelator._calculate_correlation_score now l t)
      LogCorrelator.correlation_threshold = true ->
    ScoreTable.some_indicator l t = true.
Proof.
  intros now l t Hgt.
  destruct (ScoreTable.some_indicator l t) eqn:Hnone; trivial.
  exfalso.
  pose proof (score_without_indicator now l t Hnone) as Hle.
  unfold Py.gt, LogCorrelator.correlation_threshold in Hgt.
  pose proof (FloatFacts.leb_ltb_trans _ _ _
                (FloatFacts.leb_trans _ _ 0.7%float Hle eq_refl) Hgt) as Hself.
  pose proof (FloatFacts.ltb_negb_leb _ _
                (FloatFacts.ltb_number_l _ _ Hself)
                (FloatFacts.ltb_number_l _ _ Hself)) as Hneg.
  rewrite Hself, (FloatFacts.leb_refl _ (FloatFacts.ltb_number_l _ _ Hself))
    in Hneg.
  discriminate Hneg.
Qed.

Lemma qualifying_score_has_indicator_witness :
  Py.gt (LogCorrelator._calculate_correlation_score 0 scenario_b_log
           (scenario_b_threat 0))
    LogCorrelator.correlation_threshold = true
  /\ ScoreTable.some_indicator scenario_b_log (scenario_b_threat 0) = true.
Proof.
  split.
  - reflexivity.
  - apply (qualifying_score_has_indicator 0 scenario_b_log (scenario_b_threat 0)).
    reflexivity.
Defined.

(** C8.  A log event whose URL contains a URL of the threat: the URL
    condition holds and adds its 0.3 to the score, yet
    [_get_matched_indicators] returns no descriptor for it. *)
Theorem url_match_has_no_descriptor :
  LogCorrelator.url_scores url_only_log url_only_threat = true
  /\ LogCorrelator._calculate_correlation_score 0 url_only_log url_only_threat
     = (0.3 + 0.15)%float
  /\ LogCorrelator._get_matched_indicators url_only_log url_only_threat
     = Py.Ok []
  /\ LogCorrelator._get_correlation_type url_only_log url_only_threat
     = Py.Ok "pattern_match".
Proof. repeat split; reflexivity. Qed.

(* ================================================================== *)
(** * Correlation of one log event *)
(* ================================================================== *)

Section CorrelateFacts.
Import Py LogCorrelator Candidates.

Variable now : Z.
Variable l : LogEntry.t.

Let score (t : Threat.t) : float := _calculate_correlation_score now l t.

Lemma matched_indicators_ok (t : Threat.t) :
  well_formed t = true -> exists inds, _get_matched_indicators l t = Ok inds.
Proof.
  unfold well_formed, _get_matched_indicators, ip_listed, domain_listed,
    hash_listed, in_container, append_descriptor.
  destruct (Threat.id t), (Threat.title t); try discriminate.
  destruct (Threat.ip_addresses t), (Threat.domains t), (Threat.file_hashes t);
    try discriminate; intros _; cbn;
    destruct (LogEntry.source_ip l), (LogEntry.domain l), (LogEntry.file_hash l);
    cbn;
    repeat match goal with
    | |- context [if ?b then _ else _] => destruct b; cbn
    end; eexists; reflexivity.
Qed.

Lemma correlation_type_ok (t : Threat.t) :
  well_formed t = true -> exists ty, _get_correlation_type l t = Ok ty.
Proof.
  unfold well_formed, _get_correlation_type, ip_listed, domain_listed,
    hash_listed, in_container.
  destruct (Threat.id t), (Threat.title t); try discriminate.
  destruct (Threat.ip_addresses t), (Threat.domains t), (Threat.file_hashes t);
    try discriminate; intros _; cbn;
    repeat match goal with
    | |- context [if ?b then _ else _] => destruct b; cbn
    end; eexists; reflexivity.
Qed.

Lemma correlation_of_ok (t : Threat.t) (s : float) :
  well_formed t = true ->
  exists c, correlation_of l t s = Ok c /\ Correlation.score c = s.
Proof.
  intros Hwf.
  destruct (matched_indicators_ok t Hwf) as [inds Hinds].
  destruct (correlation_type_ok t Hwf) as [ty Hty].
  unfold correlation_of. rewrite Hinds, Hty.
  unfold well_formed in Hwf.
  destruct (Threat.id t), (Threat.title t); try discriminate.
  cbn. eexists. split; reflexivity.
Qed.

(** What the loop of [correlate_log] leaves in [best_correlation] and
    [best_score]: either nothing beat the initial best score, or the pair
    is that of the first candidate whose score no other exceeds. *)
Lemma best_of_invariant (ts : list Threat.t) :
  forall (bc : option Correlation.t) (bs : float),
    forallb well_formed ts = true ->
    FloatOrder.number bs ->
    (best_of now l ts (bc, bs) = Ok (bc, bs)
     /\ Forall (fun t => gt (score t) bs = false) ts)
    \/ (exists before t after c,
          ts = (before ++ t :: after)%list
          /\ correlation_of l t (score t) = Ok c
          /\ Correlation.score c = score t
          /\ best_of now l ts (bc, bs) = Ok (Some c, score t)
          /\ gt (score t) bs = true
          /\ Forall (fun t' => (score t' <? score t)%float = true) before
          /\ Forall (fun t' => (score t' <=? score t)%float = true) after).
Proof.
  induction ts as [| t0 rest IH]; intros bc bs Hwf Hbs.
  - left. split; [reflexivity | constructor].
  - cbn in Hwf. apply andb_prop in Hwf. destruct Hwf as [Hwf0 Hwf].
    assert (Hs0 : FloatOrder.number (score t0)) by apply score_number.
    cbn [best_of]. unfold consider. fold (score t0). cbn [snd].
    destruct (gt (score t0) bs) eqn:Hgt.
    + destruct (correlation_of_ok t0 (score t0) Hwf0) as (c0 & Hc0 & Hsc0).
      fold score in Hc0. rewrite Hc0. cbn [and_then].
      right.
      destruct (IH (Some c0) (score t0) Hwf Hs0)
        as [[Hsame Hnone] | (before & t & after & c & Hts & Hc & Hsc & Hrun
                              & Hbeat & Hbefore & Hafter)].
      * exists [], t0, rest, c0. repeat split; trivial.
        eapply Forall_impl; [| exact Hnone].
        intros t' Ht'. cbn in Ht'. unfold gt in Ht'.
        rewrite FloatFacts.ltb_negb_leb in Ht'
          by (trivial; apply score_number).
        now destruct (score t' <=? score t0)%float.
      * exists (t0 :: before), t, after, c. repeat split; trivial.
        -- rewrite Hts. reflexivity.
        -- unfold gt in *.
           apply FloatFacts.ltb_leb_trans with (y := score t0); trivial.
           apply FloatFacts.ltb_leb, Hbeat.
        -- constructor; trivial.
    + cbn [and_then].
      destruct (IH bc bs Hwf Hbs)
        as [[Hsame Hnone] | (before & t & after & c & Hts & Hc & Hsc & Hrun
                              & Hbeat & Hbefore & Hafter)].
      * left. split; trivial. constructor; trivial.
      * right. exists (t0 :: before), t, after, c. repeat split; trivial.
        -- rewrite Hts. reflexivity.
        -- constructor; trivial.
           unfold gt in *.
           apply FloatFacts.leb_ltb_trans with (y := bs); trivial.
           rewrite FloatFacts.ltb_negb_leb in Hgt by trivial.
           now destruct (score t0 <=? bs)%float.
Qed.

End CorrelateFacts.

(** C1, as amended.  For a log event that the database returns with its
    candidate threats, [correlate_log] returns the entry of the single
    best-scoring candidate (the first one that no other outscores) as soon
    as that score exceeds 0, also when it does not exceed 0.7, and returns
    none exactly when no candidate scores above 0; the returned score is at
    most 1.0; the result is written back to the log event only when the
    score exceeds the threshold 0.7. *)
Theorem correlate_log_returns_best_candidate :
  forall (db : LogCorrelator.Database) (now log_entry_id : Z)
         (l : LogEntry.t) (ts : list Threat.t) (tr : Py.trace),
    LogCorrelator._get_log_entry db log_entry_id = Py.Ok (Some l) ->
    LogEntry.truthy l = true ->
    LogCorrelator._get_relevant_threats db l = Py.Ok ts ->
    forallb Candidates.well_formed ts = true ->
    exists res : option Correlation.t,
      LogCorrelator.correlate_log db now log_entry_id tr
      = (Py.Ok res, (tr ++ Candidates.persisted log_entry_id res)%list)
      /\ match res with
         | Some c => Candidates.first_best now l ts c
         | None =>
             Forall (fun t =>
                       Py.gt (LogCorrelator._calculate_correlation_score now l t)
                         0%float = false) ts
         end.
Proof.
  intros db now log_entry_id l ts tr Hlog Htruthy Hthreats Hwf.
  unfold LogCorrelator.correlate_log, Py.try_reraise, Py.bind, Py.lift.
  rewrite Hlog, Htruthy. cbn [negb]. rewrite Hthreats.
  assert (H0 : FloatOrder.number 0%float)
    by (apply FloatFacts.number_of_literal; reflexivity).
  destruct (best_of_invariant now l ts None 0%float Hwf H0)
    as [[Hsame Hnone] | (before & t & after & c & Hts & Hc & Hsc & Hrun
                          & Hbeat & Hbefore & Hafter)].
  - rewrite Hsame. cbn. exists None. cbn. rewrite app_nil_r. split; trivial.
  - rewrite Hrun. cbn [fst snd]. exists (Some c).
    unfold Candidates.persisted. rewrite Hsc.
    destruct (Py.gt (LogCorrelator._calculate_correlation_score now l t)
                LogCorrelator.correlation_threshold) eqn:Hgt.
    + cbn. unfold LogCorrelator._update_log_correlation, Py.emit. rewrite Hsc.
      split; [reflexivity |].
      exists before, t, after. rewrite Hsc.
      repeat split; trivial. apply score_at_most_one.
    + cbn. rewrite app_nil_r. split; [reflexivity |].
      exists before, t, after. rewrite Hsc.
      repeat split; trivial. apply score_at_most_one.
Qed.

Lemma correlate_log_returns_best_candidate_witness :
  exists res : option Correlation.t,
    LogCorrelator.correlate_log (LogCorrelator.stub_database 0) 0 1 []
    = (Py.Ok res, ([] ++ Candidates.persisted 1 res)%list)
    /\ match res with
       | Some c =>
           Candidates.first_best 0
             (LogEntry.mk (Some 1) (Some "203.0.113.42") None None None None
                (Some "Suspicious activity detected") (Some 0))
             [ Threat.mk (Some 1) (Some "Malicious IP Campaign")
                 (Py.Val ["203.0.113.42"; "198.51.100.15"])
                 (Py.Val ["evil-site.com"]) Py.Missing Py.Missing
                 (Py.Val "high") (Py.Val (0 - LogCorrelator.two_days)) ] c
       | None =>
           Forall (fun t =>
                     Py.gt (LogCorrelator._calculate_correlation_score 0
                              (LogEntry.mk (Some 1) (Some "203.0.113.42") None
                                 None None None
                                 (Some "Suspicious activity detected") (Some 0))
                              t) 0%float = false)
             [ Threat.mk (Some 1) (Some "Malicious IP Campaign")
                 (Py.Val ["203.0.113.42"; "198.51.100.15"])
                 (Py.Val ["evil-site.com"]) Py.Missing Py.Missing
                 (Py.Val "high") (Py.Val (0 - LogCorrelator.two_days)) ]
       end.
Proof.
  apply (correlate_log_returns_best_candidate
           (LogCorrelator.stub_database 0) 0 1); reflexivity.
Defined.

(** C1, as claimed, fails on the rows that the source ships: scenario A of
    the specification (IP match, high severity, two days old) scores 0.65,
    below the threshold, and [correlate_log] still returns the entry. *)
Lemma correlate_log_returns_below_threshold :
  exists c : Correlation.t,
    fst (LogCorrelator.correlate_log (LogCorrelator.stub_database 0) 0 1 [])
    = Py.Ok (Some c)
    /\ Correlation.score c = (0.4 + 0.1 + 0.15)%float
    /\ Py.gt (Correlation.score c) LogCorrelator.correlation_threshold = false.
Proof.
  eexists. split; [reflexivity |]. split; reflexivity.
Qed.

(* ================================================================== *)
(** * Batch correlation *)
(* ================================================================== *)

Section CorrelateTraceFacts.
Import Py LogCorrelator Indicators.

Lemma correlation_of_score (l : LogEntry.t) (t : Threat.t) (s : float)
  (c : Correlation.t) :
  correlation_of l t s = Ok c -> Correlation.score c = s.
Proof.
  unfold correlation_of.
  destruct (subscript "id" (Threat.id t)); cbn; [| discriminate].
  destruct (subscript "title" (Threat.title t)); cbn; [| discriminate].
  destruct (_get_matched_indicators l t); cbn; [| discriminate].
  destruct (_get_correlation_type l t); cbn; [| discriminate].
  intros H. inversion H. reflexivity.
Qed.

(** The best score is that of the best correlation, or 0 without one. *)
Lemma best_of_score (now : Z) (l : LogEntry.t) (ts : list Threat.t) :
  forall bc0 bs0 bc bs,
    best_of now l ts (bc0, bs0) = Ok (bc, bs) ->
    bs0 = score_to_beat bc0 -> bs = score_to_beat bc.
Proof.
  induction ts as [| t rest IH]; intros bc0 bs0 bc bs; cbn.
  - intros H. inversion H; subst. trivial.
  - unfold consider. cbn [snd].
    destruct (gt (_calculate_correlation_score now l t) bs0).
    + destruct (correlation_of l t (_calculate_correlation_score now l t))
        as [c |] eqn:Hc; cbn; [| discriminate].
      intros H _. apply (IH _ _ _ _ H). cbn.
      symmetry. apply (correlation_of_score _ _ _ _ Hc).
    + cbn. intros H E. apply (IH _ _ _ _ H E).
Qed.

(** What a returning [correlate_log] has done, for any database. *)
Lemma correlate_log_returns (db : Database) (now log_entry_id : Z)
  (tr tr' : trace) (res : option Correlation.t) :
  correlate_log db now log_entry_id tr = (Ok res, tr') ->
  tr' = (tr ++ Candidates.persisted log_entry_id res)%list
  /\ (entry_absent db log_entry_id = true /\ res = None
      \/ exists l ts,
           _get_log_entry db log_entry_id = Ok (Some l)
           /\ LogEntry.truthy l = true
           /\ _get_relevant_threats db l = Ok ts
           /\ best_of now l ts (None, 0%float)
              = Ok (res, score_to_beat res)).
Proof.
  unfold entry_absent, correlate_log, try_reraise, bind, lift, ret, emit,
    _update_log_correlation.
  destruct (_get_log_entry db log_entry_id) as [[l |] | e0] eqn:Hlog; cbn.
  - destruct (LogEntry.truthy l) eqn:Htruthy; cbn.
    + destruct (_get_relevant_threats db l) as [ts | e1] eqn:Hts; cbn;
        [| discriminate].
      destruct (best_of now l ts (None, 0%float)) as [[bc bs] | e2] eqn:Hbest;
        cbn; [| discriminate].
      pose proof (best_of_score now l ts _ _ _ _ Hbest eq_refl) as Hbs.
      subst bs.
      destruct bc as [c |]; cbn.
      * unfold Candidates.persisted, gt, correlation_threshold. cbn.
        destruct (_ <? Correlation.score c)%float eqn:Hgt; cbn;
          intros H; inversion H; subst; clear H; cbn; rewrite Hgt;
          (split; [now rewrite ?app_nil_r |]);
          right; exists l, ts; repeat split; trivial.
      * intros H; inversion H; subst; clear H. rewrite app_nil_r.
        split; trivial. right; exists l, ts; repeat split; trivial.
    + intros H; inversion H; subst; clear H. rewrite app_nil_r. auto.
  - intros H; inversion H; subst; clear H. rewrite app_nil_r. auto.
  - discriminate.
Qed.

(** What a raising [correlate_log] has done, for any database. *)
Lemma correlate_log_raises (db : Database) (now log_entry_id : Z)
  (tr tr' : trace) (e : exn) :
  correlate_log db now log_entry_id tr = (Raise e, tr') ->
  tr' = (tr ++ [Logged ERROR "Error correlating log"])%list.
Proof.
  unfold correlate_log, try_reraise, bind, lift, ret, emit,
    _update_log_correlation.
  destruct (_get_log_entry db log_entry_id) as [[l |] | e0]; cbn.
  - destruct (LogEntry.truthy l); cbn; [| discriminate].
    destruct (_get_relevant_threats db l) as [ts | e1]; cbn.
    + destruct (best_of now l ts (None, 0%float)) as [[bc bs] | e2]; cbn.
      * destruct bc; [destruct (_ <? bs)%float |]; cbn; discriminate.
      * intros H. now inversion H.
    + intros H. now inversion H.
  - discriminate.
  - intros H. now inversion H.
Qed.

End CorrelateTraceFacts.

Section BatchFacts.
Import Py LogCorrelator Batch.

Lemma uniform_ret {A} (a : A) : uniform (ret a).
Proof. exists (Ok a), []. intros tr. unfold ret. now rewrite app_nil_r. Qed.

Lemma uniform_lift {A} (r : result A) : uniform (lift r).
Proof. exists r, []. intros tr. unfold lift. now rewrite app_nil_r. Qed.

Lemma uniform_emit (ev : event) : uniform (emit ev).
Proof. exists (Ok tt), [ev]. reflexivity. Qed.

Lemma uniform_bind {A B} (m : M A) (k : A -> M B) :
  uniform m -> (forall a, uniform (k a)) -> uniform (bind m k).
Proof.
  intros (r & evs & Hm) Hk. unfold bind.
  destruct r as [a | e].
  - destruct (Hk a) as (r' & evs' & Hka).
    exists r', (evs ++ evs')%list. intros tr.
    now rewrite Hm, Hka, app_assoc.
  - exists (Raise e), evs. intros tr. now rewrite Hm.
Qed.

Lemma uniform_try {A} (body : M A) (handler : exn -> M unit) :
  uniform body -> (forall e, uniform (handler e)) ->
  uniform (try_reraise body handler).
Proof.
  intros (r & evs & Hb) Hh. unfold try_reraise.
  destruct r as [a | e].
  - exists (Ok a), evs. intros tr. now rewrite Hb.
  - destruct (Hh e) as (r' & evs' & He).
    exists (match r' with Ok _ => Raise e | Raise e' => Raise e' end),
      (evs ++ evs')%list.
    intros tr. rewrite Hb, He, app_assoc. now destruct r'.
Qed.

Lemma uniform_if {A} (b : bool) (m1 m2 : M A) :
  uniform m1 -> uniform m2 -> uniform (if b then m1 else m2).
Proof. now destruct b. Qed.

Lemma uniform_correlate_log (db : Database) (now log_entry_id : Z) :
  uniform (correlate_log db now log_entry_id).
Proof.
  unfold correlate_log.
  apply uniform_try; [| intros; apply uniform_emit].
  apply uniform_bind; [apply uniform_lift |].
  intros [le |]; [| apply uniform_ret].
  apply uniform_if; [apply uniform_ret |].
  apply uniform_bind; [apply uniform_lift |]. intros ts.
  apply uniform_bind; [apply uniform_lift |]. intros best.
  destruct (fst best); [| apply uniform_ret].
  apply uniform_bind; [| intros; apply uniform_ret].
  apply uniform_if; [apply uniform_emit | apply uniform_ret].
Qed.

(** One turn of the batch loop, in terms of the event's outcome. *)
Lemma process_one_run (db : Database) (now : Z) (counts : nat * nat)
  (log_entry : LogEntry.t) (tr : trace) :
  process_one db now counts log_entry tr
  = (match outcome db now log_entry with
     | Ok _ =>
         Ok ((if above 0.7%float db now log_entry then S (fst counts)
              else fst counts),
             (if above 0.8%float db now log_entry then S (snd counts)
              else snd counts))
     | Raise e => Raise e
     end, (tr ++ effects db now log_entry)%list).
Proof.
  unfold process_one, effects, above, outcome, bind, lift.
  destruct (LogEntry.id log_entry) as [log_id |] eqn:Hid; cbn;
    [| now rewrite app_nil_r].
  destruct (uniform_correlate_log db now log_id) as (r & evs & Hrun).
  pose proof (Hrun []) as Hnil. cbn [app] in Hnil.
  rewrite (Hrun tr), Hnil. cbn [fst].
  destruct counts as [found alerts].
  destruct r as [[c |] | e].
  - destruct (correlate_log_returns _ _ _ _ _ _ Hnil) as [-> _].
    unfold Candidates.persisted, correlation_threshold, gt. cbn.
    destruct (0.7 <? Correlation.score c)%float eqn:H7; cbn;
      [| now rewrite app_nil_r].
    destruct (0.8 <? Correlation.score c)%float eqn:H8; cbn;
      [| reflexivity].
    unfold _generate_alert, bind, lift, emit, ret. rewrite Hid. cbn.
    now rewrite <- app_assoc.
  - destruct (correlate_log_returns _ _ _ _ _ _ Hnil) as [-> _].
    cbn. now rewrite app_nil_r.
  - rewrite (correlate_log_raises _ _ _ _ _ _ Hnil). reflexivity.
Qed.

Lemma effects_of_failure (db : Database) (now : Z) (log_entry : LogEntry.t)
  (e : exn) :
  outcome db now log_entry = Raise e ->
  effects db now log_entry = failure_record log_entry.
Proof.
  unfold effects, failure_record. intros ->.
  now destruct (LogEntry.id log_entry).
Qed.

Lemma process_loop_completes (db : Database) (now : Z)
  (pending : list LogEntry.t) :
  forallb (succeeds db now) pending = true ->
  forall (counts : nat * nat) (tr : trace),
    process_loop db now pending counts tr
    = (Ok ((fst counts + count (above 0.7%float db now) pending)%nat,
           (snd counts + count (above 0.8%float db now) pending)%nat),
       (tr ++ flat_map (effects db now) pending)%list).
Proof.
  induction pending as [| le rest IH]; intros Hok counts tr.
  - cbn. unfold ret, count. cbn.
    rewrite !Nat.add_0_r, app_nil_r. now destruct counts.
  - cbn in Hok. apply andb_prop in Hok. destruct Hok as [Hle Hrest].
    cbn [process_loop flat_map]. unfold bind.
    rewrite process_one_run. unfold succeeds in Hle.
    destruct (outcome db now le) as [r |] eqn:Hout; [| discriminate].
    rewrite (IH Hrest). rewrite <- app_assoc.
    f_equal. f_equal. unfold count. cbn [filter fst snd].
    destruct (above 0.7%float db now le), (above 0.8%float db now le);
      cbn [List.length]; f_equal; lia.
Qed.

Lemma process_loop_aborts (db : Database) (now : Z)
  (before : list LogEntry.t) (failing : LogEntry.t) (after : list LogEntry.t)
  (e : exn) :
  forallb (succeeds db now) before = true ->
  outcome db now failing = Raise e ->
  forall (counts : nat * nat) (tr : trace),
    process_loop db now (before ++ failing :: after) counts tr
    = (Raise e,
       (tr ++ flat_map (effects db now) before ++ failure_record failing)%list).
Proof.
  induction before as [| le rest IH]; intros Hok Hfail counts tr.
  - cbn [app process_loop flat_map]. unfold bind.
    rewrite process_one_run, Hfail.
    now rewrite (effects_of_failure _ _ _ _ Hfail).
  - cbn in Hok. apply andb_prop in Hok. destruct Hok as [Hle Hrest].
    cbn [app process_loop flat_map]. unfold bind.
    rewrite process_one_run. unfold succeeds in Hle.
    destruct (outcome db now le) as [r |] eqn:Hout; [| discriminate].
    rewrite (IH Hrest Hfail). now rewrite <- !app_assoc.
Qed.

End BatchFacts.

(** C2, as amended.  In batch mode an exception raised while correlating a
    single event aborts the batch: [process_pending_logs] logs it and
    re-raises it to the caller and no batch result is produced; the trace
    holds what the events before the failing one have written back and
    alerted, the record of the failure and the error record of the batch,
    and nothing of the events after the failing one, which are not
    processed.  When no event's correlation raises, the result reports
    [logs_processed] equal to the number of pending events, together with
    the number of correlations above 0.7 and of alerts above 0.8, and the
    trace holds the effects of every event and the record of completion. *)
Theorem batch_aborts_on_first_failure :
  forall (db : LogCorrelator.Database) (now : Z)
         (pending : list LogEntry.t) (tr : Py.trace),
    LogCorrelator._get_pending_logs db = Py.Ok pending ->
    (forall before failing after e,
        pending = (before ++ failing :: after)%list ->
        forallb (Batch.succeeds db now) before = true ->
        Batch.outcome db now failing = Py.Raise e ->
        LogCorrelator.process_pending_logs db now tr
        = (Py.Raise e,
           (tr ++ flat_map (Batch.effects db now) before
               ++ Batch.failure_record failing
               ++ [Py.Logged Py.ERROR "Error in log correlation"])%list))
    /\ (forallb (Batch.succeeds db now) pending = true ->
        LogCorrelator.process_pending_logs db now tr
        = (Py.Ok (BatchResult.mk "completed" (List.length pending)
                    (Batch.count (Batch.above 0.7%float db now) pending)
                    (Batch.count (Batch.above 0.8%float db now) pending)),
           (tr ++ flat_map (Batch.effects db now) pending
               ++ [Py.Logged Py.INFO "Log correlation completed"])%list)).
Proof.
  intros db now pending tr Hpending.
  unfold LogCorrelator.process_pending_logs, Py.try_reraise, Py.bind, Py.lift.
  rewrite Hpending. split.
  - intros before failing after e Hsplit Hok Hfail.
    rewrite Hsplit, (process_loop_aborts db now before failing after e Hok Hfail).
    unfold Py.emit. now rewrite <- !app_assoc.
  - intros Hok.
    rewrite (process_loop_completes db now pending Hok).
    unfold Py.emit, Py.ret. cbn [fst snd]. now rewrite <- !app_assoc.
Qed.

Lemma batch_aborts_on_first_failure_witness :
  LogCorrelator.process_pending_logs (LogCorrelator.stub_database 0) 0 []
  = (Py.Ok (BatchResult.mk "completed" 2 0 0),
     [ Py.Logged Py.INFO "Log correlation completed" ])
  /\ LogCorrelator.process_pending_logs (flaky_database 0) 0 []
     = (Py.Raise (Py.RuntimeError "lookup failed"),
        [ Py.Logged Py.ERROR "Error correlating log";
          Py.Logged Py.ERROR "Error in log correlation" ]).
Proof.
  split.
  - apply (proj2 (batch_aborts_on_first_failure
                    (LogCorrelator.stub_database 0) 0 _ [] eq_refl)).
    reflexivity.
  - apply (proj1 (batch_aborts_on_first_failure
                    (flaky_database 0) 0 _ [] eq_refl) []
             (LogEntry.mk (Some 1) (Some "203.0.113.42")
                (Some "192.168.1.100") None None None
                (Some "Suspicious connection attempt") (Some 0))
             [ LogEntry.mk (Some 2) (Some "198.51.100.15") None
                 (Some "malicious-site.com") None None
                 (Some "DNS query to suspicious domain") (Some 0) ]
             (Py.RuntimeError "lookup failed")); reflexivity.
Defined.

(** C2, as claimed, fails: with two pending events and a lookup that
    raises for the first, the batch produces no result at all (so no
    [logs_processed: 2]), and the second event is never correlated. *)
Lemma batch_does_not_isolate_failures :
  Batch.outcome (flaky_database 0) 0
    (LogEntry.mk (Some 2) (Some "198.51.100.15") None
       (Some "malicious-site.com") None None
       (Some "DNS query to suspicious domain") (Some 0))
  <> Py.Raise (Py.RuntimeError "lookup failed")
  /\ LogCorrelator.process_pending_logs (flaky_database 0) 0 []
     = (Py.Raise (Py.RuntimeError "lookup failed"),
        [ Py.Logged Py.ERROR "Error correlating log";
          Py.Logged Py.ERROR "Error in log correlation" ]).
Proof.
  split.
  - intros H. vm_compute in H. discriminate H.
  - reflexivity.
Qed.

(* ================================================================== *)
(** * True division of integers *)
(* ================================================================== *)

(** [a / b] rounds the exact quotient; what the confidence formula needs
    of it is that the quotient of [a >= b > 0] does not round below 1.0. *)
Module TrueDiv.

Abbreviation digits p := (Z.pos (digits2_pos p)).

Lemma digits_bounds (p : positive) :
  2 ^ (digits p - 1) <= Z.pos p < 2 ^ digits p.
Proof.
  induction p as [p IH | p IH |]; cbn [digits2_pos].
  - rewrite Pos2Z.inj_succ.
    replace (Z.succ (digits p) - 1) with (Z.succ (digits p - 1)) by lia.
    rewrite !Z.pow_succ_r by lia. lia.
  - rewrite Pos2Z.inj_succ.
    replace (Z.succ (digits p) - 1) with (Z.succ (digits p - 1)) by lia.
    rewrite !Z.pow_succ_r by lia. lia.
  - cbn. lia.
Qed.

(** A positive number that reaches [2 ^ (k - 1)] has at least [k] digits. *)
Lemma digits_at_least (p : positive) (k : Z) :
  2 ^ (k - 1) <= Z.pos p -> k <= digits p.
Proof.
  intros H. destruct (Z.le_gt_cases k (digits p)) as [| Hlt]; trivial.
  pose proof (digits_bounds p) as [_ Hup].
  assert (2 ^ digits p <= 2 ^ (k - 1)) by (apply Z.pow_le_mono_r; lia).
  lia.
Qed.

Lemma digits_at_most (p : positive) (k : Z) :
  0 <= k -> Z.pos p < 2 ^ k -> digits p <= k.
Proof.
  intros Hk H. destruct (Z.le_gt_cases (digits p) k) as [| Hlt]; trivial.
  pose proof (digits_bounds p) as [Hlo _].
  assert (2 ^ k <= 2 ^ (digits p - 1)) by (apply Z.pow_le_mono_r; lia).
  lia.
Qed.

Lemma shr_1_digits (s : shr_record) :
  0 <= shr_m s ->
  0 <= shr_m (shr_1 s)
  /\ Zdigits2 (shr_m (shr_1 s)) = Z.max 0 (Zdigits2 (shr_m s) - 1).
Proof.
  destruct s as [m r st]. cbn [shr_m]. intros Hm.
  destruct m as [| p | p]; [cbn; lia | | lia].
  destruct p; cbn [shr_1 shr_m Zdigits2 digits2_pos]; lia.
Qed.

Lemma iter_shr_digits (n : positive) :
  forall s : shr_record,
    0 <= shr_m s ->
    0 <= shr_m (iter_pos shr_1 n s)
    /\ Zdigits2 (shr_m (iter_pos shr_1 n s))
       = Z.max 0 (Zdigits2 (shr_m s) - Z.pos n).
Proof.
  induction n as [n IH | n IH |]; intros s Hs; cbn [iter_pos].
  - destruct (shr_1_digits s Hs) as [H1 E1].
    destruct (IH _ H1) as [H2 E2]. destruct (IH _ H2) as [H3 E3].
    split; trivial. rewrite E3, E2, E1. lia.
  - destruct (IH _ Hs) as [H2 E2]. destruct (IH _ H2) as [H3 E3].
    split; trivial. rewrite E3, E2. lia.
  - apply shr_1_digits, Hs.
Qed.

Lemma shr_m_of_loc (m : Z) (l : location) : shr_m (shr_record_of_loc m l) = m.
Proof. destruct l as [| []]; reflexivity. Qed.

Lemma Zdigits2_pos (m : Z) : 0 <= m -> 0 < Zdigits2 m -> 0 < m.
Proof. destruct m; cbn; lia. Qed.

(** Shifting a mantissa of at least 53 digits into the format leaves
    exactly 53 digits and raises the exponent by the digits dropped. *)
Lemma shr_fexp_normal (m e : Z) (l : location) (mrs : shr_record) (e1 : Z) :
  0 < m -> 53 <= Zdigits2 m -> -1021 <= e ->
  shr_fexp 53 1024 m e l = (mrs, e1) ->
  0 < shr_m mrs /\ Zdigits2 (shr_m mrs) = 53 /\ e1 = e + Zdigits2 m - 53.
Proof.
  intros Hm Hd He. unfold shr_fexp, fexp, SpecFloat.emin, shr.
  rewrite Z.max_l by lia.
  replace (Zdigits2 m + e - 53 - e) with (Zdigits2 m - 53) by lia.
  destruct (Zdigits2 m - 53) as [| n | n] eqn:Hn; intros H; inversion H; subst.
  - rewrite shr_m_of_loc. repeat split; trivial; lia.
  - destruct (iter_shr_digits n (shr_record_of_loc m l)) as [Hpos Hdig].
    { rewrite shr_m_of_loc. lia. }
    rewrite shr_m_of_loc in Hdig.
    assert (Hd53 : Zdigits2 (shr_m (iter_pos shr_1 n (shr_record_of_loc m l))) = 53)
      by lia.
    repeat split; trivial; try lia.
    apply Zdigits2_pos; trivial. lia.
  - lia.
Qed.

Lemma round_nearest_even_cases (m : Z) (l : location) :
  round_nearest_even m l = m \/ round_nearest_even m l = m + 1.
Proof.
  destruct l as [| []]; cbn; auto. destruct (Z.even m); auto.
Qed.

Lemma round_aux_normal (mq e : Z) (l : location) :
  0 < mq -> 53 <= Zdigits2 mq -> -1021 <= e ->
  binary_round_aux 53 1024 false mq e l = S754_infinity false
  \/ exists m3 e3,
       binary_round_aux 53 1024 false mq e l = S754_finite false m3 e3
       /\ digits m3 = 53 /\ e + Zdigits2 mq - 53 <= e3 /\ e3 <= 971.
Proof.
  intros Hm Hd He. unfold binary_round_aux.
  destruct (shr_fexp 53 1024 mq e l) as [mrs1 e1] eqn:E1.
  destruct (shr_fexp_normal _ _ _ _ _ Hm Hd He E1) as (H1pos & H1dig & He1).
  set (m2 := round_nearest_even (shr_m mrs1) (loc_of_shr_record mrs1)).
  assert (H2 : 0 < m2 /\ 53 <= Zdigits2 m2).
  { destruct (round_nearest_even_cases (shr_m mrs1) (loc_of_shr_record mrs1))
      as [E | E]; fold m2 in E; rewrite E.
    - lia.
    - split; [lia |].
      destruct (shr_m mrs1) as [| p | p] eqn:Hp; try lia.
      cbn [Zdigits2] in H1dig.
      replace (Z.pos p + 1) with (Z.pos (p + 1)) by lia. cbn [Zdigits2].
      apply digits_at_least.
      pose proof (digits_bounds p) as [Hlo _]. rewrite H1dig in Hlo. lia. }
  destruct H2 as [H2pos H2dig].
  destruct (shr_fexp 53 1024 m2 e1 loc_Exact) as [mrs2 e2] eqn:E2.
  assert (He1' : -1021 <= e1) by lia.
  destruct (shr_fexp_normal _ _ _ _ _ H2pos H2dig He1' E2)
    as (H3pos & H3dig & He2).
  destruct (shr_m mrs2) as [| m3 | m3] eqn:Hm3; try lia.
  destruct (e2 <=? 1024 - 53) eqn:Hfit.
  - right. exists m3, e2. apply Z.leb_le in Hfit.
    cbn [Zdigits2] in H3dig. repeat split; trivial; lia.
  - left. reflexivity.
Qed.

Lemma Prim2SF_one : Prim2SF 1 = S754_finite false 4503599627370496 (-52).
Proof. reflexivity. Qed.

(** The scaled quotient that the division rounds: at least 53 digits, and
    at least [- e + 1] digits when the dividend reaches the divisor. *)
Lemma scaled_quotient_digits (p q : positive) (e : Z) :
  (q <= p)%positive -> digits q <= 64 ->
  e = Z.min (digits p - digits q - 53) 0 ->
  exists pq : positive,
    Z.pos p * 2 ^ (- e) / Z.pos q = Z.pos pq
    /\ 53 <= digits pq /\ - e + 1 <= digits pq.
Proof.
  intros Hqp Hq64 He.
  pose proof (digits_bounds p) as [Hplo Hpup].
  pose proof (digits_bounds q) as [Hqlo Hqup].
  assert (Hd12 : digits q <= digits p) by (apply digits_at_least; lia).
  set (d1 := digits p) in *. set (d2 := digits q) in *.
  assert (Hpow : 0 < 2 ^ (- e)) by (apply Z.pow_pos_nonneg; lia).
  assert (Hge : 2 ^ (- e) <= Z.pos p * 2 ^ (- e) / Z.pos q).
  { apply Z.div_le_lower_bound; [lia |]. nia. }
  assert (Hbig : 2 ^ 52 <= Z.pos p * 2 ^ (- e) / Z.pos q).
  { apply Z.div_le_lower_bound; [lia |].
    destruct (Z.le_gt_cases (d1 - d2 - 53) 0) as [Hcase | Hcase].
    - rewrite He, Z.min_l by lia.
      replace (- (d1 - d2 - 53)) with (52 + d2 - (d1 - 1)) by lia.
      assert (2 ^ (d1 - 1) * 2 ^ (52 + d2 - (d1 - 1)) = 2 ^ 52 * 2 ^ d2).
      { rewrite <- !Z.pow_add_r by lia. f_equal. lia. }
      assert (0 < 2 ^ (52 + d2 - (d1 - 1))) by (apply Z.pow_pos_nonneg; lia).
      nia.
    - rewrite He, Z.min_r by lia. cbn [Z.opp]. rewrite Z.pow_0_r, Z.mul_1_r.
      assert (2 ^ (53 + d2) <= 2 ^ (d1 - 1)) by (apply Z.pow_le_mono_r; lia).
      rewrite Z.pow_add_r in * by lia. nia. }
  destruct (Z.pos p * 2 ^ (- e) / Z.pos q) as [| pq | pq] eqn:Hq; try lia.
  exists pq. split; [reflexivity |]. split.
  - apply digits_at_least. exact Hbig.
  - apply digits_at_least. replace (- e + 1 - 1) with (- e) by lia. exact Hge.
Qed.

Lemma div_core_integers (p q : positive) :
  digits q <= 64 -> digits q <= digits p ->
  let e := Z.min (digits p - digits q - 53) 0 in
  SFdiv_core_binary 53 1024 (Z.pos p) 0 (Z.pos q) 0
  = (Z.pos p * 2 ^ (- e) / Z.pos q, e,
     new_location (Z.pos q) (Z.pos p * 2 ^ (- e) mod Z.pos q)).
Proof.
  intros Hq64 Hd12 e. unfold SFdiv_core_binary. cbn [Zdigits2].
  rewrite !Z.add_0_r, Z.sub_0_r.
  assert (He : Z.min (fexp 53 1024 (digits p - digits q)) 0 = e).
  { unfold e, fexp, SpecFloat.emin. rewrite Z.max_l by lia. reflexivity. }
  rewrite He.
  assert (Hm : match 0 - e with
               | 0 => Z.pos p
               | Z.pos _ => Z.shiftl (Z.pos p) (0 - e)
               | Z.neg _ => 0
               end = Z.pos p * 2 ^ (- e)).
  { replace (0 - e) with (- e) by lia.
    assert (0 <= - e) by (unfold e; lia).
    destruct (- e) as [| s | s] eqn:Hs; try lia.
    rewrite Z.shiftl_mul_pow2 by lia. reflexivity. }
  rewrite Hm. unfold Z.div, Z.modulo.
  destruct (Z.div_eucl (Z.pos p * 2 ^ (- e)) (Z.pos q)). reflexivity.
Qed.

Lemma finite_not_below_one (m : positive) (e : Z) :
  digits m = 53 -> -52 <= e ->
  SFltb (S754_finite false m e) (S754_finite false 4503599627370496 (-52))
  = false.
Proof.
  intros Hd He. pose proof (digits_bounds m) as [Hm _]. rewrite Hd in Hm.
  change (2 ^ (53 - 1)) with (Z.pos 4503599627370496) in Hm.
  revert Hm. generalize 4503599627370496%positive. intros one Hm.
  unfold SFltb, SFcompare.
  destruct (Z.compare_spec e (-52)) as [E | E | E]; trivial; try lia.
  change (PosDef.Pos.compare_cont Eq m one) with (Pos.compare m one).
  destruct (Pos.compare_spec m one); trivial. lia.
Qed.

Lemma finite_valid (m : positive) (e : Z) :
  digits m = 53 -> -1021 <= e -> e <= 971 ->
  SpecFloat.valid_binary 53 1024 (S754_finite false m e) = true.
Proof.
  intros Hd Hlo Hhi.
  unfold SpecFloat.valid_binary, bounded, canonical_mantissa, fexp,
    SpecFloat.emin.
  rewrite Hd. apply andb_true_intro. split.
  - apply Z.eqb_eq. lia.
  - apply Z.leb_le. lia.
Qed.

(** The quotient of two positive integers, the dividend not below the
    divisor, rounds to a valid binary64 value that is not below 1. *)
Lemma SFdiv_at_least_one (p q : positive) :
  (q <= p)%positive -> digits q <= 64 ->
  let x := SFdiv 53 1024 (S754_finite false p 0) (S754_finite false q 0) in
  SpecFloat.valid_binary 53 1024 x = true
  /\ SFltb x (S754_finite false 4503599627370496 (-52)) = false.
Proof.
  intros Hqp Hq64 x.
  assert (Hd12 : digits q <= digits p).
  { apply digits_at_least. pose proof (digits_bounds q). lia. }
  destruct (scaled_quotient_digits p q _ Hqp Hq64 eq_refl)
    as (pq & Hpq & Hd53 & Hde).
  unfold x, SFdiv. rewrite (div_core_integers p q Hq64 Hd12). cbn zeta.
  rewrite Hpq. cbn [xorb].
  set (e := Z.min (digits p - digits q - 53) 0) in *.
  destruct (round_aux_normal (Z.pos pq) e
              (new_location (Z.pos q) (Z.pos p * 2 ^ (- e) mod Z.pos q)))
    as [Hinf | (m3 & e3 & Hfin & Hd3 & Hlo3 & Hhi3)];
    try (cbn [Zdigits2]; lia).
  - rewrite Hinf. split; reflexivity.
  - rewrite Hfin. cbn [Zdigits2] in Hlo3. split.
    + apply finite_valid; trivial. lia.
    + apply finite_not_below_one; trivial. lia.
Qed.

Lemma truediv_at_least_one (p q : positive) :
  (q <= p)%positive -> digits q <= 64 ->
  (Py.truediv (N.pos p) (N.pos q) <? 1)%float = false.
Proof.
  intros Hqp Hq64. unfold Py.truediv.
  destruct (SFdiv_at_least_one p q Hqp Hq64) as [Hvalid Hnot].
  rewrite ltb_spec, Prim2SF_SF2Prim, Prim2SF_one.
  - exact Hnot.
  - exact Hvalid.
Qed.

(** [min(1.0, a / b)] is 1.0 as soon as [a] reaches [b]. *)
Lemma min_truediv_saturates (a b : N) :
  (0 < b)%N -> (b <= a)%N -> (b < 2 ^ 64)%N ->
  Py.min 1%float (Py.truediv a b) = 1%float.
Proof.
  intros Hb Hab Hsmall.
  destruct b as [| q]; [lia |]. destruct a as [| p]; [lia |].
  unfold Py.min. rewrite truediv_at_least_one; trivial.
  apply digits_at_most; lia.
Qed.

End TrueDiv.

(* ================================================================== *)
(** * Indicator and entity extraction *)
(* ================================================================== *)

(** C5.  The filter drops every address that starts with "172.", not only
    those of 172.16.0.0/12: 172.32.0.1 lies in none of the four private or
    reserved ranges and is discarded all the same, next to 192.168.1.1,
    while 203.0.113.42 passes. *)
Theorem public_172_address_is_discarded :
  IPv4.private_or_reserved 172 32 0 1 = false
  /\ EntityExtractor._filter_false_positives "ip"
       [ IPv4.dotted 192 168 1 1; IPv4.dotted 172 32 0 1;
         IPv4.dotted 203 0 113 42 ]
     = [ "203.0.113.42" ]
  /\ forall b c d : N,
       EntityExtractor._filter_false_positives "ip" [ IPv4.dotted 172 b c d ]
       = [].
Proof.
  split; [reflexivity |]. split; [reflexivity |].
  intros b c d. unfold IPv4.dotted.
  change (IPv4.octet 172) with "172".
  cbn [append].
  generalize (IPv4.octet b ++ String "." (IPv4.octet c ++ String "." (IPv4.octet d))).
  intros rest. destruct rest; reflexivity.
Qed.

Section DictFacts.
Import Py Confidence.

Context {A : Type}.

Lemma str_in_In (k : string) (ks : list string) :
  str_in k ks = true <-> In k ks.
Proof.
  unfold str_in. rewrite existsb_exists. split.
  - intros (k' & Hin & Heq). apply String.eqb_eq in Heq. now subst.
  - intros Hin. exists k. split; trivial. apply String.eqb_refl.
Qed.

Lemma apart_spec (a b : list string) :
  apart a b = true -> forall k, In k b -> ~ In k a.
Proof.
  unfold apart. rewrite forallb_forall. intros H k Hb Ha.
  specialize (H k Hb). apply str_in_In in Ha. rewrite Ha in H. discriminate.
Qed.

Lemma dict_set_fresh (d : list (string * A)) (k : string) (v : A) :
  ~ In k (keys d) -> dict_set d k v = (d ++ [(k, v)])%list.
Proof.
  unfold keys. induction d as [| [k' v'] rest IH]; cbn; intros Hk; trivial.
  destruct (String.eqb_spec k k') as [-> | Hne].
  - exfalso. apply Hk. now left.
  - rewrite IH; trivial. intros Hin. apply Hk. now right.
Qed.

Lemma dict_set_keys (d : list (string * A)) (k : string) (v : A) :
  keys (dict_set d k v) = keys d
  \/ keys (dict_set d k v) = (keys d ++ [k])%list /\ ~ In k (keys d).
Proof.
  unfold keys. induction d as [| [k' v'] rest IH]; cbn.
  - right. split; [reflexivity | tauto].
  - destruct (String.eqb_spec k k') as [-> | Hne]; cbn.
    + now left.
    + destruct IH as [IH | [IH Hk]].
      * left. now rewrite IH.
      * right. rewrite IH. split; trivial. intros [E | Hin]; auto.
Qed.

Lemma dict_merge_apart (b : list (string * A)) :
  forall a : list (string * A),
    NoDup (keys b) -> (forall k, In k (keys b) -> ~ In k (keys a)) ->
    dict_merge a b = (a ++ b)%list.
Proof.
  unfold dict_merge.
  induction b as [| [k v] rest IH]; intros a Hnd Hapart; cbn.
  - now rewrite app_nil_r.
  - cbn in Hnd. inversion Hnd as [| ? ? Hk Hrest]; subst.
    rewrite dict_set_fresh by (apply Hapart; now left).
    rewrite IH; trivial.
    + now rewrite <- app_assoc.
    + intros k' Hin. unfold keys. rewrite map_app, in_app_iff. cbn.
      intros [Ha | [E | []]].
      * apply (Hapart k'); trivial. now right.
      * subst. contradiction.
Qed.

(** A loop that only ever assigns keys drawn from [f e] keeps the keys
    distinct and within the initial ones and those drawn. *)
Lemma fold_assign_keys {E : Type} (f : E -> string)
  (step : list (string * A) -> E -> list (string * A)) :
  (forall d e, step d e = d \/ exists v, step d e = dict_set d (f e) v) ->
  forall (es : list E) (init : list (string * A)),
    NoDup (keys init) ->
    NoDup (keys (fold_left step es init))
    /\ forall k, In k (keys (fold_left step es init)) ->
                 In k (keys init) \/ In k (map f es).
Proof.
  intros Hstep. induction es as [| e rest IH]; intros init Hnd; cbn.
  - split; auto.
  - assert (Hnd' : NoDup (keys (step init e))
                   /\ forall k, In k (keys (step init e)) ->
                                In k (keys init) \/ k = f e).
    { destruct (Hstep init e) as [-> | [v ->]]; [split; auto |].
      destruct (dict_set_keys init (f e) v) as [-> | [-> Hfresh]].
      - split; auto.
      - split.
        + apply NoDup_app; [trivial | repeat constructor; intros [] |].
          intros k Hin [<- | []]. contradiction.
        + intros k Hin. apply in_app_iff in Hin.
          destruct Hin as [| [<- | []]]; auto. }
    destruct Hnd' as [Hnd' Hkeys'].
    destruct (IH (step init e) Hnd') as [Hnd'' Hkeys''].
    split; trivial.
    intros k Hin. destruct (Hkeys'' k Hin) as [H | H]; auto.
    destruct (Hkeys' k H); auto.
Qed.

End DictFacts.

Section SumFacts.
Import Py.

Lemma sum_len_acc {K A} (d : list (K * list A)) (acc : N) :
  fold_left (fun acc kv => (acc + N.of_nat (List.length (snd kv)))%N) d acc
  = (acc + sum_len d)%N.
Proof.
  unfold sum_len. revert acc.
  induction d as [| kv rest IH]; intros acc; cbn.
  - lia.
  - rewrite IH, (IH (N.of_nat _)). lia.
Qed.

Lemma sum_len_app {K A} (a b : list (K * list A)) :
  sum_len (a ++ b) = (sum_len a + sum_len b)%N.
Proof.
  unfold sum_len at 1. rewrite fold_left_app.
  fold (sum_len a). apply sum_len_acc.
Qed.

End SumFacts.

Section ConfidenceFacts.
Import Py Confidence EntityExtractor.

(** Beyond the divisor the count no longer matters. *)
Lemma min_truediv_capped (n b : N) :
  (0 < b)%N -> (b < 2 ^ 64)%N ->
  Py.min 1%float (truediv n b) = Py.min 1%float (truediv (N.min n b) b).
Proof.
  intros Hb Hsmall. destruct (N.lt_ge_cases n b) as [Hlt | Hge].
  - now rewrite N.min_l by lia.
  - rewrite N.min_r by lia.
    rewrite !TrueDiv.min_truediv_saturates; trivial; lia.
Qed.

(** The formula on counts that are already capped. *)
Lemma capped_confidence (i e p : N) :
  (i <= 5)%N -> (e <= 5)%N -> (p <= 3)%N ->
  let coded :=
    if (i + e + p =? 0)%N then 0%float
    else (Py.min 1 (truediv i 5) * 0.4 + Py.min 1 (truediv e 5) * 0.3
          + Py.min 1 (truediv p 3) * 0.3)%float in
  coded = claimed_confidence i e p
  /\ (0 <=? coded)%float = true /\ (coded <=? 1)%float = true
  /\ ((i + e + p = 0)%N -> coded = 0%float).
Proof.
  intros Hi He Hp.
  assert (Ei : (i = 0 \/ i = 1 \/ i = 2 \/ i = 3 \/ i = 4 \/ i = 5)%N)
    by lia.
  assert (Ee : (e = 0 \/ e = 1 \/ e = 2 \/ e = 3 \/ e = 4 \/ e = 5)%N)
    by lia.
  assert (Ep : (p = 0 \/ p = 1 \/ p = 2 \/ p = 3)%N) by lia.
  destruct Ei as [-> | [-> | [-> | [-> | [-> | ->]]]]];
  destruct Ee as [-> | [-> | [-> | [-> | [-> | ->]]]]];
  destruct Ep as [-> | [-> | [-> | ->]]];
  (split; [reflexivity |]); (split; [reflexivity |]);
  (split; [reflexivity |]); intros H; try reflexivity; discriminate H.
Qed.

(** The same on arbitrary counts. *)
Lemma counted_confidence (i e p : N) :
  let coded :=
    if (i + e + p =? 0)%N then 0%float
    else (Py.min 1 (truediv i 5) * 0.4 + Py.min 1 (truediv e 5) * 0.3
          + Py.min 1 (truediv p 3) * 0.3)%float in
  coded = claimed_confidence i e p
  /\ (0 <=? coded)%float = true /\ (coded <=? 1)%float = true
  /\ ((i + e + p = 0)%N -> coded = 0%float).
Proof.
  cbn zeta. unfold claimed_confidence.
  rewrite (min_truediv_capped i 5), (min_truediv_capped e 5),
    (min_truediv_capped p 3) by (cbn; lia).
  assert (Hzero : (i + e + p =? 0)%N
                  = (N.min i 5 + N.min e 5 + N.min p 3 =? 0)%N).
  { destruct (N.eqb_spec (i + e + p) 0), (N.eqb_spec
      (N.min i 5 + N.min e 5 + N.min p 3) 0); trivial; lia. }
  rewrite Hzero.
  destruct (capped_confidence (N.min i 5) (N.min e 5) (N.min p 3))
    as (Hf & H0 & H1 & Hz); try apply N.le_min_r.
  cbn zeta in Hf, H0, H1, Hz. unfold claimed_confidence in Hf.
  repeat split; trivial.
  intros Hsum. apply Hz. lia.
Qed.

(** The total that the code tests against zero is the sum of the three
    group counts when the groups use keys of their own. *)
Lemma merged_total (iocs entities patterns : list (string * list string)) :
  NoDup (keys entities) -> NoDup (keys patterns) ->
  (forall k, In k (keys iocs) -> In k ioc_keys) ->
  (forall k, In k (keys entities) -> In k entity_keys) ->
  (forall k, In k (keys patterns) -> In k pattern_keys) ->
  sum_len (dict_merge (dict_merge iocs entities) patterns)
  = (sum_len iocs + sum_len entities + sum_len patterns)%N.
Proof.
  intros Hnde Hndp Hi He Hp.
  assert (Hie : dict_merge iocs entities = (iocs ++ entities)%list).
  { apply dict_merge_apart; trivial. intros k Hk Hk'.
    apply (apart_spec ioc_keys entity_keys eq_refl k); auto. }
  rewrite Hie, dict_merge_apart; trivial.
  - now rewrite !sum_len_app.
  - intros k Hk Hk'. unfold keys in Hk'. rewrite map_app, in_app_iff in Hk'.
    destruct Hk' as [Hk' | Hk'].
    + apply (apart_spec ioc_keys pattern_keys eq_refl k); auto.
    + apply (apart_spec entity_keys pattern_keys eq_refl k); auto.
Qed.

Lemma confidence_of_groups (iocs entities patterns : list (string * list string)) :
  NoDup (keys entities) -> NoDup (keys patterns) ->
  (forall k, In k (keys iocs) -> In k ioc_keys) ->
  (forall k, In k (keys entities) -> In k entity_keys) ->
  (forall k, In k (keys patterns) -> In k pattern_keys) ->
  let c := _calculate_confidence iocs entities patterns in
  c = claimed_confidence (sum_len iocs) (sum_len entities) (sum_len patterns)
  /\ (0 <=? c)%float = true /\ (c <=? 1)%float = true
  /\ ((sum_len iocs + sum_len entities + sum_len patterns = 0)%N
      -> c = 0%float).
Proof.
  intros Hnde Hndp Hi He Hp. unfold _calculate_confidence.
  rewrite merged_total by trivial.
  apply counted_confidence.
Qed.

End ConfidenceFacts.

Section ExtractorFacts.
Import Py Confidence EntityExtractor.

Variable re_findall : string -> string -> list string.
Variable set_list : list string -> list string.
Variable Language : Type.
Variable spacy_load : string -> result Language.
Variable spacy_blank : string -> result Language.
Variable doc_ents : Language -> string -> result (list (string * string)).
Variable _get_threat_text : Z -> string.

Let named_entities :=
  _extract_named_entities set_list Language spacy_load spacy_blank doc_ents.

Let extract :=
  extract_from_threat re_findall set_list Language spacy_load spacy_blank
    doc_ents _get_threat_text.

Lemma iocs_keys (text : string) :
  NoDup (keys (_extract_iocs re_findall set_list text))
  /\ forall k, In k (keys (_extract_iocs re_findall set_list text)) ->
               In k ioc_keys.
Proof.
  unfold _extract_iocs.
  match goal with
  | |- context [fold_left ?step ioc_patterns []] =>
      destruct (fold_assign_keys fst step) with (es := ioc_patterns)
        (init := @nil (string * list string)) as [Hnd Hin]
  end.
  - intros d e. destruct (truthy_list (re_findall (snd e) text)); auto.
    destruct (truthy_list _); eauto.
  - constructor.
  - split; trivial. intros k Hk. destruct (Hin k Hk) as [[] | H]. exact H.
Qed.

Lemma entities_keys (ents : list (string * string)) :
  NoDup (keys (entities_by_type set_list ents))
  /\ forall k, In k (keys (entities_by_type set_list ents)) ->
               In k entity_keys.
Proof.
  unfold entities_by_type.
  match goal with
  | |- context [fold_left ?step entity_types []] =>
      destruct (fold_assign_keys lower step) with (es := entity_types)
        (init := @nil (string * list string)) as [Hnd Hin]
  end.
  - intros d e. destruct (truthy_list _); eauto.
  - constructor.
  - split; trivial. intros k Hk. destruct (Hin k Hk) as [[] | H]. exact H.
Qed.

Lemma patterns_keys (text : string) :
  NoDup (keys (_extract_attack_patterns text))
  /\ forall k, In k (keys (_extract_attack_patterns text)) ->
               In k pattern_keys.
Proof.
  unfold _extract_attack_patterns.
  match goal with
  | |- context [fold_left ?step attack_patterns []] =>
      destruct (fold_assign_keys fst step) with (es := attack_patterns)
        (init := @nil (string * list string)) as [Hnd Hin]
  end.
  - intros d e. destruct (truthy_list _); eauto.
  - constructor.
  - split; trivial. intros k Hk. destruct (Hin k Hk) as [[] | H]. exact H.
Qed.

(** Named-entity extraction never raises.  It yields no entity when the
    model cannot be had, and a second call on the state it leaves yields
    the same entities and the same state. *)
Lemma named_entities_run (self_nlp : option Language) (text : string)
  (tr : trace) :
  exists ents nlp' tr',
    named_entities self_nlp text tr = (Ok (ents, nlp'), tr')
    /\ NoDup (keys ents)
    /\ (forall k, In k (keys ents) -> In k entity_keys)
    /\ (self_nlp = None -> model_unavailable spacy_load spacy_blank = true ->
        ents = [] /\ nlp' = None)
    /\ forall tr2, exists tr3,
         named_entities nlp' text tr2 = (Ok (ents, nlp'), tr3).
Proof.
  assert (Hloaded : forall nlp tr0, exists ents tr',
    named_entities (Some nlp) text tr0 = (Ok (ents, Some nlp), tr')
    /\ NoDup (keys ents) /\ (forall k, In k (keys ents) -> In k entity_keys)
    /\ forall tr2, exists tr3,
         named_entities (Some nlp) text tr2 = (Ok (ents, Some nlp), tr3)).
  { intros nlp tr0. unfold named_entities, _extract_named_entities,
      _initialize_nlp, bind, ret, emit. cbn.
    destruct (doc_ents nlp text) as [es |]; cbn.
    - destruct (entities_keys es) as [Hnd Hin].
      do 2 eexists. repeat split; eauto.
    - do 2 eexists. repeat split; eauto.
      + constructor.
      + intros k []. }
  destruct self_nlp as [nlp |].
  - destruct (Hloaded nlp tr) as (ents & tr' & Hrun & Hnd & Hin & Hre).
    exists ents, (Some nlp), tr'. repeat split; trivial; discriminate.
  - unfold model_unavailable.
    unfold named_entities, _extract_named_entities, _initialize_nlp, bind,
      ret, emit.
    destruct (spacy_load "en_core_web_sm") as [nlp | e] eqn:Hload.
    + cbn.
      destruct (Hloaded nlp
                  (tr ++ [Logged INFO "NLP model loaded successfully"])%list)
        as (ents & tr' & Hrun & Hnd & Hin & Hre).
      unfold named_entities, _extract_named_entities, _initialize_nlp, bind,
        ret, emit in Hrun. cbn in Hrun.
      exists ents, (Some nlp), tr'. repeat split; trivial; discriminate.
    + destruct e as [key | what | what | what | what];
        try (cbn; do 3 eexists; repeat split;
             [ constructor | intros k [] | intros tr2; cbn; eexists; reflexivity ]).
      destruct (spacy_blank "en") as [nlp | e] eqn:Hblank.
      * cbn.
        destruct (Hloaded nlp
                    ((tr ++ [Logged WARNING
                               "spaCy model not found, using blank model"])
                       ++ [Logged INFO "NLP model loaded successfully"])%list)
          as (ents & tr' & Hrun & Hnd & Hin & Hre).
        unfold named_entities, _extract_named_entities, _initialize_nlp, bind,
          ret, emit in Hrun. cbn in Hrun.
        exists ents, (Some nlp), tr'. repeat split; trivial; discriminate.
      * cbn. do 3 eexists. repeat split;
          [ constructor | intros k [] | intros tr2; cbn; eexists; reflexivity ].
Qed.

(** C6.  For every extraction run the aggregate confidence is
    0.4 x min(1, IOC_count / 5) + 0.3 x min(1, entity_count / 5)
    + 0.3 x min(1, pattern_count / 3), each count being the number of values
    extracted in that group, all subtypes together; it lies in [0, 1], and
    it is exactly 0 when nothing was extracted. *)
Theorem confidence_is_weighted_capped_sum :
  forall (self_nlp : option Language) (threat_id : Z) (tr : trace),
  exists (r : ExtractionResult.t) (nlp' : option Language) (tr' : trace),
    extract self_nlp threat_id tr = (Ok (r, nlp'), tr')
    /\ ExtractionResult.confidence r
       = claimed_confidence (sum_len (ExtractionResult.iocs r))
           (sum_len (ExtractionResult.entities r))
           (sum_len (ExtractionResult.attack_patterns r))
    /\ (0 <=? ExtractionResult.confidence r)%float = true
    /\ (ExtractionResult.confidence r <=? 1)%float = true
    /\ ((sum_len (ExtractionResult.iocs r)
         + sum_len (ExtractionResult.entities r)
         + sum_len (ExtractionResult.attack_patterns r) = 0)%N ->
        ExtractionResult.confidence r = 0%float).
Proof.
  intros self_nlp threat_id tr.
  unfold extract, extract_from_threat, try_reraise, bind, ret, emit.
  destruct (truthy_str (_get_threat_text threat_id)); cbn [negb].
  - destruct (named_entities_run self_nlp (_get_threat_text threat_id) tr)
      as (ents & nlp' & tr' & Hrun & Hnd & Hin & _ & _).
    unfold named_entities in Hrun. rewrite Hrun. cbn [fst snd].
    do 3 eexists. split; [reflexivity |]. cbn [ExtractionResult.confidence
      ExtractionResult.iocs ExtractionResult.entities
      ExtractionResult.attack_patterns].
    apply confidence_of_groups; trivial;
      try apply iocs_keys; apply patterns_keys.
  - do 3 eexists. split; [reflexivity |].
    cbn [ExtractionResult.confidence ExtractionResult.iocs
      ExtractionResult.entities ExtractionResult.attack_patterns].
    repeat split; reflexivity.
Qed.


(** C9.  Running extraction a second time on the same threat, from the
    state that the first run leaves, returns the identical ExtractionResult:
    the same IOC lists per type, the same entities, the same attack
    patterns and the same confidence, nothing of the first run being
    appended or merged. *)
Theorem extraction_rerun_is_identical :
  forall (self_nlp : option Language) (threat_id : Z) (tr : trace),
  exists (r : ExtractionResult.t) (nlp' : option Language) (tr1 tr2 : trace),
    extract self_nlp threat_id tr = (Ok (r, nlp'), tr1)
    /\ extract nlp' threat_id tr1 = (Ok (r, nlp'), tr2).
Proof.
  intros self_nlp threat_id tr.
  unfold extract, extract_from_threat, try_reraise, bind, ret, emit.
  destruct (truthy_str (_get_threat_text threat_id)); cbn [negb].
  - destruct (named_entities_run self_nlp (_get_threat_text threat_id) tr)
      as (ents & nlp' & tr' & Hrun & _ & _ & _ & Hre).
    unfold named_entities in Hrun, Hre. rewrite Hrun. cbn [fst snd].
    destruct (Hre (tr' ++ [Logged INFO "Entities extracted"])%list)
      as [tr3 Hrun2].
    do 4 eexists. split; [reflexivity |].
    rewrite Hrun2. cbn [fst snd]. reflexivity.
  - do 4 eexists. split; reflexivity.
Qed.

End ExtractorFacts.



(* ================================================================== *)
(** * Further properties of the correlation engine *)
(* ================================================================== *)

Section CorrelatorProperties.
Import Py LogCorrelator Indicators.

(** X1.  The correlation score of any log event and threat record is a
    number (never NaN) between 0 and 1. *)
Theorem correlation_score_in_unit_interval :
  forall (now : Z) (l : LogEntry.t) (t : Threat.t),
    (0 <=? _calculate_correlation_score now l t)%float = true
    /\ (_calculate_correlation_score now l t <=? 1)%float = true.
Proof.
  intros now l t. split; [| apply score_at_most_one].
  rewrite score_shape. apply score_of_positive, severity_term_values.
Qed.

Lemma ip_listed_value (l : LogEntry.t) (t : Threat.t) (b : bool) :
  ip_listed l t = Ok b ->
  (ip_scores l t = true -> b = true)
  /\ (b = true -> exists v, LogEntry.source_ip l = Some v).
Proof.
  unfold ip_listed, ip_scores, in_container.
  destruct (Threat.ip_addresses t) as [| | ips]; cbn; try discriminate;
    intros H; inversion H; subst; clear H; split;
    try (rewrite ?andb_false_r; discriminate).
  - destruct (LogEntry.source_ip l); cbn; [eauto | discriminate].
  - intros H. apply andb_prop in H. tauto.
  - destruct (LogEntry.source_ip l); cbn; [eauto | discriminate].
Qed.

Lemma domain_listed_value (l : LogEntry.t) (t : Threat.t) (b : bool) :
  domain_listed l t = Ok b ->
  (domain_scores l t = true -> b = true)
  /\ (b = true -> exists v, LogEntry.domain l = Some v).
Proof.
  unfold domain_listed, domain_scores, in_container.
  destruct (Threat.domains t) as [| | ds]; cbn; try discriminate;
    intros H; inversion H; subst; clear H; split;
    try (rewrite ?andb_false_r; discriminate).
  - destruct (LogEntry.domain l); cbn; [eauto | discriminate].
  - intros H. apply andb_prop in H. tauto.
  - destruct (LogEntry.domain l); cbn; [eauto | discriminate].
Qed.

Lemma hash_listed_value (l : LogEntry.t) (t : Threat.t) (b : bool) :
  hash_listed l t = Ok b ->
  (hash_scores l t = true -> b = true)
  /\ (b = true -> exists v, LogEntry.file_hash l = Some v).
Proof.
  unfold hash_listed, hash_scores.
  destruct (Threat.file_hashes t) as [| | hs]; cbn; try discriminate;
    intros H; inversion H; subst; clear H; split;
    try (rewrite ?andb_false_r; discriminate).
  - destruct (LogEntry.file_hash l); cbn; [eauto | discriminate].
  - intros H. apply andb_prop in H. tauto.
  - destruct (LogEntry.file_hash l); cbn; [eauto | discriminate].
Qed.

(** The descriptor list, test by test. *)
Lemma matched_indicators_shape (l : LogEntry.t) (t : Threat.t)
  (inds : list string) :
  _get_matched_indicators l t = Ok inds ->
  exists ip dom h,
    ip_listed l t = Ok ip /\ domain_listed l t = Ok dom
    /\ hash_listed l t = Ok h
    /\ inds = (described "IP" (LogEntry.source_ip l) ip
               ++ described "Domain" (LogEntry.domain l) dom
               ++ described "Hash" (LogEntry.file_hash l) h)%list.
Proof.
  unfold _get_matched_indicators, append_descriptor.
  destruct (ip_listed l t) as [ip |] eqn:Hip; cbn; [| discriminate].
  destruct (ip_listed_value l t ip Hip) as [_ Hipv].
  destruct (domain_listed l t) as [dom |] eqn:Hdom.
  2:{ destruct ip; [destruct (Hipv eq_refl) as [v ->] |]; cbn; discriminate. }
  destruct (domain_listed_value l t dom Hdom) as [_ Hdomv].
  destruct (hash_listed l t) as [h |] eqn:Hh.
  2:{ destruct ip; [destruct (Hipv eq_refl) as [v ->] |];
      (destruct dom; [destruct (Hdomv eq_refl) as [w ->] |]); cbn; discriminate. }
  destruct (hash_listed_value l t h Hh) as [_ Hhv].
  intros H. exists ip, dom, h. repeat split.
  destruct ip; [destruct (Hipv eq_refl) as [v Ev]; rewrite Ev in * |];
    (destruct dom; [destruct (Hdomv eq_refl) as [w Ew]; rewrite Ew in * |]);
    (destruct h; [destruct (Hhv eq_refl) as [x Ex]; rewrite Ex in * |]);
    cbn in H |- *; inversion H; subst; clear H;
    unfold described;
    repeat match goal with
    | |- context [match ?o with Some _ => _ | None => _ end] => destruct o
    end; reflexivity.
Qed.

(** X2.  Whenever the descriptor list is produced, every IP, domain or
    file-hash condition that added to the score has its descriptor in it,
    worded "IP: v", "Domain: v" or "Hash: v" with the value of the log
    event, and the list holds at most three descriptors. *)
Theorem scoring_matches_are_described :
  forall (l : LogEntry.t) (t : Threat.t) (inds : list string),
    _get_matched_indicators l t = Ok inds ->
    (ip_scores l t = true ->
     exists v, LogEntry.source_ip l = Some v /\ In ("IP: " ++ v)%string inds)
    /\ (domain_scores l t = true ->
        exists v, LogEntry.domain l = Some v
                  /\ In ("Domain: " ++ v)%string inds)
    /\ (hash_scores l t = true ->
        exists v, LogEntry.file_hash l = Some v
                  /\ In ("Hash: " ++ v)%string inds)
    /\ (List.length inds <= 3)%nat.
Proof.
  intros l t inds Hinds.
  destruct (matched_indicators_shape l t inds Hinds)
    as (ip & dom & h & Hip & Hdom & Hh & ->).
  destruct (ip_listed_value l t ip Hip) as [Hip1 Hip2].
  destruct (domain_listed_value l t dom Hdom) as [Hdom1 Hdom2].
  destruct (hash_listed_value l t h Hh) as [Hh1 Hh2].
  repeat split.
  - intros Hs. rewrite (Hip1 Hs) in *. destruct (Hip2 eq_refl) as [v Ev].
    exists v. split; trivial. rewrite Ev. cbn. now left.
  - intros Hs. rewrite (Hdom1 Hs) in *. destruct (Hdom2 eq_refl) as [v Ev].
    exists v. split; trivial. rewrite Ev. apply in_or_app. right.
    apply in_or_app. left. cbn. now left.
  - intros Hs. rewrite (Hh1 Hs) in *. destruct (Hh2 eq_refl) as [v Ev].
    exists v. split; trivial. rewrite Ev. apply in_or_app. right.
    apply in_or_app. right. cbn. now left.
  - unfold described.
    destruct (LogEntry.source_ip l), (LogEntry.domain l),
      (LogEntry.file_hash l), ip, dom, h; cbn; lia.
Qed.

Lemma scoring_matches_are_described_witness :
  (ip_scores scenario_b_log (scenario_b_threat 0) = true ->
   exists v, LogEntry.source_ip scenario_b_log = Some v
             /\ In ("IP: " ++ v)%string
                  ["IP: 203.0.113.42"; "Domain: evil.example.com"])
  /\ (domain_scores scenario_b_log (scenario_b_threat 0) = true ->
      exists v, LogEntry.domain scenario_b_log = Some v
                /\ In ("Domain: " ++ v)%string
                     ["IP: 203.0.113.42"; "Domain: evil.example.com"])
  /\ (hash_scores scenario_b_log (scenario_b_threat 0) = true ->
      exists v, LogEntry.file_hash scenario_b_log = Some v
                /\ In ("Hash: " ++ v)%string
                     ["IP: 203.0.113.42"; "Domain: evil.example.com"])
  /\ (List.length ["IP: 203.0.113.42"; "Domain: evil.example.com"] <= 3)%nat.
Proof.
  apply (scoring_matches_are_described scenario_b_log (scenario_b_threat 0)).
  reflexivity.
Defined.

Lemma prefix_append (p s : string) : String.prefix p (p ++ s) = true.
Proof.
  induction p as [| c p IH]; cbn.
  - now destruct s.
  - destruct (ascii_dec c c); [exact IH | contradiction].
Qed.

Lemma tag_of_ip (v : string) (rest : list string) :
  tag_of (described "IP" (Some v) true ++ rest) = "ip_match".
Proof.
  change (described "IP" (Some v) true ++ rest)%list
    with (("IP: " ++ v)%string :: rest).
  unfold tag_of. now rewrite prefix_append.
Qed.

Lemma tag_of_domain (v : string) (rest : list string) :
  tag_of (described "Domain" (Some v) true ++ rest) = "domain_match".
Proof.
  change (described "Domain" (Some v) true ++ rest)%list
    with (("Domain: " ++ v)%string :: rest).
  unfold tag_of. rewrite prefix_append. reflexivity.
Qed.

(** X3.  The correlation type agrees with the descriptors: it is
    "pattern_match" exactly when no descriptor is listed, and otherwise it
    names the kind of the first descriptor (IP before domain before
    hash). *)
Theorem correlation_type_names_first_descriptor :
  forall (l : LogEntry.t) (t : Threat.t) (inds : list string),
    _get_matched_indicators l t = Ok inds ->
    _get_correlation_type l t = Ok (tag_of inds).
Proof.
  intros l t inds Hinds.
  destruct (matched_indicators_shape l t inds Hinds)
    as (ip & dom & h & Hip & Hdom & Hh & ->).
  destruct (ip_listed_value l t ip Hip) as [_ Hip2].
  destruct (domain_listed_value l t dom Hdom) as [_ Hdom2].
  destruct (hash_listed_value l t h Hh) as [_ Hh2].
  unfold _get_correlation_type. rewrite Hip, Hdom, Hh. cbn [and_then].
  destruct ip.
  { destruct (Hip2 eq_refl) as [v ->]. now rewrite tag_of_ip. }
  destruct dom.
  { destruct (Hdom2 eq_refl) as [v ->].
    unfold described at 1.
    destruct (LogEntry.source_ip l); cbn [app]; now rewrite tag_of_domain. }
  destruct h.
  { destruct (Hh2 eq_refl) as [v ->].
    unfold described.
    destruct (LogEntry.source_ip l), (LogEntry.domain l); reflexivity. }
  unfold described.
  destruct (LogEntry.source_ip l), (LogEntry.domain l),
    (LogEntry.file_hash l); reflexivity.
Qed.

Lemma correlation_type_names_first_descriptor_witness :
  _get_correlation_type scenario_b_log (scenario_b_threat 0)
  = Ok (tag_of ["IP: 203.0.113.42"; "Domain: evil.example.com"]).
Proof.
  apply (correlation_type_names_first_descriptor scenario_b_log
           (scenario_b_threat 0)).
  reflexivity.
Defined.

(** X4.  When the store has no entry for the id (none, or an empty one),
    [correlate_log] returns none at once: nothing is logged or written and
    the candidate threats are not even queried. *)
Theorem correlate_log_without_entry :
  forall (db : Database) (now log_entry_id : Z) (tr : trace),
    entry_absent db log_entry_id = true ->
    correlate_log db now log_entry_id tr = (Ok None, tr).
Proof.
  intros db now log_entry_id tr. unfold entry_absent, correlate_log,
    try_reraise, bind, lift, ret.
  destruct (_get_log_entry db log_entry_id) as [[l |] | e]; try discriminate.
  - intros ->. reflexivity.
  - reflexivity.
Qed.

Lemma correlate_log_without_entry_witness :
  correlate_log no_such_entry 0 5 [] = (Ok None, []).
Proof.
  apply (correlate_log_without_entry no_such_entry 0 5 []). reflexivity.
Defined.

(** X5.  When [correlate_log] raises, the exception is the one met at the
    lookup of the entry, at the query of the candidates or while building
    the entry of a candidate; it is logged once as an error and re-raised,
    and nothing has been written back. *)
Theorem correlate_log_failure_is_logged_and_reraised :
  forall (db : Database) (now log_entry_id : Z) (tr tr' : trace) (e : exn),
    correlate_log db now log_entry_id tr = (Raise e, tr') ->
    tr' = (tr ++ [Logged ERROR "Error correlating log"])%list
    /\ raised_by db now log_entry_id e.
Proof.
  intros db now log_entry_id tr tr' e.
  unfold correlate_log, try_reraise, bind, lift, ret, emit,
    _update_log_correlation.
  destruct (_get_log_entry db log_entry_id) as [[l |] | e0] eqn:Hlog; cbn.
  - destruct (LogEntry.truthy l) eqn:Htruthy; cbn; [| discriminate].
    destruct (_get_relevant_threats db l) as [ts | e1] eqn:Hts; cbn.
    + destruct (best_of now l ts (None, 0%float)) as [[bc bs] | e2] eqn:Hbest;
        cbn.
      * destruct bc; [destruct (_ <? bs)%float |]; cbn; discriminate.
      * intros H. inversion H; subst. split; trivial.
        right. exists l. repeat split; trivial. right. eauto.
    + intros H. inversion H; subst. split; trivial.
      right. exists l. repeat split; trivial. now left.
  - discriminate.
  - intros H. inversion H; subst. split; trivial. now left.
Qed.

Lemma correlate_log_failure_is_logged_and_reraised_witness :
  snd (correlate_log (flaky_database 0) 0 1 [])
  = ([] ++ [Logged ERROR "Error correlating log"])%list
  /\ raised_by (flaky_database 0) 0 1 (RuntimeError "lookup failed").
Proof.
  apply (correlate_log_failure_is_logged_and_reraised (flaky_database 0) 0 1
           [] _ (RuntimeError "lookup failed")).
  reflexivity.
Defined.

Lemma best_of_app (now : Z) (l : LogEntry.t) (ts ts' : list Threat.t) :
  forall best,
    best_of now l (ts ++ ts') best
    = and_then (best_of now l ts best) (best_of now l ts').
Proof.
  induction ts as [| t rest IH]; intros best; cbn; trivial.
  destruct (consider now l best t); cbn; trivial.
Qed.

(** X6.  A further candidate at the end of the list that does not strictly
    outscore the best one so far changes nothing: [correlate_log] returns
    the same result with the same effects, even when the record lacks the
    keys that an entry is built from. *)
Theorem late_weaker_candidate_changes_nothing :
  forall (db : Database) (now log_entry_id : Z) (tr tr' : trace)
         (res : option Correlation.t) (l : LogEntry.t) (ts : list Threat.t)
         (t : Threat.t),
    _get_log_entry db log_entry_id = Ok (Some l) ->
    _get_relevant_threats db l = Ok ts ->
    correlate_log db now log_entry_id tr = (Ok res, tr') ->
    gt (_calculate_correlation_score now l t) (score_to_beat res) = false ->
    correlate_log (with_threats db (fun _ => Ok (ts ++ [t])%list)) now
      log_entry_id tr
    = (Ok res, tr').
Proof.
  intros db now log_entry_id tr tr' res l ts t Hlog Hts Hrun Hweak.
  destruct (correlate_log_returns _ _ _ _ _ _ Hrun)
    as [Htr [[Habs ->] | (l' & ts' & Hlog' & Htruthy & Hts' & Hbest)]].
  - unfold correlate_log, with_threats, try_reraise, bind, lift, ret. cbn.
    unfold entry_absent in Habs. rewrite Hlog in *.
    apply negb_true_iff in Habs. rewrite Habs. cbn.
    subst tr'. cbn. now rewrite app_nil_r.
  - rewrite Hlog in Hlog'. inversion Hlog'; subst l'.
    rewrite Hts in Hts'. inversion Hts'; subst ts'.
    subst tr'.
    unfold correlate_log, with_threats, try_reraise, bind, lift, ret, emit,
      _update_log_correlation. cbn.
    rewrite Hlog, Htruthy. cbn. rewrite best_of_app, Hbest. cbn.
    unfold consider. cbn [snd]. rewrite Hweak. cbn.
    destruct res as [c |]; cbn.
    + unfold Candidates.persisted, gt, correlation_threshold. cbn.
      destruct (_ <? Correlation.score c)%float; cbn;
        now rewrite ?app_nil_r.
    + now rewrite app_nil_r.
Qed.

Lemma late_weaker_candidate_changes_nothing_witness :
  correlate_log
    (with_threats (stub_database 0)
       (fun _ =>
          Ok ([ Threat.mk (Some 1) (Some "Malicious IP Campaign")
                  (Val ["203.0.113.42"; "198.51.100.15"])
                  (Val ["evil-site.com"]) Missing Missing (Val "high")
                  (Val (0 - two_days)) ] ++ [Threat.empty])%list))
    0 1 []
  = (Ok (Some (Correlation.mk 1 "Malicious IP Campaign"
                 (0.4 + 0.1 + 0.15)%float ["IP: 203.0.113.42"] "ip_match")),
     []).
Proof.
  apply (late_weaker_candidate_changes_nothing (stub_database 0) 0 1 [] []
           (Some (Correlation.mk 1 "Malicious IP Campaign"
                    (0.4 + 0.1 + 0.15)%float ["IP: 203.0.113.42"] "ip_match"))
           (LogEntry.mk (Some 1) (Some "203.0.113.42") None None None None
              (Some "Suspicious activity detected") (Some 0))
           [ Threat.mk (Some 1) (Some "Malicious IP Campaign")
               (Val ["203.0.113.42"; "198.51.100.15"])
               (Val ["evil-site.com"]) Missing Missing (Val "high")
               (Val (0 - two_days)) ]
           Threat.empty);
    reflexivity.
Defined.

Lemma process_one_effects (db : Database) (now : Z) (found alerts : nat)
  (log_entry : LogEntry.t) (tr tr' : trace) (r : nat * nat) :
  process_one db now (found, alerts) log_entry tr = (Ok r, tr') ->
  exists evs,
    tr' = (tr ++ evs)%list
    /\ fst r = (found + List.length (filter is_update evs))%nat
    /\ snd r = (alerts + List.length (filter is_alert evs))%nat
    /\ (List.length (filter is_alert evs)
        <= List.length (filter is_update evs) <= 1)%nat.
Proof.
  unfold process_one, bind, lift.
  destruct (LogEntry.id log_entry) as [log_id |] eqn:Hid; cbn;
    [| discriminate].
  destruct (correlate_log db now log_id tr) as [[res | e] tr1] eqn:Hrun;
    [| discriminate].
  destruct (correlate_log_returns _ _ _ _ _ _ Hrun) as [-> _].
  destruct res as [c |]; cbn.
  - unfold Candidates.persisted, gt, correlation_threshold.
    destruct (0.7 <? Correlation.score c)%float eqn:H7; cbn.
    + destruct (0.8 <? Correlation.score c)%float eqn:H8; cbn.
      * unfold _generate_alert, bind, lift, emit, ret. rewrite Hid. cbn.
        intros H; inversion H; subst; clear H.
        eexists. rewrite <- app_assoc. split; [reflexivity |].
        cbn. repeat split; lia.
      * unfold ret. intros H; inversion H; subst; clear H.
        eexists. split; [reflexivity |]. cbn. repeat split; lia.
    + unfold ret. intros H; inversion H; subst; clear H.
      exists []. cbn. rewrite app_nil_r. repeat split; lia.
  - unfold ret. intros H; inversion H; subst; clear H.
    exists []. cbn. rewrite app_nil_r. repeat split; lia.
Qed.

Lemma process_loop_effects (db : Database) (now : Z)
  (pending : list LogEntry.t) :
  forall (found alerts : nat) (tr tr' : trace) (r : nat * nat),
    process_loop db now pending (found, alerts) tr = (Ok r, tr') ->
    exists evs,
      tr' = (tr ++ evs)%list
      /\ fst r = (found + List.length (filter is_update evs))%nat
      /\ snd r = (alerts + List.length (filter is_alert evs))%nat
      /\ (List.length (filter is_alert evs)
          <= List.length (filter is_update evs)
          <= List.length pending)%nat.
Proof.
  induction pending as [| le rest IH]; intros found alerts tr tr' r; cbn.
  - unfold ret. intros H; inversion H; subst; clear H.
    exists []. cbn. rewrite app_nil_r. repeat split; lia.
  - unfold bind.
    destruct (process_one db now (found, alerts) le tr) as [[[f1 a1] | e] tr1]
      eqn:Hone; [| discriminate].
    intros Hloop.
    destruct (process_one_effects _ _ _ _ _ _ _ _ Hone)
      as (evs1 & -> & Hf1 & Ha1 & Hb1).
    destruct (IH _ _ _ _ _ Hloop) as (evs2 & -> & Hf2 & Ha2 & Hb2).
    cbn [fst snd] in *.
    exists (evs1 ++ evs2)%list. rewrite app_assoc. split; [reflexivity |].
    rewrite !filter_app, !length_app. repeat split; lia.
Qed.

(** X7.  In every batch result the counts are ordered: no more alerts than
    correlations, and no more correlations than events processed. *)
Theorem batch_counts_are_ordered :
  forall (db : Database) (now : Z) (tr tr' : trace) (r : BatchResult.t),
    process_pending_logs db now tr = (Ok r, tr') ->
    (BatchResult.alerts_generated r <= BatchResult.correlations_found r
     <= BatchResult.logs_processed r)%nat.
Proof.
  intros db now tr tr' r.
  unfold process_pending_logs, try_reraise, bind, lift, ret, emit.
  destruct (_get_pending_logs db) as [pending | e]; cbn; [| discriminate].
  destruct (process_loop db now pending (0%nat, 0%nat) tr)
    as [[counts | e] tr1] eqn:Hloop; cbn; [| discriminate].
  destruct (process_loop_effects _ _ _ _ _ _ _ _ Hloop)
    as (evs & _ & Hf & Ha & Hb).
  intros H; inversion H; subst; clear H. cbn. lia.
Qed.

Lemma batch_counts_are_ordered_witness :
  (BatchResult.alerts_generated (BatchResult.mk "completed" 1 1 1)
   <= BatchResult.correlations_found (BatchResult.mk "completed" 1 1 1)
   <= BatchResult.logs_processed (BatchResult.mk "completed" 1 1 1))%nat.
Proof.
  apply (batch_counts_are_ordered (scenario_b_database 0) 0 []
           [ UpdateLogCorrelation 1 1 (0.4 + 0.3 + 0.1 + 0.15)%float;
             GenerateAlert 1 1 (0.4 + 0.3 + 0.1 + 0.15)%float;
             Logged INFO "Log correlation completed" ]).
  reflexivity.
Defined.

(** X8.  The effects of a completed batch are those that it reports: it
    has written back exactly [correlations_found] correlations and raised
    exactly [alerts_generated] alerts, one per qualifying event. *)
Theorem batch_effects_match_counts :
  forall (db : Database) (now : Z) (tr tr' : trace) (r : BatchResult.t),
    process_pending_logs db now tr = (Ok r, tr') ->
    exists evs,
      tr' = (tr ++ evs)%list
      /\ List.length (filter is_update evs) = BatchResult.correlations_found r
      /\ List.length (filter is_alert evs) = BatchResult.alerts_generated r.
Proof.
  intros db now tr tr' r.
  unfold process_pending_logs, try_reraise, bind, lift, ret, emit.
  destruct (_get_pending_logs db) as [pending | e]; cbn; [| discriminate].
  destruct (process_loop db now pending (0%nat, 0%nat) tr)
    as [[counts | e] tr1] eqn:Hloop; cbn; [| discriminate].
  destruct (process_loop_effects _ _ _ _ _ _ _ _ Hloop)
    as (evs & -> & Hf & Ha & Hb).
  intros H; inversion H; subst; clear H. cbn.
  exists (evs ++ [Logged INFO "Log correlation completed"])%list.
  rewrite app_assoc. split; [reflexivity |].
  rewrite !filter_app, !length_app. cbn. lia.
Qed.

Lemma batch_effects_match_counts_witness :
  exists evs,
    [ UpdateLogCorrelation 1 1 (0.4 + 0.3 + 0.1 + 0.15)%float;
      GenerateAlert 1 1 (0.4 + 0.3 + 0.1 + 0.15)%float;
      Logged INFO "Log correlation completed" ] = ([] ++ evs)%list
    /\ List.length (filter is_update evs)
       = BatchResult.correlations_found (BatchResult.mk "completed" 1 1 1)
    /\ List.length (filter is_alert evs)
       = BatchResult.alerts_generated (BatchResult.mk "completed" 1 1 1).
Proof.
  apply (batch_effects_match_counts (scenario_b_database 0) 0 []).
  reflexivity.
Defined.

End CorrelatorProperties.

(* ================================================================== *)
(** * Further properties of the risk scorer *)
(* ================================================================== *)

Section ScorerProperties.
Import Py RiskScorer RiskRank.

Lemma literal_number (x : float) : (x <=? x)%float = true -> FloatOrder.number x.
Proof. apply FloatFacts.number_of_literal. Qed.

(** X9.  The clamp saturates: a raw output of 10 or more is scored 10.0,
    one of 0 or less is scored 0.0, one strictly between passes unchanged,
    and an output that is not a number is scored 10.0. *)
Theorem clamp_score_saturates :
  forall raw : float,
    ((10 <=? raw)%float = true -> clamp_score raw = 10%float)
    /\ ((raw <=? 0)%float = true -> clamp_score raw = 0%float)
    /\ ((0 <? raw)%float = true -> (raw <? 10)%float = true ->
        clamp_score raw = raw)
    /\ (~ FloatOrder.number raw -> clamp_score raw = 10%float).
Proof.
  intros raw. unfold clamp_score, Py.max, Py.min.
  assert (H0 : FloatOrder.number 0%float) by (apply literal_number; reflexivity).
  assert (H10 : FloatOrder.number 10%float)
    by (apply literal_number; reflexivity).
  repeat split.
  - intros Hge.
    rewrite (FloatFacts.ltb_negb_leb raw 10), Hge; trivial.
    apply (FloatFacts.leb_number_r _ _ Hge).
  - intros Hle.
    assert (Hlt : (raw <? 10)%float = true)
      by (apply (FloatFacts.leb_ltb_trans raw 0 10 Hle); reflexivity).
    rewrite Hlt.
    rewrite (FloatFacts.ltb_negb_leb 0 raw), Hle; trivial.
    apply (FloatFacts.leb_number_l _ _ Hle).
  - intros Hpos Hlt. now rewrite Hlt, Hpos.
  - intros Hnan.
    destruct (raw <? 10)%float eqn:Hlt; [| reflexivity].
    exfalso. apply Hnan. apply (FloatFacts.ltb_number_l _ _ Hlt).
Qed.

Ltac order_up :=
  match goal with
  | Hlo : (?b <=? ?s1)%float = true, H12 : (?s1 <=? ?s2)%float = true,
    Hhi : (?b <=? ?s2)%float = false |- _ =>
      rewrite (FloatFacts.leb_trans b s1 s2 Hlo H12) in Hhi; discriminate Hhi
  end.

(** X10.  The risk level never decreases when the score increases: of two
    scores, the higher one gets the same band or a higher one. *)
Theorem risk_level_is_monotone :
  forall s1 s2 : float,
    (s1 <=? s2)%float = true ->
    (rank (_get_risk_level s1) <= rank (_get_risk_level s2))%nat.
Proof.
  intros s1 s2 H12. unfold _get_risk_level, Py.ge.
  destruct (8 <=? s1)%float eqn:A8, (6 <=? s1)%float eqn:A6,
           (4 <=? s1)%float eqn:A4, (2 <=? s1)%float eqn:A2,
           (8 <=? s2)%float eqn:B8, (6 <=? s2)%float eqn:B6,
           (4 <=? s2)%float eqn:B4, (2 <=? s2)%float eqn:B2;
    cbn; try lia; order_up.
Qed.

Lemma risk_level_is_monotone_witness :
  (rank (_get_risk_level 5.9%float) <= rank (_get_risk_level 6%float))%nat.
Proof.
  apply (risk_level_is_monotone 5.9%float 6%float). reflexivity.
Defined.

Variable Model : Type.
Variable predict : Model -> list float -> float.

(** X11.  The model is loaded once: after a call of [score_threat] that
    returned, every later call returns as well and keeps the same model,
    whatever has become of the persisted file. *)
Theorem score_threat_keeps_the_loaded_model :
  forall (joblib_load : string -> result Model) (self_model : option Model)
         (threat_id : Z) (tr tr' : trace) (r : ScoreResult.t)
         (model' : option Model),
    score_threat Model predict joblib_load self_model threat_id tr
    = (Ok (r, model'), tr') ->
    forall (joblib_load' : string -> result Model) (threat_id' : Z)
           (tr0 : trace),
    exists r' tr0',
      score_threat Model predict joblib_load' model' threat_id' tr0
      = (Ok (r', model'), tr0')
      /\ ScoreResult.threat_id r' = threat_id'.
Proof.
  intros joblib_load self_model threat_id tr tr' r model'.
  unfold score_threat, try_reraise, bind, lift, ret, emit.
  destruct self_model as [m |]; cbn.
  - intros H; inversion H; subst; clear H.
    intros joblib_load' threat_id' tr0. cbn. do 2 eexists. split; reflexivity.
  - destruct (joblib_load model_path) as [m | e]; cbn; [| discriminate].
    intros H; inversion H; subst; clear H.
    intros joblib_load' threat_id' tr0. cbn. do 2 eexists. split; reflexivity.
Qed.

(** X12.  [load_model] never raises.  When it answers false the model
    loaded before is kept; when it answers true a model is in place and
    [score_threat] returns without reading the file again. *)
Theorem load_model_reports_and_keeps :
  forall (joblib_load : string -> result Model) (self_model : option Model)
         (tr : trace),
  exists (loaded : bool) (model' : option Model) (tr' : trace),
    load_model Model joblib_load self_model tr = (Ok (loaded, model'), tr')
    /\ (loaded = false -> model' = self_model)
    /\ (loaded = true ->
        forall (joblib_load' : string -> result Model) (threat_id : Z)
               (tr0 : trace),
        exists r tr0',
          score_threat Model predict joblib_load' model' threat_id tr0
          = (Ok (r, model'), tr0')).
Proof.
  intros joblib_load self_model tr. unfold load_model.
  destruct (joblib_load model_path) as [m | e]; cbn.
  - exists true, (Some m), tr. split; [reflexivity |].
    split; [discriminate |]. intros _ joblib_load' threat_id tr0.
    unfold score_threat, try_reraise, bind, lift, ret, emit. cbn.
    do 2 eexists. reflexivity.
  - do 3 eexists. split; [reflexivity |]. split; [trivial | discriminate].
Qed.

End ScorerProperties.

Lemma score_threat_keeps_the_loaded_model_witness :
  exists r' tr0',
    RiskScorer.score_threat RiskRank.Model RiskRank.predict RiskRank.missing
      (Some tt) 2 [] = (Py.Ok (r', Some tt), tr0')
    /\ ScoreResult.threat_id r' = 2.
Proof.
  apply (score_threat_keeps_the_loaded_model RiskRank.Model RiskRank.predict
           RiskRank.present None 1 []
           [Py.Logged Py.INFO "Risk score calculated"]
           (ScoreResult.mk 1 7.5%float "high"
              (combine RiskScorer.feature_names
                 (RiskScorer._extract_features 1)))
           (Some tt)).
  reflexivity.
Defined.

(* ================================================================== *)
(** * Further properties of the extractor *)
(* ================================================================== *)

Section StringFacts.
Import Py.

Lemma append_assoc (a b c : string) :
  ((a ++ b) ++ c = a ++ (b ++ c))%string.
Proof. induction a as [| x a IH]; cbn; [reflexivity | now rewrite IH]. Qed.

Lemma prefix_spec (p s : string) :
  String.prefix p s = true <-> exists post, s = (p ++ post)%string.
Proof.
  revert s. induction p as [| c p IH]; intros s.
  - split; [intros _; exists s; reflexivity | intros _; now destruct s].
  - destruct s as [| d s]; cbn.
    + split; [discriminate | intros [post H]; discriminate H].
    + destruct (ascii_dec c d) as [-> | Hne].
      * rewrite IH. split; intros [post H]; exists post.
        -- now rewrite H.
        -- now inversion H.
      * split; [discriminate |]. intros [post H]. inversion H. congruence.
Qed.

(** [needle in hay] holds exactly when [hay] splits around [needle]. *)
Lemma contains_spec (needle hay : string) :
  contains needle hay = true
  <-> exists pre post, hay = (pre ++ needle ++ post)%string.
Proof.
  induction hay as [| c hay IH].
  - cbn [contains]. rewrite orb_false_r, prefix_spec. split.
    + intros [post H]. exists EmptyString, post. exact H.
    + intros (pre & post & H). destruct pre; cbn in H; [eauto |].
      discriminate H.
  - cbn [contains]. rewrite orb_true_iff, prefix_spec, IH. split.
    + intros [[post H] | (pre & post & H)].
      * exists EmptyString, post. exact H.
      * exists (String c pre), post. cbn. now rewrite H.
    + intros (pre & post & H). destruct pre as [| d pre]; cbn in H.
      * left. eauto.
      * right. inversion H. eauto.
Qed.

Lemma contains_trans (a b c : string) :
  contains a b = true -> contains b c = true -> contains a c = true.
Proof.
  rewrite !contains_spec. intros (p1 & q1 & ->) (p2 & q2 & ->).
  exists (p2 ++ p1)%string, (q1 ++ q2)%string.
  now rewrite !append_assoc.
Qed.

End StringFacts.

Section FilterProperties.
Import Py EntityExtractor FalsePositives.

Lemma filter_false_positives_keeps (ioc_type : string) (ms : list string) :
  _filter_false_positives ioc_type ms = filter (keeps ioc_type) ms.
Proof.
  induction ms as [| m rest IH]; cbn [_filter_false_positives filter]; trivial.
  rewrite IH. unfold keeps, denylist.
  destruct (String.eqb ioc_type "ip"); [reflexivity |].
  destruct (String.eqb ioc_type "domain"); reflexivity.
Qed.

(** X13.  Every address of the private or reserved ranges 10.0.0.0/8,
    172.16.0.0/12, 192.168.0.0/16 and 127.0.0.0/8, written as a dotted
    quad, is discarded by the filter. *)
Theorem private_addresses_are_discarded :
  forall a b c d : N,
    IPv4.private_or_reserved a b c d = true ->
    _filter_false_positives "ip" [ IPv4.dotted a b c d ] = [].
Proof.
  intros a b c d. unfold IPv4.private_or_reserved.
  rewrite !orb_true_iff, !andb_true_iff, !N.eqb_eq.
  intros [[[-> | [[-> _] _]] | [-> ->]] | ->]; unfold IPv4.dotted.
  - change (IPv4.octet 10) with "10". cbn [append].
    generalize (IPv4.octet b ++ String "." (IPv4.octet c ++ String "." (IPv4.octet d)))%string.
    intros rest. destruct rest; reflexivity.
  - change (IPv4.octet 172) with "172". cbn [append].
    generalize (IPv4.octet b ++ String "." (IPv4.octet c ++ String "." (IPv4.octet d)))%string.
    intros rest. destruct rest; reflexivity.
  - change (IPv4.octet 192) with "192". change (IPv4.octet 168) with "168".
    cbn [append].
    generalize (IPv4.octet c ++ String "." (IPv4.octet d))%string.
    intros rest. destruct rest; reflexivity.
  - change (IPv4.octet 127) with "127". cbn [append].
    generalize (IPv4.octet b ++ String "." (IPv4.octet c ++ String "." (IPv4.octet d)))%string.
    intros rest. destruct rest; reflexivity.
Qed.

Lemma private_addresses_are_discarded_witness :
  _filter_false_positives "ip" [ IPv4.dotted 172 16 254 1 ] = [].
Proof.
  apply (private_addresses_are_discarded 172 16 254 1). reflexivity.
Defined.

(** X14.  Matches of any type other than "ip" and "domain" pass the filter
    unchanged. *)
Theorem other_types_pass_unfiltered :
  forall (ioc_type : string) (ms : list string),
    ioc_type <> "ip" -> ioc_type <> "domain" ->
    _filter_false_positives ioc_type ms = ms.
Proof.
  intros ioc_type ms Hip Hdom.
  apply String.eqb_neq in Hip, Hdom.
  induction ms as [| m rest IH]; cbn; trivial.
  now rewrite Hip, Hdom, IH.
Qed.

Lemma other_types_pass_unfiltered_witness :
  _filter_false_positives "cve" [ "CVE-2021-44228"; "cve-2021-44228" ]
  = [ "CVE-2021-44228"; "cve-2021-44228" ].
Proof.
  apply (other_types_pass_unfiltered "cve"); discriminate.
Defined.

(** X15.  For every type the filter only removes: what it returns are
    matches of the input, and filtering its output again changes
    nothing. *)
Theorem filter_only_removes :
  forall (ioc_type : string) (ms : list string),
    (forall m, In m (_filter_false_positives ioc_type ms) -> In m ms)
    /\ (List.length (_filter_false_positives ioc_type ms) <= List.length ms)%nat
    /\ _filter_false_positives ioc_type (_filter_false_positives ioc_type ms)
       = _filter_false_positives ioc_type ms.
Proof.
  intros ioc_type ms. rewrite !filter_false_positives_keeps. repeat split.
  - intros m Hin. apply filter_In in Hin. tauto.
  - apply filter_length_le.
  - induction ms as [| m rest IH]; cbn; trivial.
    destruct (keeps ioc_type m) eqn:Hk; cbn; rewrite ?Hk, IH; trivial.
Qed.

(** X16.  A domain is discarded exactly when its lower-cased name contains
    "example.com", "test.com" or "localhost" anywhere in it, so that
    sub-domains and longer names that embed one of them go as well. *)
Theorem domain_discarded_iff_embeds_denied_name :
  forall m : string,
    _filter_false_positives "domain" [ m ] = []
    <-> exists fp pre post,
          In fp denylist /\ lower m = (pre ++ fp ++ post)%string.
Proof.
  intros m. rewrite filter_false_positives_keeps. cbn [filter].
  change (keeps "domain" m)
    with (negb (existsb (fun fp => contains fp (lower m)) denylist)).
  split.
  - destruct (existsb (fun fp => contains fp (lower m)) denylist) eqn:He;
      cbn; [| discriminate].
    intros _. apply existsb_exists in He. destruct He as (fp & Hin & Hc).
    apply contains_spec in Hc. destruct Hc as (pre & post & Hc).
    exists fp, pre, post. split; assumption.
  - intros (fp & pre & post & Hin & Hlow).
    assert (He : existsb (fun fp => contains fp (lower m)) denylist = true).
    { apply existsb_exists. exists fp. split; trivial.
      apply contains_spec. eauto. }
    now rewrite He.
Qed.

End FilterProperties.

Section FoldFacts.
Import Py Confidence.

Context {A E : Type}.

(** A loop over distinct keys that assigns [g e] under [f e] when [cond e]
    holds builds the dict of the rows that pass, in the order of the rows. *)
Lemma fold_assign_values (f : E -> string) (g : E -> A) (cond : E -> bool) :
  forall (es : list E) (init : list (string * A)),
    NoDup (map f es) ->
    (forall e, In e es -> ~ In (f e) (keys init)) ->
    fold_left (fun d e => if cond e then dict_set d (f e) (g e) else d) es init
    = (init ++ map (fun e => (f e, g e)) (filter cond es))%list.
Proof.
  induction es as [| e rest IH]; intros init Hnd Hfresh;
    cbn [fold_left filter map].
  - now rewrite app_nil_r.
  - cbn in Hnd. inversion Hnd as [| ? ? Hk Hrest]; subst.
    destruct (cond e) eqn:Hc.
    + rewrite dict_set_fresh by (apply Hfresh; now left).
      rewrite IH; trivial.
      * cbn [map]. now rewrite <- app_assoc.
      * intros e' Hin. unfold keys. rewrite map_app, in_app_iff. cbn.
        intros [H | [H | []]].
        -- apply (Hfresh e'); [now right | exact H].
        -- apply Hk. rewrite H. now apply in_map.
    + apply IH; trivial. intros e' Hin. apply Hfresh. now right.
Qed.

Lemma fold_left_ext (step1 step2 : list (string * A) -> E -> list (string * A)) :
  (forall d e, step1 d e = step2 d e) ->
  forall es init, fold_left step1 es init = fold_left step2 es init.
Proof.
  intros Hext. induction es as [| e rest IH]; intros init; cbn; trivial.
  now rewrite Hext, IH.
Qed.

Lemma keys_functional (d : list (string * A)) (k : string) (v1 v2 : A) :
  NoDup (keys d) -> In (k, v1) d -> In (k, v2) d -> v1 = v2.
Proof.
  unfold keys. induction d as [| [k' v'] rest IH]; cbn; intros Hnd H1 H2.
  - contradiction.
  - inversion Hnd as [| ? ? Hk Hrest]; subst.
    destruct H1 as [H1 | H1], H2 as [H2 | H2].
    + congruence.
    + inversion H1; subst. exfalso. apply Hk.
      change k with (fst (k, v2)). now apply in_map.
    + inversion H2; subst. exfalso. apply Hk.
      change k with (fst (k, v1)). now apply in_map.
    + now apply IH.
Qed.

End FoldFacts.

Lemma nodup_check (l : list string) : nodup string_dec l = l -> NoDup l.
Proof. intros H. rewrite <- H. apply NoDup_nodup. Qed.

Lemma truthy_list_In {A} (l : list A) (x : A) :
  In x l -> Py.truthy_list l = true.
Proof. destruct l; [contradiction | reflexivity]. Qed.

Lemma truthy_list_nonempty {A} (l : list A) :
  Py.truthy_list l = true <-> l <> [].
Proof. destruct l; cbn; split; congruence. Qed.

Section PatternProperties.
Import Py Confidence EntityExtractor Reported.

Lemma attack_patterns_shape (text : string) :
  _extract_attack_patterns text
  = map (fun e => (fst e, found_patterns (lower text) (snd e)))
      (filter (fun e => truthy_list (found_patterns (lower text) (snd e)))
         attack_patterns).
Proof.
  unfold _extract_attack_patterns.
  exact (fold_assign_values fst
           (fun e => found_patterns (lower text) (snd e))
           (fun e => truthy_list (found_patterns (lower text) (snd e)))
           attack_patterns []
           (nodup_check (map fst attack_patterns) eq_refl)
           (fun e _ H => H)).
Qed.

Lemma pattern_reported (text cat : string) (found : list string) :
  In (cat, found) (_extract_attack_patterns text)
  <-> found <> []
      /\ exists vocab,
           In (cat, vocab) attack_patterns
           /\ found = found_patterns (lower text) vocab.
Proof.
  rewrite attack_patterns_shape, in_map_iff. split.
  - intros ([c v] & Heq & Hin). apply filter_In in Hin.
    destruct Hin as [Hin Ht]. cbn [fst snd] in *.
    inversion Heq; subst. split.
    + now apply truthy_list_nonempty.
    + eauto.
  - intros (Hne & vocab & Hin & ->). exists (cat, vocab). split; trivial.
    apply filter_In. split; trivial. now apply truthy_list_nonempty.
Qed.

Lemma vocabulary_is_lowercase (cat : string) (vocab : list string) (p : string) :
  In (cat, vocab) attack_patterns -> In p vocab -> lower p = p.
Proof.
  intros Hin Hp.
  assert (H : lowercase_vocabulary = true) by (vm_compute; reflexivity).
  unfold lowercase_vocabulary in H. rewrite forallb_forall in H.
  specialize (H _ Hin). cbn [snd] in H. rewrite forallb_forall in H.
  now apply String.eqb_eq, H.
Qed.

Lemma found_patterns_In (text_lower : string) (vocab : list string) (cat p : string) :
  In (cat, vocab) attack_patterns ->
  (In p (found_patterns text_lower vocab)
   <-> In p vocab /\ contains p text_lower = true).
Proof.
  intros Hin. unfold found_patterns. rewrite filter_In. split.
  - intros [Hp Hc]. split; trivial.
    now rewrite (vocabulary_is_lowercase cat vocab p) in Hc.
  - intros [Hp Hc]. split; trivial.
    now rewrite (vocabulary_is_lowercase cat vocab p).
Qed.

(** X17.  An entry of the attack vocabulary is reported, under its own
    category, exactly when it occurs somewhere in the lower-cased text:
    the test is a plain substring test, blind to case and to word
    boundaries. *)
Theorem pattern_reported_iff_substring :
  forall text cat p : string,
    (exists found,
        In (cat, found) (_extract_attack_patterns text) /\ In p found)
    <-> (exists vocab, In (cat, vocab) attack_patterns /\ In p vocab)
        /\ exists pre post, lower text = (pre ++ p ++ post)%string.
Proof.
  intros text cat p. split.
  - intros (found & Hin & Hp). apply pattern_reported in Hin.
    destruct Hin as (_ & vocab & Hv & ->).
    apply (found_patterns_In _ _ cat) in Hp; trivial.
    destruct Hp as [Hp Hc]. split; [eauto |]. now apply contains_spec.
  - intros ((vocab & Hv & Hp) & Hsub). apply contains_spec in Hsub.
    assert (Hfound : In p (found_patterns (lower text) vocab))
      by (apply (found_patterns_In _ _ cat); auto).
    exists (found_patterns (lower text) vocab). split; trivial.
    apply pattern_reported. split.
    + intros E. rewrite E in Hfound. contradiction.
    + eauto.
Qed.

(** X18.  When one vocabulary entry is part of another of the same
    category, a text for which the longer one is reported has the shorter
    one reported too: "spear phishing" always comes with "phishing", and
    "notpetya" with "petya". *)
Theorem contained_entry_is_reported_too :
  forall (cat : string) (vocab : list string) (p q text : string)
         (found : list string),
    In (cat, vocab) attack_patterns -> In p vocab -> In q vocab ->
    contains q p = true ->
    In (cat, found) (_extract_attack_patterns text) ->
    In p found -> In q found.
Proof.
  intros cat vocab p q text found Hv Hp Hq Hqp Hin Hfound.
  apply pattern_reported in Hin. destruct Hin as (_ & vocab' & Hv' & ->).
  assert (vocab' = vocab).
  { apply (keys_functional attack_patterns cat); trivial.
    apply nodup_check. reflexivity. }
  subst vocab'.
  apply (found_patterns_In _ _ cat) in Hfound; trivial.
  apply (found_patterns_In _ _ cat); trivial. split; trivial.
  apply (contains_trans q p); tauto.
Qed.

Lemma contained_entry_is_reported_too_witness :
  In "petya" [ "petya"; "notpetya" ].
Proof.
  apply (contained_entry_is_reported_too "malware_families"
           [ "wannacry"; "petya"; "notpetya"; "ryuk"; "maze"; "revil";
             "conti"; "emotet"; "trickbot"; "qakbot"; "dridex"; "zeus";
             "carbanak" ]
           "notpetya" "petya" "The NotPetya wiper").
  - left. reflexivity.
  - cbn. tauto.
  - cbn. tauto.
  - reflexivity.
  - vm_compute. left. reflexivity.
  - cbn. tauto.
Defined.

End PatternProperties.

Section IocProperties.
Import Py Confidence EntityExtractor FalsePositives Reported.

Variable re_findall : string -> string -> list string.
Variable set_list : list string -> list string.

Lemma iocs_shape (text : string) :
  _extract_iocs re_findall set_list text
  = map (fun e => (fst e, ioc_values re_findall set_list text e))
      (filter (ioc_kept re_findall set_list text) ioc_patterns).
Proof.
  unfold _extract_iocs.
  rewrite (fold_left_ext _
             (fun d e => if ioc_kept re_findall set_list text e
                         then dict_set d (fst e)
                                (ioc_values re_findall set_list text e)
                         else d)).
  - exact (fold_assign_values fst (ioc_values re_findall set_list text)
             (ioc_kept re_findall set_list text) ioc_patterns []
             (nodup_check (map fst ioc_patterns) eq_refl)
             (fun e _ H => H)).
  - intros d e. unfold ioc_kept, ioc_values.
    destruct (truthy_list (re_findall (snd e) text)); reflexivity.
Qed.

(** X19.  When [list(set(...))] keeps exactly the elements of its
    argument, a string is reported as an IOC of some type exactly when
    the pattern of that type matches it in the text and the
    false-positive filter of that type keeps it. *)
Theorem ioc_reported_iff_kept_match :
  forall text k m : string,
    (forall l x, In x (set_list l) <-> In x l) ->
    ((exists v, In (k, v) (_extract_iocs re_findall set_list text) /\ In m v)
     <-> exists pattern,
           In (k, pattern) ioc_patterns
           /\ In m (re_findall pattern text)
           /\ keeps k m = true).
Proof.
  intros text k m Hset. rewrite iocs_shape. split.
  - intros (v & Hin & Hm). apply in_map_iff in Hin.
    destruct Hin as ([k' pattern] & Heq & Hin). apply filter_In in Hin.
    destruct Hin as [Hin _]. cbn [fst snd] in Heq. inversion Heq; subst.
    unfold ioc_values in Hm. cbn [fst snd] in Hm.
    rewrite filter_false_positives_keeps in Hm. apply filter_In in Hm.
    destruct Hm as [Hm Hk]. apply (proj1 (Hset _ _)) in Hm.
    exists pattern. repeat split; assumption.
  - intros (pattern & Hin & Hm & Hk).
    assert (Hv : In m (ioc_values re_findall set_list text (k, pattern))).
    { unfold ioc_values. cbn [fst snd].
      rewrite filter_false_positives_keeps. apply filter_In. split; trivial.
      now apply (proj2 (Hset _ _)). }
    exists (ioc_values re_findall set_list text (k, pattern)). split; trivial.
    apply in_map_iff. exists (k, pattern). split; trivial.
    apply filter_In. split; trivial. unfold ioc_kept. cbn [snd].
    rewrite (truthy_list_In _ m Hm), (truthy_list_In _ m Hv). reflexivity.
Qed.

End IocProperties.

Lemma ioc_reported_iff_kept_match_witness :
  (exists v,
      In ("ip", v)
        (EntityExtractor._extract_iocs Sample.re_findall Sample.set_list
           Sample.text_2)
      /\ In "203.0.113.42" v)
  <-> exists pattern,
        In ("ip", pattern) EntityExtractor.ioc_patterns
        /\ In "203.0.113.42" (Sample.re_findall pattern Sample.text_2)
        /\ FalsePositives.keeps "ip" "203.0.113.42" = true.
Proof.
  apply (ioc_reported_iff_kept_match Sample.re_findall Sample.set_list
           Sample.text_2 "ip" "203.0.113.42").
  intros l x. apply nodup_In.
Defined.

Section ConfidenceOrder.
Import Py Confidence ConfidenceTable.

Lemma In_counts5 (n : N) : (n <= 5)%N -> In n counts5.
Proof.
  intros H.
  assert (E : (n = 0 \/ n = 1 \/ n = 2 \/ n = 3 \/ n = 4 \/ n = 5)%N) by lia.
  unfold counts5. cbn. intuition auto.
Qed.

Lemma In_counts3 (n : N) : (n <= 3)%N -> In n counts3.
Proof.
  intros H.
  assert (E : (n = 0 \/ n = 1 \/ n = 2 \/ n = 3)%N) by lia.
  unfold counts3. cbn. intuition auto.
Qed.

Lemma claimed_confidence_capped (i e p : N) :
  claimed_confidence i e p
  = claimed_confidence (N.min i 5) (N.min e 5) (N.min p 3).
Proof.
  unfold claimed_confidence.
  now rewrite (min_truediv_capped i 5), (min_truediv_capped e 5),
    (min_truediv_capped p 3) by (cbn; lia).
Qed.

Lemma claimed_confidence_positive (i e p : N) :
  (0 < i + e + p)%N -> (0 <? claimed_confidence i e p)%float = true.
Proof.
  intros Hpos. rewrite claimed_confidence_capped.
  assert (T : positive_on_table = true) by (vm_compute; reflexivity).
  unfold positive_on_table in T. rewrite forallb_forall in T.
  specialize (T (N.min i 5) (In_counts5 _ (N.le_min_r _ _))). cbv beta in T.
  rewrite forallb_forall in T.
  specialize (T (N.min e 5) (In_counts5 _ (N.le_min_r _ _))). cbv beta in T.
  rewrite forallb_forall in T.
  specialize (T (N.min p 3) (In_counts3 _ (N.le_min_r _ _))). cbv beta in T.
  destruct (N.eqb_spec (N.min i 5 + N.min e 5 + N.min p 3) 0) as [E | _];
    [lia | exact T].
Qed.

Lemma claimed_confidence_monotone (i e p i' e' p' : N) :
  (i <= i')%N -> (e <= e')%N -> (p <= p')%N ->
  (claimed_confidence i e p <=? claimed_confidence i' e' p')%float = true.
Proof.
  intros Hi He Hp.
  rewrite (claimed_confidence_capped i e p),
    (claimed_confidence_capped i' e' p').
  assert (Hi' : (N.min i 5 <= N.min i' 5)%N) by lia.
  assert (He' : (N.min e 5 <= N.min e' 5)%N) by lia.
  assert (Hp' : (N.min p 3 <= N.min p' 3)%N) by lia.
  pose proof (In_counts5 _ (N.le_min_r i 5)) as Ii.
  pose proof (In_counts5 _ (N.le_min_r i' 5)) as Ii'.
  pose proof (In_counts5 _ (N.le_min_r e 5)) as Ie.
  pose proof (In_counts5 _ (N.le_min_r e' 5)) as Ie'.
  pose proof (In_counts3 _ (N.le_min_r p 3)) as Ip.
  pose proof (In_counts3 _ (N.le_min_r p' 3)) as Ip'.
  revert Hi' He' Hp' Ii Ii' Ie Ie' Ip Ip'.
  generalize (N.min i 5) (N.min i' 5) (N.min e 5) (N.min e' 5)
    (N.min p 3) (N.min p' 3).
  clear. intros a a' b b' c c' Ha Hb Hc Ia Ia' Ib Ib' Ic Ic'.
  apply N.leb_le in Ha, Hb, Hc.
  assert (T1 : monotone_in_iocs = true) by (vm_compute; reflexivity).
  assert (T2 : monotone_in_entities = true) by (vm_compute; reflexivity).
  assert (T3 : monotone_in_patterns = true) by (vm_compute; reflexivity).
  unfold monotone_in_iocs in T1. unfold monotone_in_entities in T2.
  unfold monotone_in_patterns in T3.
  rewrite forallb_forall in T1, T2, T3.
  specialize (T1 a Ia). specialize (T2 a' Ia'). specialize (T3 a' Ia').
  cbv beta in T1, T2, T3. rewrite forallb_forall in T1, T2, T3.
  specialize (T1 a' Ia'). specialize (T2 b Ib). specialize (T3 b' Ib').
  cbv beta in T1, T2, T3. rewrite forallb_forall in T1, T2, T3.
  specialize (T1 b Ib). specialize (T2 b' Ib'). specialize (T3 c Ic).
  cbv beta in T1, T2, T3. rewrite forallb_forall in T1, T2, T3.
  specialize (T1 c Ic). specialize (T2 c Ic). specialize (T3 c' Ic').
  cbv beta in T1, T2, T3. rewrite Ha in T1. rewrite Hb in T2. rewrite Hc in T3.
  cbn [implb] in T1, T2, T3.
  exact (FloatFacts.leb_trans _ _ _ T1 (FloatFacts.leb_trans _ _ _ T2 T3)).
Qed.

End ConfidenceOrder.

Section ExtractorProperties.
Import Py Confidence EntityExtractor FalsePositives Reported.

Variable re_findall : string -> string -> list string.
Variable set_list : list string -> list string.
Variable Language : Type.
Variable spacy_load : string -> result Language.
Variable spacy_blank : string -> result Language.
Variable doc_ents : Language -> string -> result (list (string * string)).
Variable _get_threat_text : Z -> string.

Lemma entities_shape (ents : list (string * string)) :
  entities_by_type set_list ents
  = map (fun ty => (lower ty, set_list (entity_texts ents ty)))
      (filter (fun ty => truthy_list (entity_texts ents ty)) entity_types).
Proof.
  unfold entities_by_type.
  exact (fold_assign_values lower
           (fun ty => set_list (entity_texts ents ty))
           (fun ty => truthy_list (entity_texts ents ty))
           entity_types []
           (nodup_check (map lower entity_types) eq_refl)
           (fun e _ H => H)).
Qed.

(** Where the entities of a run come from. *)
Lemma named_entities_origin (self_nlp : option Language) (text : string)
  (tr : trace) (ents : list (string * list string)) (nlp' : option Language)
  (tr' : trace) :
  _extract_named_entities set_list Language spacy_load spacy_blank doc_ents
    self_nlp text tr = (Ok (ents, nlp'), tr') ->
  ents = [] \/ exists es, ents = entities_by_type set_list es.
Proof.
  unfold _extract_named_entities, _initialize_nlp, bind, ret, emit.
  destruct self_nlp as [nlp |]; cbn.
  - destruct (doc_ents nlp text); cbn; intros H; inversion H; eauto.
  - destruct (spacy_load "en_core_web_sm") as [nlp | e]; cbn.
    + destruct (doc_ents nlp text); cbn; intros H; inversion H; eauto.
    + destruct e; cbn; try (intros H; inversion H; eauto; fail).
      destruct (spacy_blank "en") as [nlp | e']; cbn.
      * destruct (doc_ents nlp text); cbn; intros H; inversion H; eauto.
      * intros H; inversion H; eauto.
Qed.

Lemma merged_total_of_result (entities iocs patterns : list (string * list string)) :
  NoDup (keys iocs) -> NoDup (keys patterns) ->
  (forall k, In k (keys iocs) -> In k ioc_keys) ->
  (forall k, In k (keys entities) -> In k entity_keys) ->
  (forall k, In k (keys patterns) -> In k pattern_keys) ->
  sum_len (dict_merge (dict_merge entities iocs) patterns)
  = (sum_len iocs + sum_len entities + sum_len patterns)%N.
Proof.
  intros Hndi Hndp Hi He Hp.
  assert (Hei : dict_merge entities iocs = (entities ++ iocs)%list).
  { apply dict_merge_apart; trivial. intros k Hk Hk'.
    apply (apart_spec entity_keys ioc_keys eq_refl k); auto. }
  rewrite Hei, dict_merge_apart; trivial.
  - rewrite !sum_len_app. lia.
  - intros k Hk Hk'. unfold keys in Hk'. rewrite map_app, in_app_iff in Hk'.
    destruct Hk' as [Hk' | Hk'].
    + apply (apart_spec entity_keys pattern_keys eq_refl k); auto.
    + apply (apart_spec ioc_keys pattern_keys eq_refl k); auto.
Qed.

(** Every run returns, and this is what it returns. *)
Lemma extract_run (self_nlp : option Language) (threat_id : Z) (tr : trace) :
  let text := _get_threat_text threat_id in
  let iocs := _extract_iocs re_findall set_list text in
  let patterns := _extract_attack_patterns text in
  exists ents nlp' tr',
    extract_from_threat re_findall set_list Language spacy_load spacy_blank
      doc_ents _get_threat_text self_nlp threat_id tr
    = (Ok (if truthy_str text
           then ExtractionResult.mk threat_id ents iocs patterns
                  (_calculate_confidence iocs ents patterns)
                  (Some (sum_len (dict_merge (dict_merge ents iocs) patterns)))
           else ExtractionResult.mk threat_id [] [] [] 0%float None,
           nlp'), tr')
    /\ NoDup (keys ents)
    /\ (forall k, In k (keys ents) -> In k entity_keys)
    /\ (self_nlp = None -> model_unavailable spacy_load spacy_blank = true ->
        ents = [])
    /\ (ents = [] \/ exists es, ents = entities_by_type set_list es).
Proof.
  cbn zeta.
  unfold extract_from_threat, try_reraise, bind, ret, emit.
  destruct (truthy_str (_get_threat_text threat_id)); cbn [negb].
  - destruct (named_entities_run set_list Language spacy_load spacy_blank
                doc_ents self_nlp (_get_threat_text threat_id) tr)
      as (ents & nlp' & tr' & Hrun & Hnd & Hin & Hnone & _).
    pose proof (named_entities_origin _ _ _ _ _ _ Hrun) as Horigin.
    rewrite Hrun. cbn [fst snd].
    exists ents, nlp'. eexists. split; [reflexivity |].
    split; [exact Hnd |]. split; [exact Hin |]. split; [| exact Horigin].
    intros H1 H2. now destruct (Hnone H1 H2).
  - exists [], self_nlp. eexists. split; [reflexivity |].
    split; [constructor |]. split; [intros k [] |]. split; [reflexivity |].
    now left.
Qed.

(** X20.  Every run returns a result.  For a threat with text its
    [total_entities] is the number of values in the three groups together
    (no key of one group hides a key of another in the merged dict), and
    the confidence is above zero exactly when that number is; for a threat
    without text the result has no [total_entities] at all. *)
Theorem extraction_total_and_confidence :
  forall (self_nlp : option Language) (threat_id : Z) (tr : trace),
  exists (r : ExtractionResult.t) (nlp' : option Language) (tr' : trace),
    extract_from_threat re_findall set_list Language spacy_load spacy_blank
      doc_ents _get_threat_text self_nlp threat_id tr = (Ok (r, nlp'), tr')
    /\ ExtractionResult.total_entities r
       = (if truthy_str (_get_threat_text threat_id)
          then Some (sum_len (ExtractionResult.iocs r)
                     + sum_len (ExtractionResult.entities r)
                     + sum_len (ExtractionResult.attack_patterns r))%N
          else None)
    /\ ((0 <? ExtractionResult.confidence r)%float = true
        <-> (0 < sum_len (ExtractionResult.iocs r)
                 + sum_len (ExtractionResult.entities r)
                 + sum_len (ExtractionResult.attack_patterns r))%N).
Proof.
  intros self_nlp threat_id tr.
  destruct (extract_run self_nlp threat_id tr)
    as (ents & nlp' & tr' & Hrun & Hnd & Hin & _ & _).
  cbn zeta in Hrun. rewrite Hrun. do 3 eexists. split; [reflexivity |].
  destruct (truthy_str (_get_threat_text threat_id));
    cbn [ExtractionResult.confidence ExtractionResult.iocs
         ExtractionResult.entities ExtractionResult.attack_patterns
         ExtractionResult.total_entities].
  - destruct (iocs_keys re_findall set_list (_get_threat_text threat_id))
      as [Hndi Hini].
    destruct (patterns_keys (_get_threat_text threat_id)) as [Hndp Hinp].
    split.
    + now rewrite merged_total_of_result.
    + destruct (confidence_of_groups
                  (_extract_iocs re_findall set_list (_get_threat_text threat_id))
                  ents (_extract_attack_patterns (_get_threat_text threat_id)))
        as (Hc & _ & _ & Hz); trivial.
      cbn zeta in Hc, Hz. split.
      * intros Hpos.
        destruct (N.eq_dec
          (sum_len (_extract_iocs re_findall set_list (_get_threat_text threat_id))
           + sum_len ents
           + sum_len (_extract_attack_patterns (_get_threat_text threat_id))) 0)
          as [E | Hne]; [| lia].
        rewrite (Hz E) in Hpos. vm_compute in Hpos. discriminate Hpos.
      * intros Hpos. rewrite Hc. now apply claimed_confidence_positive.
  - split; [reflexivity |]. split.
    + intros H. vm_compute in H. discriminate H.
    + intros H. vm_compute in H. discriminate H.
Qed.

Lemma extract_confidence (self_nlp : option Language) (threat_id : Z)
  (tr : trace) (r : ExtractionResult.t) (nlp' : option Language) (tr' : trace) :
  extract_from_threat re_findall set_list Language spacy_load spacy_blank
    doc_ents _get_threat_text self_nlp threat_id tr = (Ok (r, nlp'), tr') ->
  ExtractionResult.confidence r
  = claimed_confidence (sum_len (ExtractionResult.iocs r))
      (sum_len (ExtractionResult.entities r))
      (sum_len (ExtractionResult.attack_patterns r))
  /\ (self_nlp = None -> model_unavailable spacy_load spacy_blank = true ->
      ExtractionResult.entities r = []).
Proof.
  intros Hr.
  destruct (extract_run self_nlp threat_id tr)
    as (ents & nlp0 & tr0 & Hrun & Hnd & Hin & Hnone & _).
  cbn zeta in Hrun. rewrite Hrun in Hr. inversion Hr; subst; clear Hr.
  destruct (truthy_str (_get_threat_text threat_id));
    cbn [ExtractionResult.confidence ExtractionResult.iocs
         ExtractionResult.entities ExtractionResult.attack_patterns].
  - split; trivial.
    apply confidence_of_groups; trivial;
      try apply iocs_keys; apply patterns_keys.
  - split; [vm_compute; reflexivity | trivial].
Qed.

(** X21.  Of two runs, the one that extracted at least as many IOCs, at
    least as many entities and at least as many attack patterns has at
    least the confidence of the other. *)
Theorem confidence_is_monotone :
  forall (self1 self2 : option Language) (id1 id2 : Z) (tr1 tr2 : trace)
         (r1 r2 : ExtractionResult.t) (nlp1 nlp2 : option Language)
         (tr1' tr2' : trace),
    extract_from_threat re_findall set_list Language spacy_load spacy_blank
      doc_ents _get_threat_text self1 id1 tr1 = (Ok (r1, nlp1), tr1') ->
    extract_from_threat re_findall set_list Language spacy_load spacy_blank
      doc_ents _get_threat_text self2 id2 tr2 = (Ok (r2, nlp2), tr2') ->
    (sum_len (ExtractionResult.iocs r1)
     <= sum_len (ExtractionResult.iocs r2))%N ->
    (sum_len (ExtractionResult.entities r1)
     <= sum_len (ExtractionResult.entities r2))%N ->
    (sum_len (ExtractionResult.attack_patterns r1)
     <= sum_len (ExtractionResult.attack_patterns r2))%N ->
    (ExtractionResult.confidence r1 <=? ExtractionResult.confidence r2)%float
    = true.
Proof.
  intros self1 self2 id1 id2 tr1 tr2 r1 r2 nlp1 nlp2 tr1' tr2' H1 H2 Hi He Hp.
  destruct (extract_confidence _ _ _ _ _ _ H1) as [-> _].
  destruct (extract_confidence _ _ _ _ _ _ H2) as [-> _].
  now apply claimed_confidence_monotone.
Qed.

(** X22.  When the language model cannot be had, the confidence of a run
    never exceeds 0.7: the share of the named entities is lost. *)
Theorem confidence_without_model_is_capped :
  forall (threat_id : Z) (tr : trace) (r : ExtractionResult.t)
         (nlp' : option Language) (tr' : trace),
    model_unavailable spacy_load spacy_blank = true ->
    extract_from_threat re_findall set_list Language spacy_load spacy_blank
      doc_ents _get_threat_text None threat_id tr = (Ok (r, nlp'), tr') ->
    (ExtractionResult.confidence r <=? 0.7)%float = true.
Proof.
  intros threat_id tr r nlp' tr' Hmodel Hr.
  destruct (extract_confidence _ _ _ _ _ _ Hr) as [-> Hnone].
  rewrite (Hnone eq_refl Hmodel).
  apply (FloatFacts.leb_trans _ (claimed_confidence 5 0 3)).
  - rewrite (claimed_confidence_capped (sum_len (ExtractionResult.iocs r))).
    apply claimed_confidence_monotone; cbn; lia.
  - vm_compute. reflexivity.
Qed.

(** X23.  In the result of a run no key occurs twice, within a group or
    across the three groups, and, when [list(set(...))] keeps exactly the
    elements of its argument, no key carries an empty list. *)
Theorem result_lists_are_distinct_and_non_empty :
  forall (self_nlp : option Language) (threat_id : Z) (tr : trace)
         (r : ExtractionResult.t) (nlp' : option Language) (tr' : trace),
    (forall l x, In x (set_list l) <-> In x l) ->
    extract_from_threat re_findall set_list Language spacy_load spacy_blank
      doc_ents _get_threat_text self_nlp threat_id tr = (Ok (r, nlp'), tr') ->
    let all := (ExtractionResult.entities r ++ ExtractionResult.iocs r
                ++ ExtractionResult.attack_patterns r)%list in
    NoDup (keys all) /\ forall k v, In (k, v) all -> v <> [].
Proof.
  intros self_nlp threat_id tr r nlp' tr' Hset Hr.
  destruct (extract_run self_nlp threat_id tr)
    as (ents & nlp0 & tr0 & Hrun & Hnd & Hin & _ & Horigin).
  cbn zeta in Hrun. rewrite Hrun in Hr. inversion Hr; subst; clear Hr.
  destruct (truthy_str (_get_threat_text threat_id));
    cbn [ExtractionResult.iocs ExtractionResult.entities
         ExtractionResult.attack_patterns];
    [| split; [constructor | intros k v []]].
  destruct (iocs_keys re_findall set_list (_get_threat_text threat_id))
    as [Hndi Hini].
  destruct (patterns_keys (_get_threat_text threat_id)) as [Hndp Hinp].
  split.
  - unfold keys. rewrite !map_app. apply NoDup_app; trivial.
    + apply NoDup_app; trivial. intros k Hk Hk'.
      apply (apart_spec ioc_keys pattern_keys eq_refl k); auto.
    + intros k Hk Hk'. apply in_app_iff in Hk'. destruct Hk' as [Hk' | Hk'].
      * apply (apart_spec entity_keys ioc_keys eq_refl k); auto.
      * apply (apart_spec entity_keys pattern_keys eq_refl k); auto.
  - intros k v Hkv. rewrite !in_app_iff in Hkv.
    destruct Hkv as [Hkv | [Hkv | Hkv]].
    + destruct Horigin as [-> | [es ->]]; [contradiction |].
      rewrite entities_shape in Hkv. apply in_map_iff in Hkv.
      destruct Hkv as (ty & Heq & Hty). inversion Heq; subst; clear Heq.
      apply filter_In in Hty. destruct Hty as [_ Hty].
      destruct (entity_texts es ty) as [| x rest] eqn:Htexts;
        [discriminate Hty |].
      intros E. assert (Hx : In x (set_list (x :: rest)))
        by (apply Hset; now left).
      rewrite E in Hx. contradiction.
    + rewrite iocs_shape in Hkv. apply in_map_iff in Hkv.
      destruct Hkv as (e & Heq & He). inversion Heq; subst; clear Heq.
      apply filter_In in He. destruct He as [_ He]. unfold ioc_kept in He.
      apply andb_true_iff in He. now apply truthy_list_nonempty.
    + apply pattern_reported in Hkv. tauto.
Qed.

End ExtractorProperties.

Lemma confidence_is_monotone_witness :
  (ExtractionResult.confidence (Sample.result_of Sample.run_1)
   <=? ExtractionResult.confidence (Sample.result_of Sample.run_2))%float
  = true.
Proof.
  apply (confidence_is_monotone Sample.re_findall Sample.set_list
           Sample.Language Sample.spacy_load Sample.spacy_blank
           Sample.doc_ents Sample._get_threat_text
           None None 1 2 [] []
           (Sample.result_of Sample.run_1) (Sample.result_of Sample.run_2)
           (Some tt) (Some tt) (snd Sample.run_1) (snd Sample.run_2)).
  - vm_compute. reflexivity.
  - vm_compute. reflexivity.
  - vm_compute. discriminate.
  - vm_compute. discriminate.
  - vm_compute. discriminate.
Defined.

Lemma confidence_without_model_is_capped_witness :
  (ExtractionResult.confidence
     (Sample.result_of (NoModel.extract None 1 [])) <=? 0.7)%float = true.
Proof.
  apply (confidence_without_model_is_capped NoModel.re_findall
           NoModel.set_list NoModel.Language NoModel.spacy_load
           NoModel.spacy_blank NoModel.doc_ents NoModel._get_threat_text
           1 [] (Sample.result_of (NoModel.extract None 1 [])) None
           (snd (NoModel.extract None 1 []))).
  - vm_compute. reflexivity.
  - vm_compute. reflexivity.
Defined.

Lemma result_lists_are_distinct_and_non_empty_witness :
  let r := Sample.result_of Sample.run_2 in
  let all := (ExtractionResult.entities r ++ ExtractionResult.iocs r
              ++ ExtractionResult.attack_patterns r)%list in
  NoDup (Confidence.keys all) /\ forall k v, In (k, v) all -> v <> [].
Proof.
  apply (result_lists_are_distinct_and_non_empty Sample.re_findall
           Sample.set_list Sample.Language Sample.spacy_load
           Sample.spacy_blank Sample.doc_ents Sample._get_threat_text
           None 2 [] (Sample.result_of Sample.run_2) (Some tt)
           (snd Sample.run_2)).
  - intros l x. apply nodup_In.
  - vm_compute. reflexivity.
Defined.

(* ================================================================== *)
(** * The shipped rows and the tasks *)
(* ================================================================== *)

Section ShippedProperties.
Import Py LogCorrelator ScoreTable Shipped.

Lemma shipped_score (now log_entry_id : Z) :
  _calculate_correlation_score now (shipped_log now log_entry_id)
    (shipped_threat now)
  = (0.4 + 0.1 + 0.15)%float.
Proof.
  rewrite score_shape.
  assert (Hage : age_of now (shipped_threat now) = Recent).
  { unfold age_of, shipped_threat. cbn [get Threat.discovered_date].
    replace (days_between now (now - two_days)) with 2; [reflexivity |].
    unfold days_between.
    replace (now - (now - two_days)) with two_days by lia. reflexivity. }
  rewrite Hage. vm_compute. reflexivity.
Qed.

Lemma shipped_correlate (now log_entry_id : Z) (tr : trace) :
  correlate_log (stub_database now) now log_entry_id tr
  = (Ok (Some shipped_correlation), tr).
Proof.
  unfold correlate_log, try_reraise, bind, lift.
  cbn [stub_database _get_log_entry _get_relevant_threats].
  change (LogEntry.truthy _) with true. cbn [negb].
  cbn [best_of]. unfold consider.
  change (_calculate_correlation_score now _ _)
    with (_calculate_correlation_score now (shipped_log now log_entry_id)
            (shipped_threat now)).
  rewrite shipped_score.
  vm_compute. reflexivity.
Qed.

Lemma shipped_process_one (now : Z) (counts : nat * nat) (l : LogEntry.t)
  (tr : trace) :
  LogEntry.id l <> None ->
  process_one (stub_database now) now counts l tr = (Ok counts, tr).
Proof.
  intros Hid. destruct (LogEntry.id l) as [i |] eqn:Hi; [| contradiction].
  unfold process_one, bind, lift. rewrite Hi. cbn [subscript].
  rewrite shipped_correlate.
  assert (Hgt : gt (Correlation.score shipped_correlation)
                  correlation_threshold = false) by (vm_compute; reflexivity).
  rewrite Hgt. reflexivity.
Qed.

Lemma shipped_process_loop (now : Z) (pending : list LogEntry.t) :
  (forall l, In l pending -> LogEntry.id l <> None) ->
  forall (counts : nat * nat) (tr : trace),
    process_loop (stub_database now) now pending counts tr = (Ok counts, tr).
Proof.
  induction pending as [| l rest IH]; intros Hids counts tr;
    cbn [process_loop].
  - reflexivity.
  - unfold bind. rewrite shipped_process_one by (apply Hids; now left).
    apply IH. intros l' Hl'. apply Hids. now right.
Qed.

(** X24.  With the rows that the stubbed queries return, whatever the time
    of the run: every log entry correlates to the one threat with the
    score 0.4 + 0.1 + 0.15, which does not exceed the threshold, so that
    nothing is persisted, and a batch reports two logs processed, no
    correlation found and no alert generated. *)
Theorem shipped_rows_never_correlate :
  forall (now log_entry_id : Z) (tr : trace),
    correlate_log (stub_database now) now log_entry_id tr
    = (Ok (Some shipped_correlation), tr)
    /\ gt (Correlation.score shipped_correlation) correlation_threshold
       = false
    /\ process_pending_logs (stub_database now) now tr
       = (Ok (BatchResult.mk "completed" 2 0 0),
          (tr ++ [Logged INFO "Log correlation completed"])%list).
Proof.
  intros now log_entry_id tr. split; [apply shipped_correlate |].
  split; [vm_compute; reflexivity |].
  unfold process_pending_logs, try_reraise, bind, lift.
  cbn [stub_database _get_pending_logs].
  rewrite shipped_process_loop; [reflexivity |].
  intros l [<- | [<- | []]]; discriminate.
Qed.

End ShippedProperties.

Section TaskProperties.
Import Py Tasks.

(** X25.  Neither correlation task runs the correlator: both call the
    [async] method without awaiting it.  [process_correlations] then
    subscripts the coroutine, so it always ends in [self.retry] with a
    [TypeError]; [correlate_log_entry] returns the coroutine itself.  In
    both the only effect is one log record, whatever the database holds. *)
Theorem correlation_tasks_never_run_the_correlator :
  forall (retry : exn -> exn) (db : LogCorrelator.Database)
         (now log_entry_id : Z) (tr : trace),
    process_correlations retry db now tr
    = (Raise (retry (TypeError "'coroutine' object is not subscriptable")),
       (tr ++ [Logged ERROR "Log correlation failed"])%list)
    /\ correlate_log_entry db now log_entry_id tr
       = (Ok (Coroutine (LogCorrelator.correlate_log db now log_entry_id)),
          (tr ++ [Logged INFO "Log entry correlated"])%list).
Proof. intros retry db now log_entry_id tr. split; reflexivity. Qed.

Section ScoringTask.

Variable Model : Type.
Variable predict : Model -> list float -> float.
Variable joblib_load : string -> result Model.

(** X26.  The risk-scoring task builds its scorer anew, so every call reads
    the model from disk.  When that fails the task fails with the loader's
    own exception, after the error record of the scorer and its own; when
    it succeeds the task returns the clamped prediction of the model just
    read, for the threat asked. *)
Theorem scoring_task_follows_the_model_file :
  forall (threat_id : Z) (tr : trace),
    match joblib_load RiskScorer.model_path with
    | Raise e =>
        calculate_risk_score Model predict joblib_load threat_id tr
        = (Raise e,
           (tr ++ [Logged ERROR "Error scoring threat";
                   Logged ERROR "Risk scoring failed for"])%list)
    | Ok m =>
        exists r : ScoreResult.t,
          calculate_risk_score Model predict joblib_load threat_id tr
          = (Ok r,
             (tr ++ [Logged INFO "Risk score calculated";
                     Logged INFO "Risk score calculated for threat"])%list)
          /\ ScoreResult.threat_id r = threat_id
          /\ ScoreResult.risk_score r
             = RiskScorer.clamp_score
                 (predict m (RiskScorer._extract_features threat_id))
    end.
Proof.
  intros threat_id tr.
  unfold calculate_risk_score, RiskScorer.score_threat, try_reraise, bind,
    lift, emit, ret.
  destruct (joblib_load RiskScorer.model_path) as [m | e].
  - eexists. split.
    + cbn [fst]. rewrite <- app_assoc. reflexivity.
    + split; reflexivity.
  - rewrite <- app_assoc. reflexivity.
Qed.

End ScoringTask.

Section ExtractionTask.

Variable re_findall : string -> string -> list string.
Variable set_list : list string -> list string.
Variable Language : Type.
Variable spacy_load : string -> result Language.
Variable spacy_blank : string -> result Language.
Variable doc_ents : Language -> string -> result (list (string * string)).
Variable _get_threat_text : Z -> string.

(** X27.  The extraction task never reaches its error branch: it returns
    what a new extractor returns for the threat, and adds one log record
    to those of the extractor. *)
Theorem extraction_task_never_fails :
  forall (threat_id : Z) (tr : trace),
  exists (r : ExtractionResult.t) (nlp' : option Language) (tr' : trace),
    EntityExtractor.extract_from_threat re_findall set_list Language
      spacy_load spacy_blank doc_ents _get_threat_text None threat_id tr
    = (Ok (r, nlp'), tr')
    /\ extract_entities re_findall set_list Language spacy_load spacy_blank
         doc_ents _get_threat_text threat_id tr
       = (Ok r, (tr' ++ [Logged INFO "Entities extracted for threat"])%list).
Proof.
  intros threat_id tr.
  destruct (extract_run re_findall set_list Language spacy_load spacy_blank
              doc_ents _get_threat_text None threat_id tr)
    as (ents & nlp' & tr' & Hrun & _).
  cbn zeta in Hrun. do 3 eexists. split; [exact Hrun |].
  unfold extract_entities, try_reraise, bind, emit, ret.
  rewrite Hrun. reflexivity.
Qed.

End ExtractionTask.

End TaskProperties.
